(** * Task manager: the storage layer (storage.py) over the task model (models.py)

    A shallow embedding of [task_manager/models.py] and
    [task_manager/storage.py].  Python values that reach the store are JSON
    data; the file system is a finite map from paths to text; exceptions are
    values of an inductive type threaded through a state-and-exception monad.
    What the Python interpreter and the operating system supply ([json],
    [uuid], [datetime], [repr], the text of OS errors) is an interface,
    [Runtime], and every OS-level refusal is an entry of a fault plan. *)

From Stdlib Require Import ZArith Ascii Sorted.
From stdpp Require Import base gmap sets list strings pretty.

Set Default Proof Using "Type".
#[local] Set Warnings "-register-all".
#[local] Set Warnings "-automation".


(** ** Python strings

    A [str] is a [string]; its characters stand for the code points below
    256. *)

Module PyStr.

Definition code (c : ascii) : N := N_of_ascii c.

(** [str.lower] on one character: A-Z, and the Latin-1 capitals
    (U+00C0-U+00DE without the multiplication sign U+00D7). *)
Definition lower_char (c : ascii) : ascii :=
  let n := code c in
  if ((65 <=? n) && (n <=? 90))%N then ascii_of_N (n + 32)
  else if ((192 <=? n) && (n <=? 222) && negb (n =? 215))%N
       then ascii_of_N (n + 32)
       else c.

Fixpoint lower (s : string) : string :=
  match s with
  | EmptyString => EmptyString
  | String c r => String (lower_char c) (lower r)
  end.

(** [str.isspace] on one character: TAB..CR, FS..US, SPACE, NEL, NBSP. *)
Definition is_space (c : ascii) : bool :=
  let n := code c in
  (((9 <=? n) && (n <=? 13)) || ((28 <=? n) && (n <=? 32))
   || (n =? 133) || (n =? 160))%N.

Fixpoint lstrip (s : string) : string :=
  match s with
  | EmptyString => EmptyString
  | String c r => if is_space c then lstrip r else s
  end.

Fixpoint rstrip (s : string) : string :=
  match s with
  | EmptyString => EmptyString
  | String c r =>
      match rstrip r with
      | EmptyString => if is_space c then EmptyString else String c EmptyString
      | r' => String c r'
      end
  end.

(** [str.strip()] *)
Definition strip (s : string) : string := rstrip (lstrip s).

(** [needle in hay] on two strings *)
Fixpoint contains (needle hay : string) : bool :=
  String.prefix needle hay ||
  match hay with
  | EmptyString => false
  | String _ r => contains needle r
  end.

End PyStr.

(** ** JSON data: what [json.loads] returns and [json.dump] accepts

    [None], [bool], [int], [str], [list] and [dict] with string keys.  A
    [dict] is the list of its items in insertion order; a Python [dict] has
    no two items with one key, so the first binding of a key is its binding.
    Floating-point numbers are left out of the model. *)

Inductive json : Type :=
| JNull
| JBool (b : bool)
| JInt (z : Z)
| JStr (s : string)
| JList (l : list json)
| JDict (d : list (string * json)).

(** [d.get(k)]: [None] of the option stands for an absent key. *)
Fixpoint dict_get (k : string) (d : list (string * json)) : option json :=
  match d with
  | [] => None
  | (k', v) :: r => if String.eqb k k' then Some v else dict_get k r
  end.

(** [k in d] *)
Definition dict_has (k : string) (d : list (string * json)) : bool :=
  match dict_get k d with Some _ => true | None => false end.

(** [bool] is a subclass of [int]: [True == 1]. *)
Definition as_int (v : json) : option Z :=
  match v with
  | JBool b => Some (Z.b2z b)
  | JInt z => Some z
  | _ => None
  end.

(** [a == b] on JSON data *)
Fixpoint py_eq (a b : json) : bool :=
  match a, b with
  | JNull, JNull => true
  | JStr s, JStr t => String.eqb s t
  | JList l, JList m =>
      (fix elems (l m : list json) : bool :=
         match l, m with
         | [], [] => true
         | x :: l', y :: m' => py_eq x y && elems l' m'
         | _, _ => false
         end) l m
  | JDict d, JDict e =>
      Nat.eqb (length d) (length e) &&
      (fix items (d : list (string * json)) : bool :=
         match d with
         | [] => true
         | (k, v) :: d' =>
             match dict_get k e with
             | Some v' => py_eq v v'
             | None => false
             end && items d'
         end) d
  | JBool x, _ =>
      match as_int b with Some y => Z.eqb (Z.b2z x) y | None => false end
  | JInt x, _ =>
      match as_int b with Some y => Z.eqb x y | None => false end
  | _, _ => false
  end.

(** [a != b] *)
Definition py_ne (a b : json) : bool := negb (py_eq a b).

(** ** models.py *)

Inductive Priority := HIGH | MEDIUM | LOW.
Inductive Status := ACTIVE | COMPLETED.

Definition Priority_value (p : Priority) : string :=
  match p with HIGH => "high" | MEDIUM => "medium" | LOW => "low" end.

Definition Status_value (s : Status) : string :=
  match s with ACTIVE => "active" | COMPLETED => "completed" end.

(** The [priority] and [status] attributes hold a member of the enumeration
    or whatever other datum was put there. *)
Inductive priority_attr := PriorityOf (p : Priority) | PriorityRaw (v : json).
Inductive status_attr := StatusOf (s : Status) | StatusRaw (v : json).

(** The dataclass [Task]: the attributes of one object, each holding
    whatever datum was assigned to it. *)
Record Task := mkTask {
  title : json;
  description : json;
  priority : priority_attr;
  due_date : json;
  status : status_attr;
  id : json;
  created_at : json;
  completed_at : json
}.

(** The exceptions that the store raises or lets through. *)
Inductive exn :=
| StorageError (msg : string)
| TaskNotFoundError (msg : string)
| KeyError (msg : string)
| ValueError (msg : string)
| JSONDecodeError (msg : string)
| OSError (msg : string)
| TypeError
| AttributeError.

(** A path is the list of its components; [[]] is the directory the
    relative paths start from. *)
Abbreviation path := (list string).

(** ** The interpreter and the operating system *)

Class Runtime := {
  (** [json.loads]; [inl] carries [str(e)] of the [JSONDecodeError] *)
  json_loads : string -> string + json;
  (** the text [json.dump(_, f, indent=2)] writes *)
  json_dumps : json -> string;
  (** [repr] of a datum that is not a [str] *)
  py_repr : json -> string;
  (** the [n]-th [str(uuid.uuid4())] *)
  uuid4 : nat -> string;
  (** the [n]-th [datetime.now().isoformat()] *)
  now_isoformat : nat -> string;
  (** [str(e)] of the [FileNotFoundError] for a path *)
  strerror_noent : path -> string
}.

(** [str(v)], as an f-string formats [v] *)
Definition py_str `{Runtime} (v : json) : string :=
  match v with
  | JStr s => s
  | _ => py_repr v
  end.

(** ** The world: files, directories, and the count of the values drawn
    from [uuid4] and [datetime.now] so far *)

Record world := mkWorld {
  files : gmap path string;
  dirs : gset path;
  tick : nat
}.

Definition set_files (f : gmap path string) (w : world) : world :=
  mkWorld f (dirs w) (tick w).

Definition set_dirs (d : gset path) (w : world) : world :=
  mkWorld (files w) d (tick w).

(** ** Statements that read and change the world, and may raise *)

Inductive outcome (A : Type) :=
| Return (a : A)
| Raise (e : exn).
Arguments Return {A} a.
Arguments Raise {A} e.

Definition M (A : Type) : Type := world -> outcome A * world.

Definition ret {A} (a : A) : M A := fun w => (Return a, w).

Definition raise {A} (e : exn) : M A := fun w => (Raise e, w).

Definition bind {A B} (m : M A) (k : A -> M B) : M B :=
  fun w =>
    match m w with
    | (Return a, w') => k a w'
    | (Raise e, w') => (Raise e, w')
    end.

(** [try: m  except Exception as e: h e] *)
Definition try_except {A} (m : M A) (h : exn -> M A) : M A :=
  fun w =>
    match m w with
    | (Return a, w') => (Return a, w')
    | (Raise e, w') => h e w'
    end.

Notation "x <- m ;; k" := (bind m (fun x => k))
  (at level 100, m at next level, right associativity).
Notation "m ;;; k" := (bind m (fun _ => k))
  (at level 100, right associativity).

(** [[f(x) for x in xs]], left to right, stopping at the first raise *)
Fixpoint for_each {A B} (f : A -> M B) (xs : list A) : M (list B) :=
  match xs with
  | [] => ret []
  | x :: r => y <- f x ;; ys <- for_each f r ;; ret (y :: ys)
  end.

(** [isinstance(e, OSError)]; [IOError] is [OSError], [PermissionError] a
    subclass of it. *)
Definition is_OSError (e : exn) : option string :=
  match e with OSError msg => Some msg | _ => None end.

(** ** models.py, class [Task] *)

Section Models.
Context `{Runtime}.

(** [str(uuid.uuid4())] and [datetime.now().isoformat()]: the next value,
    and one more value drawn. *)
Definition draw (source : nat -> string) : M string :=
  fun w => (Return (source (tick w)), mkWorld (files w) (dirs w) (S (tick w))).

(** [Task.__post_init__], on the attributes as the constructor got them *)
Definition __post_init__ (self : Task) : M Task :=
  (* Auto-generate ID if not provided *)
  id' <- match id self with
         | JNull => s <- draw uuid4 ;; ret (JStr s)
         | v => ret v
         end ;;
  (* Auto-set created_at if not provided *)
  created_at' <- match created_at self with
                 | JNull => s <- draw now_isoformat ;; ret (JStr s)
                 | v => ret v
                 end ;;
  (* Strip whitespace from title *)
  let title' := match title self with
                | JStr s => JStr (PyStr.strip s)
                | v => v
                end in
  (* Handle priority as string (case insensitive) *)
  priority' <- match priority self with
               | PriorityRaw (JStr s) =>
                   let priority_str := PyStr.lower s in
                   if String.eqb priority_str "high" then ret (PriorityOf HIGH)
                   else if String.eqb priority_str "medium" then ret (PriorityOf MEDIUM)
                   else if String.eqb priority_str "low" then ret (PriorityOf LOW)
                   else raise (ValueError ("Invalid priority: " +:+ s))
               | p => ret p
               end ;;
  (* Handle status as string *)
  status' <- match status self with
             | StatusRaw (JStr s) =>
                 let status_str := PyStr.lower s in
                 if String.eqb status_str "active" then ret (StatusOf ACTIVE)
                 else if String.eqb status_str "completed" then ret (StatusOf COMPLETED)
                 else raise (ValueError ("Invalid status: " +:+ s))
             | s => ret s
             end ;;
  ret {| title := title'; description := description self;
         priority := priority'; due_date := due_date self;
         status := status'; id := id'; created_at := created_at';
         completed_at := completed_at self |}.

(** [Task.to_dict] *)
Definition to_dict (self : Task) : json :=
  JDict [
    ("id", id self);
    ("title", title self);
    ("description", description self);
    ("priority", match priority self with
                 | PriorityOf p => JStr (Priority_value p)
                 | PriorityRaw v => v
                 end);
    ("due_date", due_date self);
    ("status", match status self with
               | StatusOf s => JStr (Status_value s)
               | StatusRaw v => v
               end);
    ("created_at", created_at self);
    ("completed_at", completed_at self)
  ].

(** [data.get(key)] and [data.get(key, default)] on a dict *)
Definition get (d : list (string * json)) (key : string) : json :=
  default JNull (dict_get key d).

Definition get_or (d : list (string * json)) (key : string) (dflt : json)
  : json :=
  default dflt (dict_get key d).

(** [Task.from_dict].  The file decides what [data] is: on a [dict] the
    method does what it was written for; on a [str] or a [list] the test
    ['title' not in data] is the substring or the membership test and
    [data.get] is an [AttributeError]; on [None], a [bool] or an [int]
    the test itself is a [TypeError]. *)
Definition from_dict (data : json) : M Task :=
  match data with
  | JDict d =>
      (* Ensure required fields are present *)
      if negb (dict_has "title" d)
      then raise (KeyError "Missing required field: title")
      else
        (* Create task with all fields from dict *)
        __post_init__
          {| id := get d "id";
             title := get d "title";
             description := get d "description";
             priority := PriorityRaw (get_or d "priority" (JStr "medium"));
             due_date := get d "due_date";
             status := StatusRaw (get_or d "status" (JStr "active"));
             created_at := get d "created_at";
             completed_at := get d "completed_at" |}
  | JStr s =>
      if negb (PyStr.contains "title" s)
      then raise (KeyError "Missing required field: title")
      else raise AttributeError
  | JList l =>
      if negb (existsb (py_eq (JStr "title")) l)
      then raise (KeyError "Missing required field: title")
      else raise AttributeError
  | JNull | JBool _ | JInt _ => raise TypeError
  end.

End Models.

(** ** The file system calls of storage.py

    A call either does its work on the maps of the world or is refused by
    the operating system.  The refusals (permission denied, disk full, a
    directory where a file is expected, ...) are an input: a fault plan
    says, for each call of one store operation, whether it fails, with the
    text of its [OSError] and, for a call that writes, how much had reached
    the destination. *)

Inductive fs_op :=
| OpMkdir | OpWriteText | OpReadText | OpOpen | OpDump
| OpRename | OpUnlink | OpCopy.

Record fault := mkFault {
  fault_msg : string;
  (** [None]: the destination was not touched *)
  fault_reached : option nat
}.

Abbreviation plan := (fs_op -> option fault).

Definition no_faults : plan := fun _ => None.

Definition modify_files (f : gmap path string -> gmap path string) : M unit :=
  fun w => (Return tt, set_files (f (files w)) w).

Definition partial_write (f : fault) (p : path) (text : string) : M unit :=
  match fault_reached f with
  | Some n => modify_files (insert p (String.substring 0 n text))
  | None => ret tt
  end.

Definition parent (p : path) : path := removelast p.
Definition name (p : path) : string := List.last p EmptyString.

(** [p] and the directories above it, without the starting directory
    [[]], which [mkdir] never has to make *)
Definition ancestors (p : path) : list path :=
  map (fun n => take n p) (seq 1 (length p)).

Section FileSystem.
Context `{Runtime}.

(** [Path.exists()] *)
Definition path_exists (p : path) : M bool :=
  fun w => (Return (bool_decide (is_Some (files w !! p) ∨ p ∈ dirs w)), w).

(** [Path.mkdir(parents=True, exist_ok=True)] *)
Definition mkdir_parents (pl : plan) (p : path) : M unit :=
  match pl OpMkdir with
  | Some f => raise (OSError (fault_msg f))
  | None =>
      fun w => (Return tt, set_dirs (dirs w ∪ list_to_set (ancestors p)) w)
  end.

(** [Path.write_text(text)] *)
Definition write_text (pl : plan) (p : path) (text : string) : M unit :=
  match pl OpWriteText with
  | Some f => partial_write f p text ;;; raise (OSError (fault_msg f))
  | None => modify_files (insert p text)
  end.

(** [Path.read_text()] *)
Definition read_text (pl : plan) (p : path) : M string :=
  match pl OpReadText with
  | Some f => raise (OSError (fault_msg f))
  | None =>
      fun w =>
        match files w !! p with
        | Some text => (Return text, w)
        | None => (Raise (OSError (strerror_noent p)), w)
        end
  end.

(** [open(p, 'w')]: the file is created, or emptied *)
Definition open_w (pl : plan) (p : path) : M unit :=
  match pl OpOpen with
  | Some f => raise (OSError (fault_msg f))
  | None => modify_files (insert p EmptyString)
  end.

(** [json.dump(data, f, indent=2)] into the open file, and its closing
    at the end of the [with] block *)
Definition json_dump (pl : plan) (data : json) (p : path) : M unit :=
  match pl OpDump with
  | Some f =>
      modify_files
        (insert p (String.substring 0 (default 0 (fault_reached f))
                                    (json_dumps data))) ;;;
      raise (OSError (fault_msg f))
  | None => modify_files (insert p (json_dumps data))
  end.

(** [src.rename(dst)]: the destination is replaced in one step *)
Definition rename (pl : plan) (src dst : path) : M unit :=
  match pl OpRename with
  | Some f => raise (OSError (fault_msg f))
  | None =>
      fun w =>
        match files w !! src with
        | Some text =>
            (Return tt, set_files (<[dst := text]> (delete src (files w))) w)
        | None => (Raise (OSError (strerror_noent src)), w)
        end
  end.

(** [Path.unlink()] *)
Definition unlink (pl : plan) (p : path) : M unit :=
  match pl OpUnlink with
  | Some f => raise (OSError (fault_msg f))
  | None =>
      fun w =>
        match files w !! p with
        | Some _ => (Return tt, set_files (delete p (files w)) w)
        | None => (Raise (OSError (strerror_noent p)), w)
        end
  end.

(** [shutil.copy2(src, dst)]: into the directory [dst] when it is one *)
Definition copy2 (pl : plan) (src dst : path) : M unit :=
  fun w =>
    let dst' := if bool_decide (dst ∈ dirs w) then dst ++ [name src] else dst in
    match files w !! src with
    | Some text =>
        match pl OpCopy with
        | Some f =>
            (partial_write f dst' text ;;; raise (OSError (fault_msg f))) w
        | None => modify_files (insert dst' text) w
        end
    | None =>
        (Raise (OSError (match pl OpCopy with
                         | Some f => fault_msg f
                         | None => strerror_noent src
                         end)), w)
    end.

End FileSystem.

(** ** storage.py, class [TaskStorage] *)

Record TaskStorage := mkTaskStorage { _file_path : path }.

Section Storage.
Context `{Runtime}.

(** [TaskStorage.__init__] *)
Definition __init__ (pl : plan) (file_path : path) : M TaskStorage :=
  let self := {| _file_path := file_path |} in
  (* Create directory if it doesn't exist *)
  mkdir_parents pl (parent (_file_path self)) ;;;
  (* Create empty file if it doesn't exist *)
  present <- path_exists (_file_path self) ;;
  (if negb present then write_text pl (_file_path self) "[]" else ret tt) ;;;
  ret self.

(** [TaskStorage._validate_schema] *)
Definition _validate_schema (data : json) : M (list json) :=
  match data with
  | JList items => ret items
  | _ => raise (StorageError "Invalid JSON schema: expected a list of tasks")
  end.

(** [TaskStorage.load] *)
Definition load (pl : plan) (self : TaskStorage) : M (list Task) :=
  try_except
    (content <- read_text pl (_file_path self) ;;
     data <- match json_loads content with
             | inr data => ret data
             | inl e => raise (JSONDecodeError e)
             end ;;
     (* Validate schema *)
     items <- _validate_schema data ;;
     (* Convert dicts to Task objects *)
     for_each from_dict items)
    (fun e =>
       match e with
       | JSONDecodeError e =>
           raise (StorageError
                    ("Failed to load tasks: invalid JSON format - " +:+ e))
       | OSError e => raise (StorageError ("Failed to load tasks: " +:+ e))
       | _ => raise e
       end).

Definition temp_path (self : TaskStorage) : path :=
  parent (_file_path self) ++ [name (_file_path self) +:+ ".tmp"].

Definition backup_path (self : TaskStorage) : path :=
  parent (_file_path self) ++ [name (_file_path self) +:+ ".backup"].

(** [TaskStorage._create_backup] *)
Definition _create_backup (pl : plan) (self : TaskStorage) : M unit :=
  try_except
    (copy2 pl (_file_path self) (backup_path self))
    (fun e =>
       match is_OSError e with
       | Some _ => (* Backup failure shouldn't prevent saves *) ret tt
       | None => raise e
       end).

(** [TaskStorage._atomic_write] *)
Definition _atomic_write (pl : plan) (self : TaskStorage) (data : list json)
  : M unit :=
  try_except
    ((* Write to temporary file *)
     open_w pl (temp_path self) ;;;
     json_dump pl (JList data) (temp_path self) ;;;
     (* Atomically rename temp file to target file *)
     rename pl (temp_path self) (_file_path self) ;;;
     (* Create backup after successful write (last known good state) *)
     _create_backup pl self)
    (fun e =>
       (* Clean up temp file if it exists *)
       present <- path_exists (temp_path self) ;;
       (if present then unlink pl (temp_path self) else ret tt) ;;;
       raise e).

(** [TaskStorage.save] *)
Definition save (pl : plan) (self : TaskStorage) (tasks : list Task)
  : M unit :=
  try_except
    ((* Convert tasks to dicts *)
     let data := map to_dict tasks in
     (* Use atomic write *)
     _atomic_write pl self data)
    (fun e =>
       match is_OSError e with
       | Some msg => raise (StorageError ("Failed to save tasks: " +:+ msg))
       | None => raise e
       end).

(** [TaskStorage.get_all] *)
Definition get_all (pl : plan) (self : TaskStorage) : M (list Task) :=
  tasks <- load pl self ;;
  (* Return new instances to avoid reference issues *)
  for_each (fun task => from_dict (to_dict task)) tasks.

(** [TaskStorage.get_by_id] *)
Definition get_by_id (pl : plan) (self : TaskStorage) (task_id : json)
  : M Task :=
  tasks <- load pl self ;;
  match List.find (fun task => py_eq (id task) task_id) tasks with
  | Some task => ret task
  | None =>
      raise (TaskNotFoundError
               ("Task with ID " +:+ py_str task_id +:+ " not found"))
  end.

(** [TaskStorage.add] *)
Definition add (pl : plan) (self : TaskStorage) (task : Task) : M unit :=
  tasks <- load pl self ;;
  (* Check for duplicate ID *)
  if existsb (fun t => py_eq (id t) (id task)) tasks
  then raise (StorageError
                ("Task with ID " +:+ py_str (id task) +:+ " already exists"))
  else save pl self (tasks ++ [task]).

(** [TaskStorage.remove] *)
Definition remove (pl : plan) (self : TaskStorage) (task_id : json)
  : M unit :=
  tasks <- load pl self ;;
  (* Find and remove the task *)
  let original_length := length tasks in
  let tasks := List.filter (fun t => py_ne (id t) task_id) tasks in
  if Nat.eqb (length tasks) original_length
  then raise (TaskNotFoundError
                ("Task with ID " +:+ py_str task_id +:+ " not found"))
  else save pl self tasks.

(** The loop of [update]: the index of the first task with the ID. *)
Fixpoint first_with_id (task_id : json) (i : nat) (tasks : list Task)
  : option nat :=
  match tasks with
  | [] => None
  | t :: rest =>
      if py_eq (id t) task_id then Some i
      else first_with_id task_id (S i) rest
  end.

(** [TaskStorage.update] *)
Definition update (pl : plan) (self : TaskStorage) (task : Task) : M unit :=
  tasks <- load pl self ;;
  (* Find and update the task *)
  match first_with_id (id task) 0 tasks with
  | Some i => save pl self (<[i := task]> tasks)
  | None =>
      raise (TaskNotFoundError
               ("Task with ID " +:+ py_str (id task) +:+ " not found"))
  end.

End Storage.

(** ** A runtime to run the store on

    A JSON printer in the layout of [json.dump(_, f, indent=2)] and a JSON
    reader for the data of the model (integers for numbers, code points
    below 256), for the examples below. *)

Module RefJson.

Definition chr (n : N) : string := String (ascii_of_N n) EmptyString.
Definition dquote : string := chr 34.
Definition newline : string := chr 10.

Definition hex_digit (n : N) : ascii :=
  ascii_of_N (if (n <? 10)%N then 48 + n else 87 + n).

(** one character of a string literal, with [ensure_ascii=True] *)
Definition escape_char (c : ascii) : string :=
  let n := PyStr.code c in
  if (n =? 34)%N then "\" +:+ dquote
  else if (n =? 92)%N then "\\"
  else if (n =? 10)%N then "\n"
  else if (n =? 13)%N then "\r"
  else if (n =? 9)%N then "\t"
  else if (n =? 8)%N then "\b"
  else if (n =? 12)%N then "\f"
  else if ((32 <=? n) && (n <=? 126))%N then String c EmptyString
  else "\u00" +:+ String (hex_digit (n / 16))
                         (String (hex_digit (n mod 16)) EmptyString).

Fixpoint escape (s : string) : string :=
  match s with
  | EmptyString => EmptyString
  | String c r => escape_char c +:+ escape r
  end.

Definition quote (s : string) : string := dquote +:+ escape s +:+ dquote.

Fixpoint spaces (n : nat) : string :=
  match n with O => EmptyString | S n => String " " (spaces n) end.

Fixpoint join (sep : string) (l : list string) : string :=
  match l with
  | [] => EmptyString
  | [x] => x
  | x :: r => x +:+ sep +:+ join sep r
  end.

Definition block (opening closing : string) (indent : nat)
    (items : list string) : string :=
  match items with
  | [] => opening +:+ closing
  | _ =>
      opening +:+ newline +:+ spaces (indent + 2) +:+
      join ("," +:+ newline +:+ spaces (indent + 2)) items +:+
      newline +:+ spaces indent +:+ closing
  end.

Fixpoint dumps_at (indent : nat) (v : json) : string :=
  match v with
  | JNull => "null"
  | JBool true => "true"
  | JBool false => "false"
  | JInt z => pretty z
  | JStr s => quote s
  | JList l => block "[" "]" indent (map (dumps_at (indent + 2)) l)
  | JDict d =>
      block "{" "}" indent
        (map (fun kv => quote (fst kv) +:+ ": " +:+ dumps_at (indent + 2) (snd kv)) d)
  end.

Definition dumps (v : json) : string := dumps_at 0 v.

(** *** The reader *)

Definition is_ws (c : ascii) : bool :=
  let n := PyStr.code c in
  ((n =? 32) || (n =? 9) || (n =? 10) || (n =? 13))%N.

Fixpoint skip_ws (s : string) : string :=
  match s with
  | String c r => if is_ws c then skip_ws r else s
  | EmptyString => s
  end.

Fixpoint drop_prefix (lit s : string) : option string :=
  match lit, s with
  | EmptyString, _ => Some s
  | String a l, String b r => if Ascii.eqb a b then drop_prefix l r else None
  | _, _ => None
  end.

Definition digit (c : ascii) : option Z :=
  let n := PyStr.code c in
  if ((48 <=? n) && (n <=? 57))%N then Some (Z.of_N (n - 48)) else None.

Fixpoint read_digits (acc : Z) (s : string) : Z * string :=
  match s with
  | String c r =>
      match digit c with
      | Some d => read_digits (10 * acc + d) r
      | None => (acc, s)
      end
  | EmptyString => (acc, s)
  end.

(** A fraction or an exponent makes the number a float: not read. *)
Definition starts_fraction (s : string) : bool :=
  match s with
  | String c _ =>
      let n := PyStr.code c in ((n =? 46) || (n =? 101) || (n =? 69))%N
  | EmptyString => false
  end.

Definition read_int (s : string) : option (Z * string) :=
  let '(sign, s1) :=
    match s with
    | String c r => if (PyStr.code c =? 45)%N then (-1, r) else (1, s)
    | EmptyString => (1, s)
    end%Z in
  match s1 with
  | String c r =>
      match digit c with
      | Some d =>
          let '(z, rest) := if (d =? 0)%Z then (0%Z, r) else read_digits d r in
          if starts_fraction rest then None else Some ((sign * z)%Z, rest)
      | None => None
      end
  | EmptyString => None
  end.

Definition hex_value (c : ascii) : option N :=
  let n := PyStr.code c in
  if ((48 <=? n) && (n <=? 57))%N then Some (n - 48)%N
  else if ((97 <=? n) && (n <=? 102))%N then Some (n - 87)%N
  else if ((65 <=? n) && (n <=? 70))%N then Some (n - 55)%N
  else None.

Definition hex4 (a b c d : ascii) : option N :=
  match hex_value a, hex_value b, hex_value c, hex_value d with
  | Some x, Some y, Some z, Some t => Some (((x * 16 + y) * 16 + z) * 16 + t)%N
  | _, _, _, _ => None
  end.

Definition unescape (c : ascii) : option ascii :=
  let n := PyStr.code c in
  if ((n =? 34) || (n =? 92) || (n =? 47))%N then Some c
  else if (n =? 110)%N then Some (ascii_of_N 10)
  else if (n =? 114)%N then Some (ascii_of_N 13)
  else if (n =? 116)%N then Some (ascii_of_N 9)
  else if (n =? 98)%N then Some (ascii_of_N 8)
  else if (n =? 102)%N then Some (ascii_of_N 12)
  else None.

Definition push (c : ascii) (r : option (string * string))
  : option (string * string) :=
  match r with
  | Some (s, rest) => Some (String c s, rest)
  | None => None
  end.

(** a string literal, from behind its opening quote *)
Fixpoint read_string (s : string) : option (string * string) :=
  match s with
  | EmptyString => None
  | String c r =>
      let n := PyStr.code c in
      if (n =? 34)%N then Some (EmptyString, r)
      else if (n =? 92)%N then
        match r with
        | String e r1 =>
            if (PyStr.code e =? 117)%N then
              match r1 with
              | String h1 (String h2 (String h3 (String h4 r2))) =>
                  match hex4 h1 h2 h3 h4 with
                  | Some v =>
                      if (v <? 256)%N then push (ascii_of_N v) (read_string r2)
                      else None
                  | None => None
                  end
              | _ => None
              end
            else
              match unescape e with
              | Some ch => push ch (read_string r1)
              | None => None
              end
        | EmptyString => None
        end
      else if (n <? 32)%N then None
      else push c (read_string r)
  end.

(** [d[k] = v] *)
Fixpoint dict_set (k : string) (v : json) (d : list (string * json))
  : list (string * json) :=
  match d with
  | [] => [(k, v)]
  | (k', v') :: r =>
      if String.eqb k k' then (k, v) :: r else (k', v') :: dict_set k v r
  end.

Fixpoint read_value (fuel : nat) (s : string) : option (json * string) :=
  match fuel with
  | O => None
  | S fuel =>
      match skip_ws s with
      | EmptyString => None
      | String c r as s' =>
          let n := PyStr.code c in
          if (n =? 34)%N then
            match read_string r with
            | Some (str, rest) => Some (JStr str, rest)
            | None => None
            end
          else if (n =? 91)%N then
            match skip_ws r with
            | String c2 r2 =>
                if (PyStr.code c2 =? 93)%N then Some (JList [], r2)
                else match read_items fuel r with
                     | Some (l, rest) => Some (JList l, rest)
                     | None => None
                     end
            | EmptyString => None
            end
          else if (n =? 123)%N then
            match skip_ws r with
            | String c2 r2 =>
                if (PyStr.code c2 =? 125)%N then Some (JDict [], r2)
                else match read_members fuel r with
                     | Some (m, rest) =>
                         Some (JDict (fold_left (fun d kv => dict_set (fst kv) (snd kv) d) m []), rest)
                     | None => None
                     end
            | EmptyString => None
            end
          else
            match drop_prefix "null" s', drop_prefix "true" s',
                  drop_prefix "false" s' with
            | Some rest, _, _ => Some (JNull, rest)
            | _, Some rest, _ => Some (JBool true, rest)
            | _, _, Some rest => Some (JBool false, rest)
            | _, _, _ =>
                match read_int s' with
                | Some (z, rest) => Some (JInt z, rest)
                | None => None
                end
            end
      end
  end
with read_items (fuel : nat) (s : string) : option (list json * string) :=
  match fuel with
  | O => None
  | S fuel =>
      match read_value fuel s with
      | Some (v, rest) =>
          match skip_ws rest with
          | String c r =>
              if (PyStr.code c =? 44)%N then
                match read_items fuel r with
                | Some (l, rest') => Some (v :: l, rest')
                | None => None
                end
              else if (PyStr.code c =? 93)%N then Some ([v], r)
              else None
          | EmptyString => None
          end
      | None => None
      end
  end
with read_members (fuel : nat) (s : string)
  : option (list (string * json) * string) :=
  match fuel with
  | O => None
  | S fuel =>
      match skip_ws s with
      | String q r =>
          if (PyStr.code q =? 34)%N then
            match read_string r with
            | Some (k, rest) =>
                match skip_ws rest with
                | String colon r1 =>
                    if (PyStr.code colon =? 58)%N then
                      match read_value fuel r1 with
                      | Some (v, rest1) =>
                          match skip_ws rest1 with
                          | String c r2 =>
                              if (PyStr.code c =? 44)%N then
                                match read_members fuel r2 with
                                | Some (m, rest') => Some ((k, v) :: m, rest')
                                | None => None
                                end
                              else if (PyStr.code c =? 125)%N
                                   then Some ([(k, v)], r2)
                                   else None
                          | EmptyString => None
                          end
                      | None => None
                      end
                    else None
                | EmptyString => None
                end
            | None => None
            end
          else None
      | EmptyString => None
      end
  end.

Definition loads (s : string) : string + json :=
  match read_value (2 * String.length s + 2) s with
  | Some (v, rest) =>
      match skip_ws rest with
      | EmptyString => inr v
      | _ => inl "Extra data"
      end
  | None => inl "Expecting value"
  end.

(** [repr], exact on strings of printable characters without quotes or
    backslashes *)
Fixpoint repr (v : json) : string :=
  match v with
  | JNull => "None"
  | JBool true => "True"
  | JBool false => "False"
  | JInt z => pretty z
  | JStr s => "'" +:+ s +:+ "'"
  | JList l => "[" +:+ join ", " (map repr l) +:+ "]"
  | JDict d =>
      "{" +:+ join ", " (map (fun kv => "'" +:+ fst kv +:+ "': " +:+ repr (snd kv)) d)
          +:+ "}"
  end.

(** the apostrophes of [s] as double quotes, to write JSON text down *)
Fixpoint q (s : string) : string :=
  match s with
  | EmptyString => EmptyString
  | String c r => String (if (PyStr.code c =? 39)%N then ascii_of_N 34 else c) (q r)
  end.

End RefJson.

Definition reference_runtime : Runtime := {|
  json_loads := RefJson.loads;
  json_dumps := RefJson.dumps;
  py_repr := RefJson.repr;
  uuid4 := fun n => "00000000-0000-4000-8000-" +:+ pretty n;
  now_isoformat := fun n => "2025-01-01T00:00:00." +:+ pretty n;
  strerror_noent := fun p =>
    "[Errno 2] No such file or directory: '" +:+ RefJson.join "/" p +:+ "'"
|}.

(** ** The vocabulary of the statements *)

(** Where [copy2] puts the backup in the world [w]. *)
Definition backup_target (self : TaskStorage) (w : world) : path :=
  if bool_decide (backup_path self ∈ dirs w)
  then backup_path self ++ [name (_file_path self)]
  else backup_path self.

(** The disk of [w'] is the disk of [w]: nothing was written. *)
Definition same_disk (w w' : world) : Prop :=
  files w' = files w ∧ dirs w' = dirs w.

(** A statement that writes nothing. *)
Definition read_only {A} (m : M A) : Prop := ∀ w, same_disk w (snd (m w)).

(** A statement that raises nothing but exceptions in [P]. *)
Definition only_raises {A} (P : exn → Prop) (m : M A) : Prop :=
  ∀ w e w', m w = (Raise e, w') → P e.

(** Some task of the collection has the ID ([t.id == task_id]). *)
Definition has_id (task_id : json) (tasks : list Task) : bool :=
  existsb (fun t => py_eq (id t) task_id) tasks.

(** The world once the new text has been renamed onto the target. *)
Definition renamed (self : TaskStorage) (text : string) (w : world) : world :=
  set_files (<[_file_path self := text]> (delete (temp_path self) (files w))) w.

(** What a call that ends in [save] of [tasks] has done to the disk of
    [w], by its outcome: when it returned, the target holds the text of
    the whole list, as [json.dump] writes it, and no temporary file is
    left; when it raised, it raised the [StorageError] of [save] and every
    file but the temporary one is as it was.  The directories are the
    same. *)
Definition saved_as `{Runtime} (self : TaskStorage) (tasks : list Task)
    (w : world) (r : outcome unit * world) : Prop :=
  match r with
  | (Return _, w') =>
      files w' !! _file_path self
      = Some (json_dumps (JList (map to_dict tasks)))
      ∧ files w' !! temp_path self = None
      ∧ dirs w' = dirs w
  | (Raise e, w') =>
      (∃ msg, e = StorageError ("Failed to save tasks: " +:+ msg))
      ∧ (∀ p, p ≠ temp_path self → files w' !! p = files w !! p)
      ∧ dirs w' = dirs w
  end.

(** The exceptions that [Task.from_dict] raises. *)
Definition from_record (e : exn) : Prop :=
  match e with
  | KeyError _ | ValueError _ | TypeError | AttributeError => True
  | _ => False
  end.

(** [priority_str] is one of the three that [__post_init__] knows. *)
Definition known_priority (s : string) : bool :=
  let priority_str := PyStr.lower s in
  String.eqb priority_str "high" || String.eqb priority_str "medium"
  || String.eqb priority_str "low".

(** [status_str] is one of the two that [__post_init__] knows. *)
Definition known_status (s : string) : bool :=
  let status_str := PyStr.lower s in
  String.eqb status_str "active" || String.eqb status_str "completed".

(** The [priority] of the record, if it is a string, is a known one. *)
Definition priority_accepted (d : list (string * json)) : bool :=
  match dict_get "priority" d with
  | Some (JStr s) => known_priority s
  | _ => true
  end.

Definition is_str (v : json) : bool :=
  match v with JStr _ => true | _ => false end.

Definition is_optional_str (v : json) : bool :=
  match v with JStr _ | JNull => true | _ => false end.

Definition is_digit (c : ascii) : bool :=
  ((48 <=? PyStr.code c) && (PyStr.code c <=? 57))%N.

Definition is_date (s : string) : bool :=
  match s with
  | String y1 (String y2 (String y3 (String y4 (String "-" (String m1
      (String m2 (String "-" (String d1 (String d2 EmptyString))))))))) =>
      forallb is_digit [y1; y2; y3; y4; m1; m2; d1; d2]
  | _ => false
  end.

(** The data model of a task: the attributes have the types that the
    dataclass declares, the title is not blank, a due date is written
    YYYY-MM-DD. *)
Definition valid_task (t : Task) : bool :=
  match title t with
  | JStr s => negb (String.eqb (PyStr.strip s) EmptyString)
  | _ => false
  end
  && is_optional_str (description t)
  && match priority t with PriorityOf _ => true | PriorityRaw _ => false end
  && match due_date t with
     | JStr s => is_date s
     | JNull => true
     | _ => false
     end
  && match status t with StatusOf _ => true | StatusRaw _ => false end
  && is_str (id t)
  && is_str (created_at t)
  && is_optional_str (completed_at t).

(** The title is as [__post_init__] leaves a title: no white space at its
    ends. *)
Definition title_stripped (t : Task) : bool :=
  match title t with
  | JStr s => String.eqb (PyStr.strip s) s
  | _ => true
  end.

(** The task with its title as [__post_init__] leaves it. *)
Definition strip_title (t : Task) : Task :=
  {| title := match title t with
              | JStr s => JStr (PyStr.strip s)
              | v => v
              end;
     description := description t; priority := priority t;
     due_date := due_date t; status := status t; id := id t;
     created_at := created_at t; completed_at := completed_at t |}.

(** Something is at the path: [Path.exists()]. *)
Definition present (p : path) (w : world) : bool :=
  bool_decide (is_Some (files w !! p) ∨ p ∈ dirs w).

(** ** Worlds, tasks and fault plans to run the store on *)

Definition example_path : path := ["data"; "tasks.json"].

Definition example_store : TaskStorage := {| _file_path := example_path |}.

Definition empty_world : world := mkWorld ∅ ∅ 0.

(** The target file holds [content]. *)
Definition world_with (content : string) : world :=
  mkWorld {[ example_path := content ]} {[ ["data"] ]} 0.

(** The target file holds what [save] writes for [tasks]. *)
Definition stored (tasks : list Task) : world :=
  world_with (RefJson.dumps (JList (map to_dict tasks))).

Definition task_a : Task :=
  {| title := JStr "X"; description := JNull; priority := PriorityOf HIGH;
     due_date := JNull; status := StatusOf ACTIVE; id := JStr "a";
     created_at := JStr "2025-01-01T00:00:00"; completed_at := JNull |}.

Definition task_b : Task :=
  {| title := JStr "Second"; description := JStr "more";
     priority := PriorityOf LOW; due_date := JStr "2026-12-31";
     status := StatusOf COMPLETED; id := JStr "b";
     created_at := JStr "2025-01-02T00:00:00";
     completed_at := JStr "2025-01-03T00:00:00" |}.

(** [task_b] with another title *)
Definition task_b_renamed : Task :=
  {| title := JStr "Y"; description := JStr "more";
     priority := PriorityOf LOW; due_date := JStr "2026-12-31";
     status := StatusOf COMPLETED; id := JStr "b";
     created_at := JStr "2025-01-02T00:00:00";
     completed_at := JStr "2025-01-03T00:00:00" |}.

(** [task_a] after [task.title = " X"] *)
Definition padded_task : Task :=
  {| title := JStr " X"; description := JNull; priority := PriorityOf HIGH;
     due_date := JNull; status := StatusOf ACTIVE; id := JStr "a";
     created_at := JStr "2025-01-01T00:00:00"; completed_at := JNull |}.

Definition rename_fails : plan :=
  fun op =>
    match op with
    | OpRename => Some {| fault_msg := "Simulated failure"; fault_reached := None |}
    | _ => None
    end.

Definition copy_fails : plan :=
  fun op =>
    match op with
    | OpCopy => Some {| fault_msg := "[Errno 28] No space left on device";
                        fault_reached := Some 5 |}
    | _ => None
    end.

(** A record with an unknown priority, then a record without a title. *)
Definition unknown_priority_first : string :=
  RefJson.q "[{'title': 'a', 'priority': 'urgent'}, {'id': 'x'}]".

(** A record with a title, then a record without one. *)
Definition missing_title_second : string :=
  RefJson.q "[{'title': 'a', 'id': 'k', 'created_at': 't'}, {'id': 'x'}]".

(** A record whose priority is written in capitals. *)
Definition capital_priority : string :=
  RefJson.q "[{'title': 'a', 'priority': 'HIGH', 'id': 'k', 'created_at': 't'}]".

Definition unknown_priority : string :=
  RefJson.q "[{'title': 'a', 'priority': 'urgent'}]".

(** ** The steps of [Task.__post_init__] *)

Section PostInitSteps.
Context `{Runtime}.

Definition init_id (self : Task) : M json :=
  match id self with
  | JNull => s <- draw uuid4 ;; ret (JStr s)
  | v => ret v
  end.

Definition init_created_at (self : Task) : M json :=
  match created_at self with
  | JNull => s <- draw now_isoformat ;; ret (JStr s)
  | v => ret v
  end.

Definition init_title (self : Task) : json :=
  match title self with
  | JStr s => JStr (PyStr.strip s)
  | v => v
  end.

Definition init_priority (self : Task) : M priority_attr :=
  match priority self with
  | PriorityRaw (JStr s) =>
      let priority_str := PyStr.lower s in
      if String.eqb priority_str "high" then ret (PriorityOf HIGH)
      else if String.eqb priority_str "medium" then ret (PriorityOf MEDIUM)
      else if String.eqb priority_str "low" then ret (PriorityOf LOW)
      else raise (ValueError ("Invalid priority: " +:+ s))
  | p => ret p
  end.

Definition init_status (self : Task) : M status_attr :=
  match status self with
  | StatusRaw (JStr s) =>
      let status_str := PyStr.lower s in
      if String.eqb status_str "active" then ret (StatusOf ACTIVE)
      else if String.eqb status_str "completed" then ret (StatusOf COMPLETED)
      else raise (ValueError ("Invalid status: " +:+ s))
  | s => ret s
  end.

End PostInitSteps.

(** ** More vocabulary *)

Definition is_none (v : json) : bool :=
  match v with JNull => true | _ => false end.

(** A task as [__post_init__] leaves one: an [id] and a [created_at], a
    stripped title, no priority or status that is still a string. *)
Definition normalised (t : Task) : bool :=
  negb (is_none (id t)) && negb (is_none (created_at t)) && title_stripped t
  && match priority t with PriorityRaw (JStr _) => false | _ => true end
  && match status t with StatusRaw (JStr _) => false | _ => true end.

(** A statement that returns nothing but values in [P]. *)
Definition only_returns {A} (P : A → Prop) (m : M A) : Prop :=
  ∀ w a w', m w = (Return a, w') → P a.

(** The [status] of the record, if it is a string, is a known one. *)
Definition status_accepted (d : list (string * json)) : bool :=
  match dict_get "status" d with
  | Some (JStr s) => known_status s
  | _ => true
  end.

(** An element of the array that [Task.from_dict] turns into a task: an
    object with a title whose priority and status, where they are strings,
    are known ones. *)
Definition loadable (data : json) : bool :=
  match data with
  | JDict d => dict_has "title" d && priority_accepted d && status_accepted d
  | _ => false
  end.

(** ** models.py: the methods of [Task] that change or check a task *)

(** The truth value of a datum, as [not x] and [x or y] take it *)
Definition truthy (v : json) : bool :=
  match v with
  | JNull => false
  | JBool b => b
  | JInt z => negb (Z.eqb z 0)
  | JStr s => negb (String.eqb s EmptyString)
  | JList l => match l with [] => false | _ => true end
  | JDict d => match d with [] => false | _ => true end
  end.

(** [len(x)]; [None] of the option stands for the [TypeError] *)
Definition py_len (v : json) : option nat :=
  match v with
  | JStr s => Some (String.length s)
  | JList l => Some (length l)
  | JDict d => Some (length d)
  | _ => None
  end.

(** A date: year, month, day *)
Record date := mkDate { year : Z; month : Z; day : Z }.

Definition date_ltb (a b : date) : bool :=
  (year a <? year b)%Z
  || ((year a =? year b)%Z
      && ((month a <? month b)%Z
          || ((month a =? month b)%Z && (day a <? day b)%Z))).

Definition is_leap (y : Z) : bool :=
  ((y mod 4 =? 0) && (negb (y mod 100 =? 0) || (y mod 400 =? 0)))%Z.

Definition days_in_month (y m : Z) : Z :=
  if (m =? 2)%Z then (if is_leap y then 29 else 28)
  else if ((m =? 4) || (m =? 6) || (m =? 9) || (m =? 11))%Z then 30
  else 31.

(** [datetime.strptime(s, "%Y-%m-%d")], the date of it; [None] stands for
    the [ValueError].  Four digits; a hyphen; the month as [1[0-2]],
    [0[1-9]] or [[1-9]]; a hyphen; the day as [3[01]], [[12]\d], [0[1-9]],
    [[1-9]] or a space and [[1-9]]; nothing more; and the date exists. *)
Module Strptime.

Definition digit (c : ascii) : option Z :=
  let n := PyStr.code c in
  if ((48 <=? n) && (n <=? 57))%N then Some (Z.of_N (n - 48)) else None.

Definition hyphen (c : ascii) : bool := (PyStr.code c =? 45)%N.

(** the month, and what follows it *)
Definition read_month (s : string) : option (Z * string) :=
  match s with
  | String a r =>
      match digit a with
      | Some 1%Z =>
          match r with
          | String b r' =>
              match digit b with
              | Some d => if (d <=? 2)%Z then Some (10 + d, r')%Z
                          else Some (1%Z, r)
              | None => Some (1%Z, r)
              end
          | EmptyString => Some (1%Z, r)
          end
      | Some 0%Z =>
          match r with
          | String b r' =>
              match digit b with
              | Some d => if (1 <=? d)%Z then Some (d, r') else None
              | None => None
              end
          | EmptyString => None
          end
      | Some d => Some (d, r)
      | None => None
      end
  | EmptyString => None
  end.

(** the day, and what follows it *)
Definition read_day (s : string) : option (Z * string) :=
  match s with
  | String a r =>
      if (PyStr.code a =? 32)%N then
        match r with
        | String b r' =>
            match digit b with
            | Some d => if (1 <=? d)%Z then Some (d, r') else None
            | None => None
            end
        | EmptyString => None
        end
      else
        match digit a with
        | Some 0%Z =>
            match r with
            | String b r' =>
                match digit b with
                | Some d => if (1 <=? d)%Z then Some (d, r') else None
                | None => None
                end
            | EmptyString => None
            end
        | Some d1 =>
            match r with
            | String b r' =>
                match digit b with
                | Some d2 =>
                    if ((d1 <=? 2) || ((d1 =? 3) && (d2 <=? 1)))%Z
                    then Some (10 * d1 + d2, r')%Z
                    else Some (d1, r)
                | None => Some (d1, r)
                end
            | EmptyString => Some (d1, r)
            end
        | None => None
        end
  | EmptyString => None
  end.

Definition ymd (s : string) : option date :=
  match s with
  | String y1 (String y2 (String y3 (String y4 (String h1 r1)))) =>
      match digit y1, digit y2, digit y3, digit y4 with
      | Some a, Some b, Some c, Some d =>
          if hyphen h1 then
            match read_month r1 with
            | Some (m, String h2 r2) =>
                if hyphen h2 then
                  match read_day r2 with
                  | Some (dd, EmptyString) =>
                      let y := (((a * 10 + b) * 10 + c) * 10 + d)%Z in
                      if ((1 <=? y) && (dd <=? days_in_month y m))%Z
                      then Some {| year := y; month := m; day := dd |}
                      else None
                  | _ => None
                  end
                else None
            | _ => None
            end
          else None
      | _, _, _, _ => None
      end
  | _ => None
  end.

End Strptime.

(** The calendar of the machine: the date of the [n]-th
    [datetime.now()]. *)
Class Calendar := { today : nat -> date }.

(** ** operations.py *)

(** What an operation raises: [models.ValidationError], or what the store
    and the model raise. *)
Inductive op_exn :=
| ValidationError (msg : string)
| Raised (e : exn).

(** The process: the world, and the module-level variable [_storage]. *)
Record process := mkProcess {
  disk : world;
  _storage : option TaskStorage
}.

Inductive op_outcome (A : Type) :=
| Returned (a : A)
| Failed (e : op_exn).
Arguments Returned {A} a.
Arguments Failed {A} e.

Definition Op (A : Type) : Type := process -> op_outcome A * process.

Definition op_ret {A} (a : A) : Op A := fun s => (Returned a, s).

Definition op_raise {A} (e : op_exn) : Op A := fun s => (Failed e, s).

Definition op_bind {A B} (m : Op A) (k : A -> Op B) : Op B :=
  fun s =>
    match m s with
    | (Returned a, s') => k a s'
    | (Failed e, s') => (Failed e, s')
    end.

(** [try: m  except ...: h e] *)
Definition op_try {A} (m : Op A) (h : op_exn -> Op A) : Op A :=
  fun s =>
    match m s with
    | (Returned a, s') => (Returned a, s')
    | (Failed e, s') => h e s'
    end.

(** A statement of the store or the model, run by the process. *)
Definition lift {A} (m : M A) : Op A :=
  fun s =>
    match m (disk s) with
    | (Return a, w') => (Returned a, mkProcess w' (_storage s))
    | (Raise e, w') => (Failed (Raised e), mkProcess w' (_storage s))
    end.

Notation "x <~ m ;; k" := (op_bind m (fun x => k))
  (at level 100, m at next level, right associativity).
Notation "m ;;~ k" := (op_bind m (fun _ => k))
  (at level 100, right associativity).

Section TaskMethods.
Context `{Runtime} `{Calendar}.

(** [Task.mark_complete] *)
Definition mark_complete (self : Task) : M Task :=
  now <- draw now_isoformat ;;
  ret {| title := title self; description := description self;
         priority := priority self; due_date := due_date self;
         status := StatusOf COMPLETED; id := id self;
         created_at := created_at self; completed_at := JStr now |}.

(** [Task.mark_incomplete] *)
Definition mark_incomplete (self : Task) : Task :=
  {| title := title self; description := description self;
     priority := priority self; due_date := due_date self;
     status := StatusOf ACTIVE; id := id self;
     created_at := created_at self; completed_at := JNull |}.

(** [datetime.now()], its date: one more value drawn *)
Definition draw_today : Op date :=
  fun s =>
    (Returned (today (tick (disk s))),
     mkProcess (mkWorld (files (disk s)) (dirs (disk s)) (S (tick (disk s))))
               (_storage s)).

(** [Task.validate] *)
Definition validate (self : Task) : Op unit :=
  (* Validate title *)
  blank <~ (if negb (truthy (title self)) then op_ret true
            else match title self with
                 | JStr s => op_ret (negb (truthy (JStr (PyStr.strip s))))
                 | _ => op_raise (Raised AttributeError)
                 end) ;;
  if (blank : bool)
  then op_raise (ValidationError "Task title cannot be empty")
  else
    match py_len (title self) with
    | None => op_raise (Raised TypeError)
    | Some n =>
        if 200 <? n
        then op_raise (ValidationError "Task title cannot exceed 200 characters")
        else
          (* Validate description *)
          too_long <~ match description self with
                      | JNull => op_ret false
                      | v => match py_len v with
                             | Some n => op_ret (1000 <? n)
                             | None => op_raise (Raised TypeError)
                             end
                      end ;;
          if (too_long : bool)
          then op_raise (ValidationError
                           "Task description cannot exceed 1000 characters")
          else
            (* Validate due_date *)
            match due_date self with
            | JNull => op_ret tt
            | JStr s =>
                match Strptime.ymd s with
                | Some due_date_obj =>
                    now <~ draw_today ;;
                    (* Check if date is in the past *)
                    if date_ltb due_date_obj now
                    then op_raise (ValidationError
                                     "Invalid due_date: cannot be in the past")
                    else op_ret tt
                | None =>
                    op_raise (ValidationError
                                "Invalid due_date format. Use YYYY-MM-DD")
                end
            | _ => op_raise (Raised TypeError)
            end
    end.

End TaskMethods.

(** [t.status == status] and [t.priority == priority]: a member of an
    enumeration equals itself and nothing else. *)
Definition status_eq (a b : status_attr) : bool :=
  match a, b with
  | StatusOf ACTIVE, StatusOf ACTIVE => true
  | StatusOf COMPLETED, StatusOf COMPLETED => true
  | StatusRaw v, StatusRaw v' => py_eq v v'
  | _, _ => false
  end.

Definition priority_eq (a b : priority_attr) : bool :=
  match a, b with
  | PriorityOf HIGH, PriorityOf HIGH => true
  | PriorityOf MEDIUM, PriorityOf MEDIUM => true
  | PriorityOf LOW, PriorityOf LOW => true
  | PriorityRaw v, PriorityRaw v' => py_eq v v'
  | _, _ => false
  end.

(** What an operation is run with: the home directory, the fault plan of
    the constructor of the default store, and the fault plan of each call
    on the store, by its rank in the operation. *)
Record op_env := mkOpEnv {
  home : path;
  init_plan : plan;
  call_plan : nat -> plan
}.

Section Operations.
Context `{Runtime} `{Calendar}.
Variable env : op_env.

(** [_get_storage] *)
Definition _get_storage : Op TaskStorage :=
  fun s =>
    match _storage s with
    | Some storage => (Returned storage, s)
    | None =>
        (* Default storage location *)
        let storage_path := home env ++ [".task_manager"; "tasks.json"] in
        match __init__ (init_plan env) storage_path (disk s) with
        | (Return storage, w') =>
            (Returned storage, mkProcess w' (Some storage))
        | (Raise e, w') => (Failed (Raised e), mkProcess w' None)
        end
    end.

(** [create_task] *)
Definition create_task (title description : json) (priority : priority_attr)
    (due_date : json) : Op Task :=
  task <~ op_try
            (task <~ lift (__post_init__
                             {| title := title; description := description;
                                priority := priority; due_date := due_date;
                                status := StatusOf ACTIVE; id := JNull;
                                created_at := JNull; completed_at := JNull |}) ;;
             validate task ;;~
             op_ret task)
            (fun e =>
               match e with
               | Raised (ValueError msg) | Raised (JSONDecodeError msg) =>
                   (* Convert ValueError to ValidationError for consistent API *)
                   op_raise (ValidationError msg)
               | _ => op_raise e
               end) ;;
  storage <~ _get_storage ;;
  lift (add (call_plan env 0) storage task) ;;~
  op_ret task.

(** [get_task] *)
Definition get_task (task_id : json) : Op Task :=
  storage <~ _get_storage ;;
  lift (get_by_id (call_plan env 0) storage task_id).

(** [update_task_status] *)
Definition update_task_status (task_id : json) (status : status_attr)
  : Op Task :=
  storage <~ _get_storage ;;
  task <~ lift (get_by_id (call_plan env 0) storage task_id) ;;
  (* Update status using task methods *)
  task <~ (if status_eq status (StatusOf COMPLETED)
           then lift (mark_complete task)
           else op_ret (mark_incomplete task)) ;;
  (* Persist changes *)
  lift (update (call_plan env 1) storage task) ;;~
  op_ret task.

(** [delete_task] *)
Definition delete_task (task_id : json) : Op unit :=
  storage <~ _get_storage ;;
  lift (remove (call_plan env 0) storage task_id).

(** The loop of [clear_completed_tasks]: the [n]-th call on the store
    removes the next completed task. *)
Fixpoint remove_each (storage : TaskStorage) (n : nat) (tasks : list Task)
  : Op unit :=
  match tasks with
  | [] => op_ret tt
  | task :: rest =>
      lift (remove (call_plan env n) storage (id task)) ;;~
      remove_each storage (S n) rest
  end.

(** [clear_completed_tasks] *)
Definition clear_completed_tasks : Op nat :=
  storage <~ _get_storage ;;
  all_tasks <~ lift (get_all (call_plan env 0) storage) ;;
  (* Find all completed tasks *)
  let completed_tasks :=
    List.filter (fun t => status_eq (status t) (StatusOf COMPLETED)) all_tasks in
  (* Remove each completed task *)
  remove_each storage 1 completed_tasks ;;~
  op_ret (length completed_tasks).

End Operations.

(** ** Vocabulary for the operations *)

(** The paths that the store writes: the target, the temporary file and
    the backup. *)
Definition store_paths (self : TaskStorage) (w : world) : list path :=
  [_file_path self; temp_path self; backup_target self w].

(** The world [w'] is [w] but for the files of the store. *)
Definition same_but_store (self : TaskStorage) (w w' : world) : Prop :=
  (∀ p, p ∉ store_paths self w → files w' !! p = files w !! p)
  ∧ dirs w' = dirs w.

(** An operation that leaves the module-level variable as it is once it is
    set. *)
Definition keeps_handle {A} (m : Op A) : Prop :=
  ∀ s storage, _storage s = Some storage → _storage (snd (m s)) = Some storage.

Section OperationsVocabulary.
Context `{Runtime}.

(** The plan lets the store read its file and write it: nothing of the
    read, the open, the dump and the rename is refused.  (The directory,
    the backup and the removal of the temporary file may still be.) *)
Definition goes_through (pl : plan) : Prop :=
  pl OpReadText = None ∧ pl OpOpen = None ∧ pl OpDump = None
  ∧ pl OpRename = None.

(** [json.loads] reads back what [json.dump] writes for the tasks. *)
Definition reads_back (tasks : list Task) : Prop :=
  json_loads (json_dumps (JList (map to_dict tasks)))
  = inr (JList (map to_dict tasks)).

(** The file of the store holds the tasks, as [save] writes them, and
    they are tasks as [__post_init__] leaves them. *)
Definition holds (self : TaskStorage) (tasks : list Task) (w : world) : Prop :=
  files w !! _file_path self = Some (json_dumps (JList (map to_dict tasks)))
  ∧ reads_back tasks
  ∧ Forall (fun t => normalised t = true) tasks.

End OperationsVocabulary.

(** An operation that writes nothing and leaves the module-level variable
    as it is. *)
Definition quiet {A} (m : Op A) : Prop :=
  ∀ s, same_disk (disk s) (disk (snd (m s)))
       ∧ _storage (snd (m s)) = _storage s.

(** The tasks but those that have the ID of one of [gone] *)
Definition without (gone : list Task) (tasks : list Task) : list Task :=
  List.filter (fun t => forallb (fun c => py_ne (id t) (id c)) gone) tasks.

(** The priority is not a string that [__post_init__] refuses. *)
Definition priority_passes (priority : priority_attr) : bool :=
  match priority with
  | PriorityRaw (JStr p) => known_priority p
  | _ => true
  end.

(** The priority as [__post_init__] leaves one that passes. *)
Definition settled_priority (priority : priority_attr) : priority_attr :=
  match priority with
  | PriorityRaw (JStr s) =>
      let priority_str := PyStr.lower s in
      if String.eqb priority_str "high" then PriorityOf HIGH
      else if String.eqb priority_str "medium" then PriorityOf MEDIUM
      else PriorityOf LOW
  | p => p
  end.

(** The description is [None] or a string of at most 1000 characters. *)
Definition description_passes (description : json) : bool :=
  match description with
  | JNull => true
  | JStr d => String.length d <=? 1000
  | _ => false
  end.

(** The due date is [None], or a string that [strptime] reads as a date
    that is not before [now]. *)
Definition due_date_passes (due_date : json) (now : date) : bool :=
  match due_date with
  | JNull => true
  | JStr d =>
      match Strptime.ymd d with
      | Some due_date_obj => negb (date_ltb due_date_obj now)
      | None => false
      end
  | _ => false
  end.

Section NewTask.
Context `{Runtime}.

(** The task that [create_task] builds when [n] values have been drawn. *)
Definition new_task (title : string) (description : json)
    (priority : priority_attr) (due_date : json) (n : nat) : Task :=
  {| title := JStr (PyStr.strip title); description := description;
     priority := settled_priority priority; due_date := due_date;
     status := StatusOf ACTIVE; id := JStr (uuid4 n);
     created_at := JStr (now_isoformat (S n)); completed_at := JNull |}.

End NewTask.

(** The title, stripped, is not empty and has at most 200 characters. *)
Definition title_passes (title : string) : bool :=
  negb (String.eqb (PyStr.strip title) EmptyString)
  && (String.length (PyStr.strip title) <=? 200).

(** The task with another status and completion time: what
    [mark_complete] and [mark_incomplete] leave. *)
Definition with_status (self : Task) (status : status_attr)
    (completed_at : json) : Task :=
  {| title := title self; description := description self;
     priority := priority self; due_date := due_date self;
     status := status; id := id self;
     created_at := created_at self; completed_at := completed_at |}.

(** ** The operations at work: an environment, a calendar, a process *)

Definition example_env : op_env :=
  {| home := ["home"; "user"]; init_plan := no_faults;
     call_plan := fun _ => no_faults |}.

Definition example_calendar : Calendar :=
  {| today := fun _ => {| year := 2026; month := 6; day := 15 |} |}.

(** The process whose store is [example_store], on the world [w] *)
Definition running (w : world) : process :=
  {| disk := w; _storage := Some example_store |}.

(** The process [s] once [n] more values have been drawn *)
Definition later (n : nat) (s : process) : process :=
  {| disk := mkWorld (files (disk s)) (dirs (disk s)) (n + tick (disk s));
     _storage := _storage s |}.

Definition task_c : Task :=
  {| title := JStr "Third"; description := JNull;
     priority := PriorityOf MEDIUM; due_date := JNull;
     status := StatusOf COMPLETED; id := JStr "c";
     created_at := JStr "2025-01-04T00:00:00";
     completed_at := JStr "2025-01-05T00:00:00" |}.

(** ** operations.py: [list_tasks] *)

(** [a < b] on data; [None] stands for the [TypeError] of two operands
    that have no order: strings by their code points, numbers by their
    values ([bool] is a subclass of [int]), lists by their first elements
    that are not equal, the shorter one first when there is none. *)
Fixpoint py_lt (a b : json) : option bool :=
  match a, b with
  | JStr s, JStr t => Some (String.ltb s t)
  | JList l, JList m =>
      (fix elems (l m : list json) : option bool :=
         match l, m with
         | [], [] => Some false
         | [], _ :: _ => Some true
         | _ :: _, [] => Some false
         | x :: l', y :: m' => if py_eq x y then elems l' m' else py_lt x y
         end) l m
  | JBool x, JBool y => Some (Z.b2z x <? Z.b2z y)%Z
  | JBool x, JInt y => Some (Z.b2z x <? y)%Z
  | JInt x, JBool y => Some (x <? Z.b2z y)%Z
  | JInt x, JInt y => Some (x <? y)%Z
  | _, _ => None
  end.

(** [a < b] on the pairs [(t.due_date is None, t.due_date or "")]: the
    first items that are not equal decide. *)
Definition pair_lt (a b : bool * json) : option bool :=
  if Bool.eqb (fst a) (fst b)
  then if py_eq (snd a) (snd b) then Some false else py_lt (snd a) (snd b)
  else Some (negb (fst a) && fst b).

(** [a < b] on the values of [priority_order] *)
Definition int_lt (a b : Z) : option bool := Some (a <? b)%Z.

Section Sort.
Context {K A : Type}.
Variable lt : K -> K -> option bool.
Variable reverse : bool.

(** Whether [y] has to come before [x], which was before it in the list:
    its key is smaller, or greater when the order is reversed. *)
Definition goes_before (y x : K * A) : bool :=
  default false (if reverse then lt (fst x) (fst y) else lt (fst y) (fst x)).

Fixpoint insert_sorted (x : K * A) (ys : list (K * A)) : list (K * A) :=
  match ys with
  | [] => [x]
  | y :: ys' =>
      if goes_before y x then y :: insert_sorted x ys' else x :: y :: ys'
  end.

(** Every two keys have an order. *)
Fixpoint comparable (ks : list K) : bool :=
  match ks with
  | [] => true
  | k :: r =>
      forallb (fun k' => bool_decide (is_Some (lt k k'))
                         && bool_decide (is_Some (lt k' k))) r
      && comparable r
  end.

(** [list.sort(key=..., reverse=...)] on the items with their keys: the
    sort is stable, also when it is reversed; [None] stands for the
    [TypeError] of a comparison.  A list with two keys that have no order
    has no sorted form, and the sort comes to compare them. *)
Definition py_sort (keyed : list (K * A)) : option (list A) :=
  if comparable (map fst keyed)
  then Some (map snd (foldr insert_sorted [] keyed))
  else None.

End Sort.

Section ListTasks.
Context `{Runtime} `{Calendar}.
Variable env : op_env.

(** [priority_order[t.priority]]: a key that is not in the dict is a
    [KeyError], which carries the key (as [repr] shows it, when it is no
    string); a list or a dict as key is a [TypeError]. *)
Definition priority_order (priority : priority_attr) : M Z :=
  match priority with
  | PriorityOf HIGH => ret 0%Z
  | PriorityOf MEDIUM => ret 1%Z
  | PriorityOf LOW => ret 2%Z
  | PriorityRaw (JList _) | PriorityRaw (JDict _) => raise TypeError
  | PriorityRaw (JStr s) => raise (KeyError s)
  | PriorityRaw v => raise (KeyError (py_repr v))
  end.

(** The end of a sort: the list, or the [TypeError] *)
Definition sorted (tasks : option (list Task)) : Op (list Task) :=
  match tasks with
  | Some tasks => op_ret tasks
  | None => op_raise (Raised TypeError)
  end.

(** [list_tasks] *)
Definition list_tasks (status_filter : option status_attr)
    (priority_filter : option priority_attr) (sort_by : json)
  : Op (list Task) :=
  storage <~ _get_storage env ;;
  tasks <~ lift (get_all (call_plan env 0) storage) ;;
  (* Apply filters *)
  let tasks :=
    match status_filter with
    | Some status_filter =>
        List.filter (fun t => status_eq (status t) status_filter) tasks
    | None => tasks
    end in
  let tasks :=
    match priority_filter with
    | Some priority_filter =>
        List.filter (fun t => priority_eq (priority t) priority_filter) tasks
    | None => tasks
    end in
  (* Apply sorting *)
  if py_eq sort_by (JStr "created_at")
  then
    (* Sort by created_at descending (newest first) *)
    sorted (py_sort py_lt true (map (fun t => (created_at t, t)) tasks))
  else if py_eq sort_by (JStr "due_date")
  then
    (* Sort by due_date ascending (earliest first), None values last *)
    sorted (py_sort pair_lt false
              (map (fun t => ((is_none (due_date t),
                               if truthy (due_date t) then due_date t
                               else JStr EmptyString), t)) tasks))
  else if py_eq sort_by (JStr "priority")
  then
    (* Sort by priority: HIGH, MEDIUM, LOW *)
    keyed <~ lift (for_each (fun t => k <- priority_order (priority t) ;;
                                      ret (k, t)) tasks) ;;
    sorted (py_sort int_lt false keyed)
  else op_ret tasks.

End ListTasks.

(** The tasks that the filters of [list_tasks] let through *)
Definition chosen (status_filter : option status_attr)
    (priority_filter : option priority_attr) (tasks : list Task) : list Task :=
  let tasks :=
    match status_filter with
    | Some status_filter =>
        List.filter (fun t => status_eq (status t) status_filter) tasks
    | None => tasks
    end in
  match priority_filter with
  | Some priority_filter =>
      List.filter (fun t => priority_eq (priority t) priority_filter) tasks
  | None => tasks
  end.

(** The place of the priority of the task in the order HIGH, MEDIUM, LOW
    (0 when it is no member) *)
Definition priority_rank (t : Task) : Z :=
  match priority t with
  | PriorityOf HIGH => 0
  | PriorityOf MEDIUM => 1
  | PriorityOf LOW => 2
  | PriorityRaw _ => 0
  end.

(** The priority of the task is a member of the enumeration. *)
Definition member_priority (t : Task) : bool :=
  match priority t with PriorityOf _ => true | PriorityRaw _ => false end.

(** The order by due date: a task without due date is before no task with
    one, and of two due dates that are strings the later is not first. *)
Definition due_order (a b : Task) : Prop :=
  match due_date a, due_date b with
  | JNull, JNull => True
  | JNull, _ => False
  | JStr x, JStr y => String.ltb y x = false
  | _, _ => True
  end.

(** * Properties *)

(** ** Paths: the temporary and the backup file are siblings of the target *)

Lemma parent_name (p : path) : p ≠ [] → p = parent p ++ [name p].
Proof.
  intros Hp. unfold parent, name. by apply app_removelast_last.
Qed.

Lemma length_parent (p : path) : length (parent p) = pred (length p).
Proof.
  unfold parent. induction p as [|a [|b p] IH]; try done.
  change (removelast (a :: b :: p)) with (a :: removelast (b :: p)).
  simpl in *. by rewrite IH.
Qed.

Lemma string_app_length (a b : string) :
  String.length (a +:+ b) = String.length a + String.length b.
Proof. induction a as [|c a IH]; simpl; [done | by rewrite IH]. Qed.

Lemma sibling_ne (p : path) (suffix : string) :
  suffix ≠ EmptyString → parent p ++ [name p +:+ suffix] ≠ p.
Proof.
  intros Hs Heq. destruct (decide (p = [])) as [->|Hp].
  - by destruct (parent []).
  - rewrite (parent_name p Hp) in Heq at 3.
    apply app_inv_head in Heq. injection Heq as Heq.
    apply (f_equal String.length) in Heq. rewrite string_app_length in Heq.
    destruct suffix; [done | simpl in Heq; lia].
Qed.

Lemma siblings_ne (p : path) (s1 s2 : string) :
  s1 ≠ s2 → parent p ++ [name p +:+ s1] ≠ parent p ++ [name p +:+ s2].
Proof.
  intros Hs Heq. apply app_inv_head in Heq. injection Heq as Heq.
  apply Hs. induction (name p) as [|c n IH]; simpl in Heq; [done|].
  injection Heq as Heq. by apply IH.
Qed.

Lemma temp_path_ne self : temp_path self ≠ _file_path self.
Proof. by apply sibling_ne. Qed.

Lemma backup_path_ne self : backup_path self ≠ _file_path self.
Proof. by apply sibling_ne. Qed.

Lemma temp_backup_ne self : temp_path self ≠ backup_path self.
Proof. by apply siblings_ne. Qed.

Lemma length_backup_path self :
  length (backup_path self) = S (length (parent (_file_path self))).
Proof. unfold backup_path. rewrite length_app. simpl. lia. Qed.

Lemma backup_target_ne self w : backup_target self w ≠ _file_path self.
Proof.
  unfold backup_target. case_bool_decide; [|apply backup_path_ne].
  intros Heq. apply (f_equal length) in Heq.
  rewrite length_app, length_backup_path, length_parent in Heq.
  simpl in Heq. lia.
Qed.

Lemma ancestors_spec (p a : path) :
  a ∈ ancestors p ↔ ∃ n, 1 ≤ n ≤ length p ∧ a = take n p.
Proof.
  unfold ancestors. rewrite list_elem_of_fmap. split.
  - intros (n & -> & Hn). apply elem_of_seq in Hn. exists n. split; [lia|done].
  - intros (n & Hn & ->). exists n. split; [done|]. apply elem_of_seq. lia.
Qed.

(** The target is not one of the directories that [__init__] makes. *)
Lemma target_not_ancestor (p : path) : p ∉ ancestors (parent p).
Proof.
  rewrite ancestors_spec. intros (n & Hn & Heq).
  apply (f_equal length) in Heq. rewrite length_take, length_parent in Heq.
  rewrite length_parent in Hn. lia.
Qed.

(** ** Reading writes nothing *)

Lemma same_disk_refl w : same_disk w w.
Proof. by split. Qed.

Lemma same_disk_trans w1 w2 w3 :
  same_disk w1 w2 → same_disk w2 w3 → same_disk w1 w3.
Proof. intros [? ?] [? ?]. split; congruence. Qed.

Lemma read_only_ret {A} (a : A) : read_only (ret a).
Proof. intros w. apply same_disk_refl. Qed.

Lemma read_only_raise {A} (e : exn) : read_only (raise (A:=A) e).
Proof. intros w. apply same_disk_refl. Qed.

Lemma read_only_bind {A B} (m : M A) (k : A → M B) :
  read_only m → (∀ a, read_only (k a)) → read_only (bind m k).
Proof.
  intros Hm Hk w. unfold bind. specialize (Hm w).
  destruct (m w) as [[a|e] w1]; simpl in *; [|done].
  eapply same_disk_trans; [exact Hm | apply Hk].
Qed.

Lemma read_only_try_except {A} (m : M A) (h : exn → M A) :
  read_only m → (∀ e, read_only (h e)) → read_only (try_except m h).
Proof.
  intros Hm Hh w. unfold try_except. specialize (Hm w).
  destruct (m w) as [[a|e] w1]; simpl in *; [done|].
  eapply same_disk_trans; [exact Hm | apply Hh].
Qed.

Lemma read_only_draw source : read_only (draw source).
Proof. intros w. by split. Qed.

Lemma read_only_for_each {A B} (f : A → M B) (xs : list A) :
  (∀ x, read_only (f x)) → read_only (for_each f xs).
Proof.
  intros Hf. induction xs as [|x xs IH]; simpl.
  - apply read_only_ret.
  - apply read_only_bind; [apply Hf|]. intros y.
    apply read_only_bind; [apply IH|]. intros ys. apply read_only_ret.
Qed.

Create HintDb read_only.
#[local] Hint Resolve read_only_ret read_only_raise read_only_draw : read_only.

Ltac read_only_step :=
  first [ apply read_only_bind; [|intros ?]
        | apply read_only_try_except; [|intros ?]
        | apply read_only_for_each; intros ?
        | solve [auto with read_only] ].

Section ReadOnly.
Context `{Runtime}.

Lemma read_only_post_init self : read_only (__post_init__ self).
Proof.
  unfold __post_init__.
  repeat (read_only_step || case_match).
Qed.

Lemma read_only_from_dict data : read_only (from_dict data).
Proof.
  unfold from_dict.
  repeat case_match; auto using read_only_post_init with read_only.
Qed.

Lemma read_only_read_text pl p : read_only (read_text pl p).
Proof.
  unfold read_text. case_match; [auto with read_only|].
  intros w. case_match; apply same_disk_refl.
Qed.

Lemma read_only_load pl self : read_only (load pl self).
Proof.
  unfold load, _validate_schema.
  repeat (read_only_step || case_match
          || apply read_only_read_text || apply read_only_from_dict).
Qed.

End ReadOnly.

(** ** The atomic write *)

Section AtomicWrite.
Context `{Runtime}.

Lemma write_then_rename pl self data w :
  pl OpOpen = None → pl OpDump = None → pl OpRename = None →
  (open_w pl (temp_path self) ;;;
   json_dump pl (JList data) (temp_path self) ;;;
   rename pl (temp_path self) (_file_path self)) w
  = (Return tt, renamed self (json_dumps (JList data)) w).
Proof.
  intros Ho Hd Hr.
  unfold bind, open_w, json_dump, rename, modify_files.
  rewrite Ho, Hd, Hr. simpl. rewrite lookup_insert_eq.
  unfold renamed, set_files. simpl.
  by rewrite !delete_insert_eq.
Qed.

Lemma temp_not_backup_target self w : backup_target self w ≠ temp_path self.
Proof.
  unfold backup_target. case_bool_decide.
  - intros Heq. apply (f_equal length) in Heq.
    rewrite length_app, length_backup_path in Heq.
    unfold temp_path in Heq. rewrite length_app in Heq. simpl in Heq. lia.
  - intros Heq. by apply (temp_backup_ne self).
Qed.

(** The backup step returns, whatever happens to the copy, and touches
    no other file than the backup. *)
Lemma create_backup_returns pl self w :
  ∃ w', _create_backup pl self w = (Return tt, w')
    ∧ (∀ p, p ≠ backup_target self w → files w' !! p = files w !! p)
    ∧ dirs w' = dirs w ∧ tick w' = tick w
    ∧ (∀ text, pl OpCopy = None → files w !! _file_path self = Some text →
       files w' !! backup_target self w = Some text).
Proof.
  unfold _create_backup, try_except, copy2. fold (backup_target self w).
  destruct (files w !! _file_path self) as [text|] eqn:Hsrc; simpl.
  - destruct (pl OpCopy) as [f|] eqn:Hc.
    + unfold bind, partial_write, raise.
      destruct (fault_reached f) as [n|]; simpl.
      * eexists; split; [reflexivity|]. simpl.
        repeat split; [|done]. intros p Hp. by rewrite lookup_insert_ne.
      * eexists; split; [reflexivity|]. repeat split; done.
    + simpl. eexists; split; [reflexivity|]. simpl.
      repeat split.
      * intros p Hp. by rewrite lookup_insert_ne.
      * intros text' _ [= <-]. by rewrite lookup_insert_eq.
  - eexists; split; [reflexivity|]. repeat split; done.
Qed.

Lemma atomic_write_ok pl self data w :
  pl OpOpen = None → pl OpDump = None → pl OpRename = None →
  ∃ w', _atomic_write pl self data w = (Return tt, w')
    ∧ files w' !! _file_path self = Some (json_dumps (JList data))
    ∧ files w' !! temp_path self = None
    ∧ dirs w' = dirs w ∧ tick w' = tick w
    ∧ (pl OpCopy = None →
       files w' !! backup_target self w = Some (json_dumps (JList data))).
Proof.
  intros Ho Hd Hr.
  pose proof (write_then_rename pl self data w Ho Hd Hr) as Hwr.
  set (w1 := renamed self (json_dumps (JList data)) w) in *.
  destruct (create_backup_returns pl self w1)
    as (w' & Hb & Hfiles & Hdirs & Htick & Hcopy).
  assert (Htarget : files w1 !! _file_path self = Some (json_dumps (JList data))).
  { unfold w1, renamed. simpl. by rewrite lookup_insert_eq. }
  exists w'. split.
  - unfold _atomic_write, try_except.
    unfold bind in *.
    destruct (open_w pl (temp_path self) w) as [[[]|e] wa]; [|done].
    destruct (json_dump pl (JList data) (temp_path self) wa) as [[[]|e] wb];
      [|done].
    rewrite Hwr. by rewrite Hb.
  - split; [|split; [|split; [|split]]].
    + rewrite Hfiles; [done|]. apply not_eq_sym, backup_target_ne.
    + rewrite Hfiles by apply not_eq_sym, temp_not_backup_target.
      unfold w1, renamed. simpl.
      rewrite lookup_insert_ne by apply not_eq_sym, temp_path_ne.
      by rewrite lookup_delete_eq.
    + by rewrite Hdirs.
    + by rewrite Htick.
    + intros Hc. by apply Hcopy.
Qed.
End AtomicWrite.

(** ** Saving *)

Section Save.
Context `{Runtime}.

Lemma save_ok pl self tasks w :
  pl OpOpen = None → pl OpDump = None → pl OpRename = None →
  ∃ w', save pl self tasks w = (Return tt, w')
    ∧ files w' !! _file_path self
      = Some (json_dumps (JList (map to_dict tasks)))
    ∧ files w' !! temp_path self = None
    ∧ dirs w' = dirs w ∧ tick w' = tick w
    ∧ (pl OpCopy = None →
       files w' !! backup_target self w
       = Some (json_dumps (JList (map to_dict tasks)))).
Proof.
  intros Ho Hd Hr.
  destruct (atomic_write_ok pl self (map to_dict tasks) w Ho Hd Hr)
    as (w' & Hw & Hrest).
  exists w'. split; [|exact Hrest].
  unfold save, try_except. by rewrite Hw.
Qed.

(** C5.  When the temporary file is written and the rename succeeds,
    [save] returns normally whatever the fault plan says about the copy
    to the backup: a failure of [shutil.copy2] does not reach the caller
    and the target holds the new text.  The copy runs after the rename:
    when it succeeds, the backup holds the new text as well. *)
Theorem save_backup_best_effort pl self tasks w :
  pl OpOpen = None → pl OpDump = None → pl OpRename = None →
  ∃ w', save pl self tasks w = (Return tt, w')
    ∧ files w' !! _file_path self
      = Some (json_dumps (JList (map to_dict tasks)))
    ∧ (pl OpCopy = None →
       files w' !! backup_target self w
       = Some (json_dumps (JList (map to_dict tasks)))).
Proof.
  intros Ho Hd Hr.
  destruct (save_ok pl self tasks w Ho Hd Hr) as (w' & Hs & Ht & _ & _ & _ & Hb).
  by exists w'.
Qed.

(** C1.  When the temporary file has been written and the rename is
    refused, [save] raises [StorageError], the target holds what it held
    before the call (as does every file but the temporary one), and the
    temporary file is gone. *)
Theorem save_rename_failure pl self tasks w f :
  pl OpOpen = None → pl OpDump = None → pl OpRename = Some f →
  pl OpUnlink = None →
  ∃ w', save pl self tasks w
        = (Raise (StorageError ("Failed to save tasks: " +:+ fault_msg f)), w')
    ∧ files w' !! _file_path self = files w !! _file_path self
    ∧ files w' !! temp_path self = None
    ∧ (∀ p, p ≠ temp_path self → files w' !! p = files w !! p)
    ∧ dirs w' = dirs w.
Proof.
  intros Ho Hd Hr Hu.
  exists (set_files (delete (temp_path self) (files w)) w).
  split; [|split; [|split; [|split]]].
  - unfold save, _atomic_write, try_except, bind, open_w, json_dump, rename,
      path_exists, unlink, modify_files, raise.
    rewrite Ho, Hd, Hr, Hu. simpl.
    rewrite lookup_insert_eq. simpl.
    rewrite lookup_insert_eq. simpl.
    unfold set_files. simpl. by rewrite !delete_insert_eq.
  - simpl. rewrite lookup_delete_ne; [done|]. apply temp_path_ne.
  - simpl. by rewrite lookup_delete_eq.
  - intros p Hp. simpl. by rewrite lookup_delete_ne.
  - done.
Qed.

End Save.

(** ** Loading *)

Section Load.
Context `{Runtime}.

Lemma only_raises_ret {A} P (a : A) : only_raises P (ret a).
Proof. by intros w e w' [=]. Qed.

Lemma only_raises_raise {A} (P : exn → Prop) e :
  P e → only_raises P (raise (A:=A) e).
Proof. intros He w e' w' [= <- _]. exact He. Qed.

Lemma only_raises_draw P source : only_raises P (draw source).
Proof. by intros w e w' [=]. Qed.

Lemma only_raises_bind {A B} P (m : M A) (k : A → M B) :
  only_raises P m → (∀ a, only_raises P (k a)) → only_raises P (bind m k).
Proof.
  intros Hm Hk w e w'. unfold bind.
  destruct (m w) as [[a|e1] w1] eqn:Hmw.
  - apply Hk.
  - intros [= <- _]. by eapply Hm.
Qed.

Lemma only_raises_for_each {A B} P (f : A → M B) xs :
  (∀ x, only_raises P (f x)) → only_raises P (for_each f xs).
Proof.
  intros Hf. induction xs as [|x xs IH]; simpl.
  - apply only_raises_ret.
  - apply only_raises_bind; [apply Hf|]. intros y.
    apply only_raises_bind; [apply IH|]. intros ys. apply only_raises_ret.
Qed.

Lemma post_init_raises self : only_raises from_record (__post_init__ self).
Proof.
  unfold __post_init__.
  repeat (first [ apply only_raises_bind; [|intros ?]
                | apply only_raises_ret
                | apply only_raises_draw
                | by apply only_raises_raise
                | case_match ]).
Qed.

Lemma from_dict_raises data : only_raises from_record (from_dict data).
Proof.
  unfold from_dict.
  repeat case_match;
    first [ apply post_init_raises | by apply only_raises_raise ].
Qed.

(** The first element that fails ends the comprehension. *)
Lemma for_each_app_raise {A B} (f : A → M B) pre x post w ys w1 e w2 :
  for_each f pre w = (Return ys, w1) →
  f x w1 = (Raise e, w2) →
  for_each f (pre ++ x :: post) w = (Raise e, w2).
Proof.
  revert w ys. induction pre as [|a pre IH]; intros w ys; simpl.
  - intros [= <- <-] Hx. unfold bind. by rewrite Hx.
  - unfold bind, ret.
    destruct (f a w) as [[y|e1] wa] eqn:Ha; [|by intros [=]].
    destruct (for_each f pre wa) as [[ys'|e2] wb] eqn:Hpre; intros [=]; subst.
    intros Hx. by rewrite (IH _ _ Hpre Hx).
Qed.

(** On a readable file that holds a JSON array, [load] is the
    comprehension over its elements: what [from_dict] raises is none of
    the exceptions that [load] catches. *)
Lemma load_array pl self w content items :
  pl OpReadText = None →
  files w !! _file_path self = Some content →
  json_loads content = inr (JList items) →
  load pl self w = for_each from_dict items w.
Proof.
  intros Hp Hf Hj.
  unfold load, try_except, bind, read_text, _validate_schema, ret.
  rewrite Hp, Hf, Hj.
  destruct (for_each from_dict items w) as [[ts|e] w1] eqn:Hfe; [done|].
  assert (from_record e) as He.
  { eapply (only_raises_for_each from_record from_dict); [|exact Hfe].
    apply from_dict_raises. }
  by destruct e.
Qed.

(** C6.  On a readable file, [load] raises [StorageError] with the
    message "Failed to load tasks: invalid JSON format - ..." when
    [json.loads] rejects the content, and [StorageError] with the message
    "Invalid JSON schema: expected a list of tasks" when the content is
    JSON but not an array; no parse failure has the message of the schema
    failure, so the caller can tell the two apart. *)
Theorem load_parse_and_schema_errors pl self w content :
  pl OpReadText = None →
  files w !! _file_path self = Some content →
  (∀ e, json_loads content = inl e →
     load pl self w
     = (Raise (StorageError
                 ("Failed to load tasks: invalid JSON format - " +:+ e)), w))
  ∧ (∀ data, json_loads content = inr data → (∀ items, data ≠ JList items) →
     load pl self w
     = (Raise (StorageError
                 "Invalid JSON schema: expected a list of tasks"), w))
  ∧ (∀ e, StorageError ("Failed to load tasks: invalid JSON format - " +:+ e)
          ≠ StorageError "Invalid JSON schema: expected a list of tasks").
Proof.
  intros Hp Hf. split; [|split].
  - intros e Hj.
    unfold load, try_except, bind, read_text, raise. by rewrite Hp, Hf, Hj.
  - intros data Hj Hdata.
    unfold load, try_except, bind, read_text, _validate_schema, raise, ret.
    rewrite Hp, Hf, Hj.
    destruct data; try done. by destruct (Hdata l).
  - intros e [=].
Qed.

End Load.


(** ** Records that do not deserialize *)

Section LoadRecords.
Context `{Runtime}.

Lemma from_dict_missing_title d w :
  dict_has "title" d = false →
  from_dict (JDict d) w = (Raise (KeyError "Missing required field: title"), w).
Proof. intros Hd. unfold from_dict. by rewrite Hd. Qed.

Lemma from_dict_invalid_priority d s w :
  dict_has "title" d = true →
  dict_get "priority" d = Some (JStr s) →
  known_priority s = false →
  ∃ w', from_dict (JDict d) w
        = (Raise (ValueError ("Invalid priority: " +:+ s)), w').
Proof.
  intros Ht Hp Hk. unfold known_priority in Hk.
  apply orb_false_iff in Hk as [Hk Hlow].
  apply orb_false_iff in Hk as [Hhigh Hmedium].
  unfold from_dict. rewrite Ht. simpl.
  unfold __post_init__, get_or, bind, draw, ret, raise. simpl.
  rewrite Hp. simpl. rewrite Hhigh, Hmedium, Hlow.
  repeat case_match; simplify_eq; eauto.
Qed.

Lemma from_dict_invalid_status d s w :
  dict_has "title" d = true →
  priority_accepted d = true →
  dict_get "status" d = Some (JStr s) →
  known_status s = false →
  ∃ w', from_dict (JDict d) w
        = (Raise (ValueError ("Invalid status: " +:+ s)), w').
Proof.
  intros Ht Hp Hs Hk. unfold known_status in Hk.
  apply orb_false_iff in Hk as [Hactive Hcompleted].
  unfold from_dict. rewrite Ht. simpl.
  unfold __post_init__, get_or, bind, draw, ret, raise. simpl.
  rewrite Hs. simpl. rewrite Hactive, Hcompleted.
  unfold priority_accepted, known_priority in Hp.
  destruct (dict_get "priority" d) as [[| | |p| |]|]; simpl in *;
    repeat case_match; simplify_eq; eauto.
Qed.

(** C7, amended.  On a readable file that holds a JSON array, when every
    element before a record without the key [title] deserializes, [load]
    raises the [KeyError] of [Task.from_dict], "Missing required field:
    title": [load] neither catches nor wraps it. *)
Theorem load_missing_title pl self w content pre d post ts w1 :
  pl OpReadText = None →
  files w !! _file_path self = Some content →
  json_loads content = inr (JList (pre ++ JDict d :: post)) →
  dict_has "title" d = false →
  for_each from_dict pre w = (Return ts, w1) →
  load pl self w = (Raise (KeyError "Missing required field: title"), w1).
Proof.
  intros Hp Hf Hj Hd Hpre.
  rewrite (load_array pl self w content _ Hp Hf Hj).
  eapply for_each_app_raise; [exact Hpre|].
  by apply from_dict_missing_title.
Qed.

(** C10, amended.  On a readable file that holds a JSON array, when every
    element before a record with a [title] deserializes, and the record's
    [priority] is a string whose lower-case form is none of high, medium,
    low, [load] raises the [ValueError] of [Task.__post_init__], "Invalid
    priority: ..."; when its priority is accepted and its [status] is a
    string whose lower-case form is none of active, completed, [load]
    raises the [ValueError] "Invalid status: ...".  A [ValueError] is none
    of the exceptions of the store and is not the [KeyError] of a missing
    field. *)
Theorem load_invalid_priority_or_status pl self w content pre d post ts w1 :
  pl OpReadText = None →
  files w !! _file_path self = Some content →
  json_loads content = inr (JList (pre ++ JDict d :: post)) →
  dict_has "title" d = true →
  for_each from_dict pre w = (Return ts, w1) →
  (∀ s, dict_get "priority" d = Some (JStr s) → known_priority s = false →
     fst (load pl self w) = Raise (ValueError ("Invalid priority: " +:+ s)))
  ∧ (∀ s, priority_accepted d = true →
       dict_get "status" d = Some (JStr s) → known_status s = false →
       fst (load pl self w) = Raise (ValueError ("Invalid status: " +:+ s)))
  ∧ (∀ m msg, ValueError m ≠ StorageError msg
              ∧ ValueError m ≠ TaskNotFoundError msg
              ∧ ValueError m ≠ KeyError msg).
Proof.
  intros Hp Hf Hj Ht Hpre.
  rewrite (load_array pl self w content _ Hp Hf Hj).
  split; [|split].
  - intros s Hs Hk.
    destruct (from_dict_invalid_priority d s w1 Ht Hs Hk) as [w2 Hr].
    by rewrite (for_each_app_raise from_dict pre _ post w ts w1 _ w2 Hpre Hr).
  - intros s Ha Hs Hk.
    destruct (from_dict_invalid_status d s w1 Ht Ha Hs Hk) as [w2 Hr].
    by rewrite (for_each_app_raise from_dict pre _ post w ts w1 _ w2 Hpre Hr).
  - done.
Qed.

End LoadRecords.

(** ** The operations on one task *)

Lemma find_absent task_id tasks :
  has_id task_id tasks = false →
  List.find (fun task => py_eq (id task) task_id) tasks = None.
Proof.
  unfold has_id. induction tasks as [|t tasks IH]; simpl; [done|].
  intros Hno. apply orb_false_iff in Hno as [Ht Hrest].
  rewrite Ht. by apply IH.
Qed.

Lemma filter_absent task_id tasks :
  has_id task_id tasks = false →
  List.filter (fun t => py_ne (id t) task_id) tasks = tasks.
Proof.
  unfold has_id, py_ne. induction tasks as [|t tasks IH]; simpl; [done|].
  intros Hno. apply orb_false_iff in Hno as [Ht Hrest].
  rewrite Ht. simpl. by rewrite IH.
Qed.

Lemma first_with_id_absent task_id n tasks :
  has_id task_id tasks = false → first_with_id task_id n tasks = None.
Proof.
  unfold has_id. revert n. induction tasks as [|t tasks IH]; intros n; simpl;
    [done|].
  intros Hno. apply orb_false_iff in Hno as [Ht Hrest].
  rewrite Ht. by apply IH.
Qed.

(** The loop of [update] stops at the first task with the ID. *)
Lemma first_with_id_present task_id n tasks :
  has_id task_id tasks = true →
  ∃ i t, first_with_id task_id n tasks = Some (n + i)
    ∧ tasks !! i = Some t
    ∧ py_eq (id t) task_id = true
    ∧ ∀ j t', j < i → tasks !! j = Some t' → py_eq (id t') task_id = false.
Proof.
  unfold has_id. revert n. induction tasks as [|t tasks IH]; intros n; simpl;
    [done|].
  destruct (py_eq (id t) task_id) eqn:Ht; simpl.
  - intros _. exists 0, t. repeat split; [f_equal; lia | done | lia].
  - intros Hrest. destruct (IH (S n) Hrest) as (i & t1 & Hi & Hl & He & Hfirst).
    exists (S i), t1. repeat split; [rewrite Hi; f_equal; lia | done | done |].
    intros [|j] t' Hj Hl'; simpl in Hl'; [by simplify_eq|].
    apply (Hfirst j); [lia | done].
Qed.

(** ** What [save] has done when it ends *)

Section SaveOutcome.
Context `{Runtime}.

(** The clean-up of [_atomic_write] touches the temporary file only. *)
Lemma cleanup_temp_only pl self e w :
  ∃ e' w', (present <- path_exists (temp_path self) ;;
            (if present then unlink pl (temp_path self) else ret tt) ;;;
            raise (A:=unit) e) w = (Raise e', w')
    ∧ (e' = e ∨ ∃ msg, e' = OSError msg)
    ∧ (∀ p, p ≠ temp_path self → files w' !! p = files w !! p)
    ∧ dirs w' = dirs w
    ∧ (pl OpUnlink = None → files w' !! temp_path self = None).
Proof.
  unfold bind, path_exists, unlink, ret, raise.
  case_bool_decide as Hp.
  - destruct (pl OpUnlink) as [f|] eqn:Hu.
    + eexists _, _. split; [done|]. split; [right; eauto|]. done.
    + destruct (files w !! temp_path self) as [text|] eqn:Ht.
      * eexists _, _. split; [done|]. split; [by left|]. simpl.
        split; [intros p Hne; by rewrite lookup_delete_ne|].
        split; [done|]. intros _. by rewrite lookup_delete_eq.
      * eexists _, _. split; [done|]. split; [right; eauto|]. done.
  - eexists _, _. split; [done|]. split; [by left|].
    split; [done|]. split; [done|]. intros _.
    destruct (files w !! temp_path self) eqn:Ht; [|done].
    destruct Hp. left. eauto.
Qed.

Lemma save_failed_write pl self tasks w msg w1 :
  (open_w pl (temp_path self) ;;;
   json_dump pl (JList (map to_dict tasks)) (temp_path self) ;;;
   rename pl (temp_path self) (_file_path self) ;;;
   _create_backup pl self) w = (Raise (OSError msg), w1) →
  (∀ p, p ≠ temp_path self → files w1 !! p = files w !! p) →
  dirs w1 = dirs w →
  ∃ e w', save pl self tasks w = (Raise e, w')
    ∧ (∃ msg', e = StorageError ("Failed to save tasks: " +:+ msg'))
    ∧ (∀ p, p ≠ temp_path self → files w' !! p = files w !! p)
    ∧ (pl OpUnlink = None → files w' !! temp_path self = None)
    ∧ dirs w' = dirs w.
Proof.
  intros Hbody Hfiles1 Hdirs1.
  destruct (cleanup_temp_only pl self (OSError msg) w1)
    as (e' & w' & Hc & He & Hfiles & Hdirs & Htemp).
  unfold save, _atomic_write, try_except. rewrite Hbody, Hc.
  assert (∀ p, p ≠ temp_path self → files w' !! p = files w !! p) as Hf
    by (intros p Hp; rewrite Hfiles by done; by apply Hfiles1).
  destruct He as [->|[msg' ->]]; simpl; eexists _, _;
    (split; [done|]); (split; [eauto|]); (split; [done|]);
    (split; [done|]); congruence.
Qed.

(** [save] under every fault plan: the disk by the outcome, and the
    outcome when nothing of the write is refused. *)
Lemma save_outcome pl self tasks w :
  saved_as self tasks w (save pl self tasks w)
  ∧ (pl OpOpen = None → pl OpDump = None → pl OpRename = None →
     ∃ w', save pl self tasks w = (Return tt, w')).
Proof.
  split.
  - destruct (pl OpOpen) as [fo|] eqn:Ho;
      [|destruct (pl OpDump) as [fd|] eqn:Hd;
        [|destruct (pl OpRename) as [fr|] eqn:Hr]].
    + (* open is refused *)
      destruct (save_failed_write pl self tasks w (fault_msg fo) w)
        as (e & w' & Hs & He & Hf & _ & Hdirs); [|done|done|by rewrite Hs].
      unfold bind, open_w. by rewrite Ho.
    + (* the dump fails *)
      destruct (save_failed_write pl self tasks w (fault_msg fd)
                  (set_files
                     (<[temp_path self :=
                          String.substring 0 (default 0 (fault_reached fd))
                            (json_dumps (JList (map to_dict tasks)))]>
                        (<[temp_path self := EmptyString]> (files w))) w))
        as (e & w' & Hs & He & Hf & _ & Hdirs); [| |done|by rewrite Hs].
      * unfold bind, open_w, json_dump, modify_files. by rewrite Ho, Hd.
      * intros p Hp. simpl. by rewrite !lookup_insert_ne.
    + (* the rename is refused *)
      destruct (save_failed_write pl self tasks w (fault_msg fr)
                  (set_files
                     (<[temp_path self :=
                          json_dumps (JList (map to_dict tasks))]>
                        (<[temp_path self := EmptyString]> (files w))) w))
        as (e & w' & Hs & He & Hf & _ & Hdirs); [| |done|by rewrite Hs].
      * unfold bind, open_w, json_dump, rename, modify_files.
        by rewrite Ho, Hd, Hr.
      * intros p Hp. simpl. by rewrite !lookup_insert_ne.
    + destruct (save_ok pl self tasks w Ho Hd Hr)
        as (w' & Hs & Ht & Htmp & Hdirs & _).
      by rewrite Hs.
  - intros Ho Hd Hr.
    destruct (save_ok pl self tasks w Ho Hd Hr) as (w' & Hs & _).
    by exists w'.
Qed.

(** The same, for a call that first reads and then saves. *)
Lemma saved_after_read pl self tasks w w1 :
  same_disk w w1 →
  saved_as self tasks w (save pl self tasks w1)
  ∧ (pl OpOpen = None → pl OpDump = None → pl OpRename = None →
     ∃ w', save pl self tasks w1 = (Return tt, w')).
Proof.
  intros [Hf Hd].
  destruct (save_outcome pl self tasks w1) as [Hs Hret]. split; [|done].
  unfold saved_as in *.
  destruct (save pl self tasks w1) as [[[]|e] w'].
  - destruct Hs as (? & ? & ?). repeat split; [done | done | congruence].
  - destruct Hs as (? & Hfiles & ?). split; [done|].
    split; [|congruence]. intros p Hp. rewrite Hfiles by done. by rewrite Hf.
Qed.

End SaveOutcome.

Section Mutators.
Context `{Runtime}.

Lemma load_same_disk pl self w r w1 :
  load pl self w = (r, w1) → same_disk w w1.
Proof.
  intros Hl. pose proof (read_only_load pl self w) as Hro.
  by rewrite Hl in Hro.
Qed.

(** C3.  On a collection that loads, [add] of a task whose ID some task of
    the collection has raises [StorageError] ("Task with ID ... already
    exists"), which is not a [TaskNotFoundError], and writes nothing.
    [add] of a task whose ID no task has saves the collection with the
    task appended: it ends as [save] of that list ends; when it returns,
    the target file holds the text of the whole list, the task last; when
    it raises, it raises the [StorageError] of [save] and every file but
    the temporary one is as it was; and it returns when nothing of the
    write is refused. *)
Theorem add_duplicate_or_append pl self task w tasks w1 :
  load pl self w = (Return tasks, w1) →
  (has_id (id task) tasks = true →
     add pl self task w
     = (Raise (StorageError
                 ("Task with ID " +:+ py_str (id task) +:+ " already exists")),
        w1)
     ∧ same_disk w w1
     ∧ ∀ msg, StorageError
                ("Task with ID " +:+ py_str (id task) +:+ " already exists")
              ≠ TaskNotFoundError msg)
  ∧ (has_id (id task) tasks = false →
     add pl self task w = save pl self (tasks ++ [task]) w1
     ∧ saved_as self (tasks ++ [task]) w (add pl self task w)
     ∧ map to_dict (tasks ++ [task]) = map to_dict tasks ++ [to_dict task]
     ∧ (pl OpOpen = None → pl OpDump = None → pl OpRename = None →
        ∃ w', add pl self task w = (Return tt, w'))).
Proof.
  intros Hl.
  pose proof (load_same_disk pl self w _ w1 Hl) as Hdisk.
  split; intros Hid.
  - unfold add, bind. rewrite Hl. fold (has_id (id task) tasks). rewrite Hid.
    split; [done|]. split; [done | done].
  - assert (add pl self task w = save pl self (tasks ++ [task]) w1) as Hadd.
    { unfold add, bind. rewrite Hl. fold (has_id (id task) tasks).
      by rewrite Hid. }
    destruct (saved_after_read pl self (tasks ++ [task]) w w1 Hdisk)
      as [Hsaved Hret].
    rewrite Hadd. split; [done|]. split; [done|].
    split; [apply map_app | done].
Qed.

(** C4.  On a collection that loads and where no task has the ID,
    [get_by_id], [remove] and [update] raise [TaskNotFoundError] ("Task
    with ID ... not found"), which is not a [StorageError], and the disk is
    what it was before the call. *)
Theorem absent_id_not_found pl self w tasks w1 task_id :
  load pl self w = (Return tasks, w1) →
  has_id task_id tasks = false →
  let not_found :=
    TaskNotFoundError ("Task with ID " +:+ py_str task_id +:+ " not found") in
  same_disk w w1
  ∧ get_by_id pl self task_id w = (Raise not_found, w1)
  ∧ remove pl self task_id w = (Raise not_found, w1)
  ∧ (∀ task, id task = task_id → update pl self task w = (Raise not_found, w1))
  ∧ (∀ msg, not_found ≠ StorageError msg).
Proof.
  intros Hl Hid not_found. split; [by eapply load_same_disk|].
  split; [|split; [|split]].
  - unfold get_by_id, bind. rewrite Hl. by rewrite find_absent.
  - unfold remove, bind. rewrite Hl. rewrite filter_absent by done.
    by rewrite Nat.eqb_refl.
  - intros task <-. unfold update, bind. rewrite Hl.
    by rewrite first_with_id_absent.
  - done.
Qed.

(** C9.  On a collection that loads and where some task has the ID of the
    given task, [update] saves the collection with the given task at the
    index of the first such task: the list has its length, the given task
    at that index, and every other task where it was.  The call ends as
    [save] of that list ends: when it returns, the target file holds the
    text of the whole list; when it raises, it raises the [StorageError]
    of [save] and every file but the temporary one is as it was; and it
    returns when nothing of the write is refused. *)
Theorem update_replaces_in_place pl self task w tasks w1 :
  load pl self w = (Return tasks, w1) →
  has_id (id task) tasks = true →
  ∃ i old,
    tasks !! i = Some old
    ∧ py_eq (id old) (id task) = true
    ∧ (∀ j t, j < i → tasks !! j = Some t → py_eq (id t) (id task) = false)
    ∧ update pl self task w = save pl self (<[i := task]> tasks) w1
    ∧ length (<[i := task]> tasks) = length tasks
    ∧ <[i := task]> tasks !! i = Some task
    ∧ (∀ j, j ≠ i → <[i := task]> tasks !! j = tasks !! j)
    ∧ saved_as self (<[i := task]> tasks) w (update pl self task w)
    ∧ (pl OpOpen = None → pl OpDump = None → pl OpRename = None →
       ∃ w', update pl self task w = (Return tt, w')).
Proof.
  intros Hl Hid.
  pose proof (load_same_disk pl self w _ w1 Hl) as Hdisk.
  destruct (first_with_id_present (id task) 0 tasks Hid)
    as (i & old & Hi & Hold & Heq & Hfirst).
  assert (update pl self task w = save pl self (<[i := task]> tasks) w1)
    as Hupdate.
  { unfold update, bind. rewrite Hl, Hi. done. }
  destruct (saved_after_read pl self (<[i := task]> tasks) w w1 Hdisk)
    as [Hsaved Hret].
  exists i, old. split; [done|]. split; [done|]. split; [done|].
  split; [done|]. split; [|split; [|split; [|split]]].
  - apply length_insert.
  - apply list_lookup_insert_eq. by eapply lookup_lt_Some.
  - intros j Hj. by apply list_lookup_insert_ne.
  - by rewrite Hupdate.
  - by rewrite Hupdate.
Qed.

End Mutators.

(** ** Writing a collection and reading it back *)

Section RoundTrip.
Context `{Runtime}.

(** A valid task that is written and read comes back with its title
    stripped and nothing else changed. *)
Lemma from_dict_to_dict_valid t w :
  valid_task t = true →
  from_dict (to_dict t) w = (Return (strip_title t), w).
Proof.
  destruct t as [ti de pr du st i cr co].
  unfold valid_task, strip_title. simpl.
  intros Hv. repeat (apply andb_true_iff in Hv as [Hv ?]).
  destruct ti as [| | |s| |]; try done.
  destruct pr as [p|]; try done. destruct st as [s'|]; try done.
  destruct i as [| | |i| |]; try done. destruct cr as [| | |c| |]; try done.
  unfold from_dict, to_dict, __post_init__, get, get_or, bind, ret. simpl.
  by destruct p, s'.
Qed.

Lemma strip_title_stripped t : title_stripped t = true → strip_title t = t.
Proof.
  destruct t as [ti de pr du st i cr co].
  unfold title_stripped, strip_title. simpl.
  destruct ti; try done. intros Hs. apply String.eqb_eq in Hs. by rewrite Hs.
Qed.

Lemma from_dict_to_dict t w :
  valid_task t = true → title_stripped t = true →
  from_dict (to_dict t) w = (Return t, w).
Proof.
  intros Hv Hs. rewrite from_dict_to_dict_valid by done.
  by rewrite strip_title_stripped.
Qed.

Lemma for_each_from_dict_to_dict_valid L w :
  Forall (fun t => valid_task t = true) L →
  for_each from_dict (map to_dict L) w = (Return (map strip_title L), w).
Proof.
  intros Hv. induction L as [|t L IH]; [done|].
  apply Forall_cons in Hv as [Hvt Hv].
  change (map to_dict (t :: L)) with (to_dict t :: map to_dict L).
  cbn [for_each]. unfold bind, ret.
  rewrite from_dict_to_dict_valid by done. by rewrite IH.
Qed.

Lemma map_strip_title_stripped L :
  Forall (fun t => title_stripped t = true) L → map strip_title L = L.
Proof.
  induction 1 as [|t L Ht _ IH]; [done|].
  simpl. by rewrite strip_title_stripped, IH.
Qed.

(** What [load] returns after [save], for every list of valid tasks: the
    tasks in their order, each with its title stripped. *)
Lemma save_load_strips_titles pl pl' self L w :
  Forall (fun t => valid_task t = true) L →
  pl OpOpen = None → pl OpDump = None → pl OpRename = None →
  pl' OpReadText = None →
  json_loads (json_dumps (JList (map to_dict L)))
  = inr (JList (map to_dict L)) →
  ∃ w', save pl self L w = (Return tt, w')
    ∧ load pl' self w' = (Return (map strip_title L), w').
Proof.
  intros Hv Ho Hd Hr Hread Hj.
  destruct (save_ok pl self L w Ho Hd Hr) as (w' & Hsave & Htarget & _).
  exists w'. split; [done|].
  rewrite (load_array pl' self w' _ _ Hread Htarget Hj).
  by apply for_each_from_dict_to_dict_valid.
Qed.

(** C2, amended.  For every list [L] of valid tasks whose titles have no
    white space at their ends, when the temporary file is written, the
    rename succeeds, the file can be read and [json.loads] gives back the
    document that [json.dump] wrote, [load] after [save L] returns [L]:
    the same tasks, attribute by attribute, in the same order. *)
Theorem save_load_round_trip pl pl' self L w :
  Forall (fun t => valid_task t = true) L →
  Forall (fun t => title_stripped t = true) L →
  pl OpOpen = None → pl OpDump = None → pl OpRename = None →
  pl' OpReadText = None →
  json_loads (json_dumps (JList (map to_dict L)))
  = inr (JList (map to_dict L)) →
  ∃ w', save pl self L w = (Return tt, w')
    ∧ load pl' self w' = (Return L, w').
Proof.
  intros Hv Hs Ho Hd Hr Hread Hj.
  destruct (save_load_strips_titles pl pl' self L w Hv Ho Hd Hr Hread Hj)
    as (w' & Hsave & Hload).
  exists w'. split; [done|].
  by rewrite map_strip_title_stripped in Hload.
Qed.

End RoundTrip.

(** ** Initialisation *)

Section Init.
Context `{Runtime}.

Lemma present_after_mkdir (p : path) (w : world) :
  bool_decide (is_Some (files w !! p)
               ∨ p ∈ dirs w ∪ list_to_set (ancestors (parent p)))
  = present p w.
Proof.
  unfold present. apply bool_decide_ext.
  rewrite elem_of_union, elem_of_list_to_set.
  pose proof (target_not_ancestor p). tauto.
Qed.


End Init.

(** * The theorems at work, on the reference runtime *)

Section Examples.
#[local] Existing Instance reference_runtime.

(** C1 at work: the rename of the test
    [test_atomic_write_prevents_partial_updates] is refused. *)
Lemma save_rename_failure_witness :
  ∃ w', save rename_fails example_store [task_a; task_b] (stored [task_a])
        = (Raise (StorageError "Failed to save tasks: Simulated failure"), w')
    ∧ files w' !! example_path = files (stored [task_a]) !! example_path
    ∧ files w' !! temp_path example_store = None
    ∧ (∀ p, p ≠ temp_path example_store →
         files w' !! p = files (stored [task_a]) !! p)
    ∧ dirs w' = dirs (stored [task_a]).
Proof.
  exact (save_rename_failure rename_fails example_store [task_a; task_b]
           (stored [task_a])
           {| fault_msg := "Simulated failure"; fault_reached := None |}
           eq_refl eq_refl eq_refl eq_refl).
Defined.

(** C5 at work: the disk is full when the backup is copied. *)
Lemma save_backup_best_effort_witness :
  ∃ w', save copy_fails example_store [task_a] (stored []) = (Return tt, w')
    ∧ files w' !! example_path
      = Some (json_dumps (JList (map to_dict [task_a])))
    ∧ (copy_fails OpCopy = None →
       files w' !! backup_target example_store (stored [])
       = Some (json_dumps (JList (map to_dict [task_a])))).
Proof.
  exact (save_backup_best_effort copy_fails example_store [task_a] (stored [])
           eq_refl eq_refl eq_refl).
Defined.

(** C2 at work: two tasks are written and read back. *)
Lemma save_load_round_trip_witness :
  ∃ w', save no_faults example_store [task_a; task_b] empty_world
        = (Return tt, w')
    ∧ load no_faults example_store w' = (Return [task_a; task_b], w').
Proof.
  apply (save_load_round_trip no_faults no_faults example_store
           [task_a; task_b] empty_world).
  - repeat constructor.
  - repeat constructor.
  - reflexivity.
  - reflexivity.
  - reflexivity.
  - reflexivity.
  - vm_compute. reflexivity.
Defined.

(** C2 fails on a valid task whose title begins with a space: [load]
    returns the task with the title stripped. *)
Lemma save_load_round_trip_counterexample :
  valid_task padded_task = true
  ∧ ∃ w', save no_faults example_store [padded_task] empty_world
          = (Return tt, w')
      ∧ load no_faults example_store w' = (Return [task_a], w')
      ∧ load no_faults example_store w' ≠ (Return [padded_task], w').
Proof.
  split; [reflexivity|].
  eexists. split; [vm_compute; reflexivity|].
  split; [vm_compute; reflexivity|].
  vm_compute. intros [=].
Qed.

(** C3 at work: a task with the ID of a stored task is added, and one
    with another ID. *)
Lemma add_duplicate_or_append_witness :
  add no_faults example_store padded_task (stored [task_a])
  = (Raise (StorageError "Task with ID a already exists"), stored [task_a])
  ∧ same_disk (stored [task_a]) (stored [task_a])
  ∧ add no_faults example_store task_b (stored [task_a])
    = save no_faults example_store [task_a; task_b] (stored [task_a])
  ∧ saved_as example_store ([task_a] ++ [task_b]) (stored [task_a])
      (add no_faults example_store task_b (stored [task_a]))
  ∧ ∃ w', add no_faults example_store task_b (stored [task_a])
          = (Return tt, w').
Proof.
  assert (load no_faults example_store (stored [task_a])
          = (Return [task_a], stored [task_a])) as Hload
    by (vm_compute; reflexivity).
  destruct (add_duplicate_or_append no_faults example_store padded_task _ _ _ Hload)
    as [Hdup _].
  destruct (add_duplicate_or_append no_faults example_store task_b _ _ _ Hload)
    as [_ Hnew].
  destruct (Hdup eq_refl) as (Hraise & Hdisk & _).
  destruct (Hnew eq_refl) as (Hadd & Hsaved & _ & Hret).
  split; [exact Hraise|]. split; [exact Hdisk|]. split; [exact Hadd|].
  split; [exact Hsaved|]. exact (Hret eq_refl eq_refl eq_refl).
Defined.

(** C4 at work: the test IDs of [test_remove_nonexistent_task_raises_error]. *)
Lemma absent_id_not_found_witness :
  let not_found :=
    TaskNotFoundError "Task with ID nonexistent-id not found" in
  same_disk (stored [task_a]) (stored [task_a])
  ∧ get_by_id no_faults example_store (JStr "nonexistent-id") (stored [task_a])
    = (Raise not_found, stored [task_a])
  ∧ remove no_faults example_store (JStr "nonexistent-id") (stored [task_a])
    = (Raise not_found, stored [task_a])
  ∧ (∀ task, id task = JStr "nonexistent-id" →
       update no_faults example_store task (stored [task_a])
       = (Raise not_found, stored [task_a]))
  ∧ (∀ msg, not_found ≠ StorageError msg).
Proof.
  apply (absent_id_not_found no_faults example_store (stored [task_a])
           [task_a] (stored [task_a]) (JStr "nonexistent-id")).
  - vm_compute. reflexivity.
  - reflexivity.
Defined.

(** C9 at work: the second of two stored tasks is updated. *)
Lemma update_replaces_in_place_witness :
  ∃ i old,
    [task_a; task_b] !! i = Some old
    ∧ py_eq (id old) (id task_b_renamed) = true
    ∧ (∀ j t, j < i → [task_a; task_b] !! j = Some t →
         py_eq (id t) (id task_b_renamed) = false)
    ∧ update no_faults example_store task_b_renamed (stored [task_a; task_b])
      = save no_faults example_store (<[i := task_b_renamed]> [task_a; task_b])
          (stored [task_a; task_b])
    ∧ length (<[i := task_b_renamed]> [task_a; task_b])
      = length [task_a; task_b]
    ∧ <[i := task_b_renamed]> [task_a; task_b] !! i = Some task_b_renamed
    ∧ (∀ j, j ≠ i →
         <[i := task_b_renamed]> [task_a; task_b] !! j
         = [task_a; task_b] !! j)
    ∧ saved_as example_store (<[i := task_b_renamed]> [task_a; task_b])
        (stored [task_a; task_b])
        (update no_faults example_store task_b_renamed
           (stored [task_a; task_b]))
    ∧ (no_faults OpOpen = None → no_faults OpDump = None →
       no_faults OpRename = None →
       ∃ w', update no_faults example_store task_b_renamed
               (stored [task_a; task_b]) = (Return tt, w')).
Proof.
  apply (update_replaces_in_place no_faults example_store task_b_renamed
           (stored [task_a; task_b]) [task_a; task_b]
           (stored [task_a; task_b])).
  - vm_compute. reflexivity.
  - reflexivity.
Defined.

(** C6 at work: a truncated document and a document that is not a list. *)
Lemma load_parse_and_schema_errors_witness :
  load no_faults example_store (world_with (RefJson.q "[{'id'"))
  = (Raise (StorageError
              "Failed to load tasks: invalid JSON format - Expecting value"),
     world_with (RefJson.q "[{'id'"))
  ∧ load no_faults example_store (world_with (RefJson.q "{'not': 'a list'}"))
    = (Raise (StorageError "Invalid JSON schema: expected a list of tasks"),
       world_with (RefJson.q "{'not': 'a list'}")).
Proof.
  split.
  - eapply (load_parse_and_schema_errors no_faults example_store).
    + reflexivity.
    + vm_compute. reflexivity.
    + vm_compute. reflexivity.
  - eapply (load_parse_and_schema_errors no_faults example_store).
    + reflexivity.
    + vm_compute. reflexivity.
    + vm_compute. reflexivity.
    + intros items. discriminate.
Defined.

(** C7 at work: the second record has no title. *)
Lemma load_missing_title_witness :
  load no_faults example_store (world_with missing_title_second)
  = (Raise (KeyError "Missing required field: title"),
     world_with missing_title_second).
Proof.
  apply (load_missing_title no_faults example_store
           (world_with missing_title_second) missing_title_second
           [JDict [("title", JStr "a"); ("id", JStr "k"); ("created_at", JStr "t")]]
           [("id", JStr "x")] []
           [{| title := JStr "a"; description := JNull;
               priority := PriorityOf MEDIUM; due_date := JNull;
               status := StatusOf ACTIVE; id := JStr "k";
               created_at := JStr "t"; completed_at := JNull |}]).
  - reflexivity.
  - vm_compute. reflexivity.
  - vm_compute. reflexivity.
  - reflexivity.
  - vm_compute. reflexivity.
Defined.

(** C7 fails on an array whose second record has no title and whose first
    record has an unknown priority: [load] raises the [ValueError] of the
    first record. *)
Lemma load_missing_title_counterexample :
  json_loads unknown_priority_first
  = inr (JList [JDict [("title", JStr "a"); ("priority", JStr "urgent")];
                JDict [("id", JStr "x")]])
  ∧ dict_has "title" [("id", JStr "x")] = false
  ∧ fst (load no_faults example_store (world_with unknown_priority_first))
    = Raise (ValueError "Invalid priority: urgent")
  ∧ ∀ msg, fst (load no_faults example_store (world_with unknown_priority_first))
           ≠ Raise (KeyError msg).
Proof.
  split; [vm_compute; reflexivity|]. split; [reflexivity|].
  split; [vm_compute; reflexivity|].
  intros msg. vm_compute. intros [=].
Qed.


(** C10 at work: a record with the priority "urgent". *)
Lemma load_invalid_priority_or_status_witness :
  fst (load no_faults example_store (world_with unknown_priority))
  = Raise (ValueError "Invalid priority: urgent").
Proof.
  eapply (load_invalid_priority_or_status no_faults example_store
            (world_with unknown_priority) unknown_priority
            [] [("title", JStr "a"); ("priority", JStr "urgent")] []
            [] (world_with unknown_priority)).
  - reflexivity.
  - vm_compute. reflexivity.
  - vm_compute. reflexivity.
  - reflexivity.
  - reflexivity.
  - reflexivity.
  - reflexivity.
Defined.

(** C10 fails on a record whose priority is "HIGH", a string that is none
    of "high", "medium", "low": [load] returns the task, with the priority
    [HIGH]. *)
Lemma load_invalid_priority_counterexample :
  json_loads capital_priority
  = inr (JList [JDict [("title", JStr "a"); ("priority", JStr "HIGH");
                       ("id", JStr "k"); ("created_at", JStr "t")]])
  ∧ ("HIGH" ∉ ["high"; "medium"; "low"])
  ∧ load no_faults example_store (world_with capital_priority)
    = (Return [{| title := JStr "a"; description := JNull;
                  priority := PriorityOf HIGH; due_date := JNull;
                  status := StatusOf ACTIVE; id := JStr "k";
                  created_at := JStr "t"; completed_at := JNull |}],
       world_with capital_priority).
Proof.
  split; [vm_compute; reflexivity|]. split.
  - intros Hin. repeat (apply elem_of_cons in Hin as [Hin|Hin]; [done|]).
    by apply elem_of_nil in Hin.
  - vm_compute. reflexivity.
Qed.

(** The scenario of the specification: add, read, update, read, remove,
    read, on a store that was just made. *)
Example scenario_add_update_remove :
  ∃ w1 w2 w3 w4,
    __init__ no_faults example_path empty_world = (Return example_store, w1)
    ∧ add no_faults example_store task_b w1 = (Return tt, w2)
    ∧ get_all no_faults example_store w2 = (Return [task_b], w2)
    ∧ update no_faults example_store task_b_renamed w2 = (Return tt, w3)
    ∧ get_by_id no_faults example_store (JStr "b") w3
      = (Return task_b_renamed, w3)
    ∧ remove no_faults example_store (JStr "b") w3 = (Return tt, w4)
    ∧ get_all no_faults example_store w4 = (Return [], w4)
    ∧ files w4 !! temp_path example_store = None.
Proof.
  do 4 eexists.
  repeat (split; [vm_compute; reflexivity|]).
  vm_compute. reflexivity.
Qed.

End Examples.

(** * More of the code *)

(** ** [str.strip] *)

Lemma rstrip_nonspace c r :
  PyStr.is_space c = false →
  PyStr.rstrip (String c r) = String c (PyStr.rstrip r).
Proof. intros Hc. simpl. rewrite Hc. by destruct (PyStr.rstrip r). Qed.

Lemma rstrip_idempotent s : PyStr.rstrip (PyStr.rstrip s) = PyStr.rstrip s.
Proof.
  induction s as [|c r IH]; [done|].
  simpl. destruct (PyStr.rstrip r) as [|c' r'] eqn:Hr.
  - destruct (PyStr.is_space c) eqn:Hc; [done|]. simpl. by rewrite Hc.
  - change (PyStr.rstrip (String c (String c' r')))
      with (match PyStr.rstrip (String c' r') with
            | EmptyString =>
                if PyStr.is_space c then EmptyString else String c EmptyString
            | r'' => String c r''
            end).
    by rewrite IH.
Qed.

Lemma lstrip_head s :
  PyStr.lstrip s = EmptyString
  ∨ ∃ c r, PyStr.lstrip s = String c r ∧ PyStr.is_space c = false.
Proof.
  induction s as [|c r IH]; [by left|].
  simpl. destruct (PyStr.is_space c) eqn:Hc; [done|]. right. eauto.
Qed.

Lemma strip_idempotent s : PyStr.strip (PyStr.strip s) = PyStr.strip s.
Proof.
  unfold PyStr.strip. destruct (lstrip_head s) as [->|(c & r & -> & Hc)];
    [done|].
  rewrite (rstrip_nonspace c r Hc). simpl PyStr.lstrip. rewrite Hc.
  rewrite <- (rstrip_nonspace c r Hc). apply rstrip_idempotent.
Qed.

(** ** What [from_dict] returns *)

Lemma only_returns_ret {A} (P : A → Prop) a : P a → only_returns P (ret a).
Proof. intros Ha w a' w' [= <- _]. exact Ha. Qed.

Lemma only_returns_raise {A} (P : A → Prop) e : only_returns P (raise e).
Proof. by intros w a w' [=]. Qed.

Lemma only_returns_bind {A B} (Q : A → Prop) (P : B → Prop) m (k : A → M B) :
  only_returns Q m → (∀ a, Q a → only_returns P (k a)) →
  only_returns P (bind m k).
Proof.
  intros Hm Hk w b w'. unfold bind.
  destruct (m w) as [[a|e] w1] eqn:Hmw; [|by intros [=]].
  apply Hk. by eapply Hm.
Qed.

Lemma only_returns_for_each {A B} (P : B → Prop) (f : A → M B) xs :
  (∀ x, only_returns P (f x)) → only_returns (Forall P) (for_each f xs).
Proof.
  intros Hf. induction xs as [|x xs IH]; simpl.
  - by apply only_returns_ret.
  - apply (only_returns_bind P); [apply Hf|]. intros y Hy.
    apply (only_returns_bind (Forall P)); [apply IH|]. intros ys Hys.
    apply only_returns_ret. by constructor.
Qed.

Section Normalised.
Context `{Runtime}.

Lemma post_init_steps self :
  __post_init__ self
  = (id' <- init_id self ;;
     created_at' <- init_created_at self ;;
     priority' <- init_priority self ;;
     status' <- init_status self ;;
     ret {| title := init_title self;
            description := description self;
            priority := priority'; due_date := due_date self;
            status := status'; id := id'; created_at := created_at';
            completed_at := completed_at self |}).
Proof. reflexivity. Qed.

Lemma init_id_returns self :
  only_returns (fun v => is_none v = false) (init_id self).
Proof.
  unfold init_id. destruct (id self); try (by apply only_returns_ret).
  by intros w a w' [= <- _].
Qed.

Lemma init_created_at_returns self :
  only_returns (fun v => is_none v = false) (init_created_at self).
Proof.
  unfold init_created_at.
  destruct (created_at self); try (by apply only_returns_ret).
  by intros w a w' [= <- _].
Qed.

Lemma init_priority_returns self :
  only_returns
    (fun p => match p with PriorityRaw (JStr _) => False | _ => True end)
    (init_priority self).
Proof.
  unfold init_priority.
  destruct (priority self) as [p|[| | |s| |]];
    try (by apply only_returns_ret).
  repeat case_match; first [by apply only_returns_ret | apply only_returns_raise].
Qed.

Lemma init_status_returns self :
  only_returns
    (fun s => match s with StatusRaw (JStr _) => False | _ => True end)
    (init_status self).
Proof.
  unfold init_status.
  destruct (status self) as [s|[| | |s| |]];
    try (by apply only_returns_ret).
  repeat case_match; first [by apply only_returns_ret | apply only_returns_raise].
Qed.

Lemma init_title_stripped self :
  match init_title self with
  | JStr s => String.eqb (PyStr.strip s) s
  | _ => true
  end = true.
Proof.
  unfold init_title. destruct (title self); try done.
  apply String.eqb_eq, strip_idempotent.
Qed.

Lemma post_init_normalised self :
  only_returns (fun t => normalised t = true) (__post_init__ self).
Proof.
  rewrite post_init_steps.
  eapply only_returns_bind; [apply init_id_returns|]. intros i Hi.
  eapply only_returns_bind; [apply init_created_at_returns|]. intros c Hc.
  eapply only_returns_bind; [apply init_priority_returns|]. intros p Hp.
  eapply only_returns_bind; [apply init_status_returns|]. intros s Hs.
  apply only_returns_ret. unfold normalised, title_stripped. simpl.
  rewrite Hi, Hc, init_title_stripped. simpl.
  destruct p as [?|[]], s as [?|[]]; done.
Qed.

Lemma from_dict_normalised data :
  only_returns (fun t => normalised t = true) (from_dict data).
Proof.
  unfold from_dict.
  repeat case_match;
    first [apply post_init_normalised | apply only_returns_raise].
Qed.

(** On a normalised task, what [to_dict] writes is read back unchanged,
    attribute by attribute. *)
Lemma from_dict_to_dict_normalised t w :
  normalised t = true → from_dict (to_dict t) w = (Return t, w).
Proof.
  destruct t as [ti de pr du st i cr co].
  unfold normalised, title_stripped. simpl. intros Hn.
  repeat (apply andb_true_iff in Hn as [Hn ?]).
  apply negb_true_iff in Hn.
  match goal with Hc : negb _ = true |- _ => apply negb_true_iff in Hc end.
  unfold from_dict, to_dict. simpl. rewrite post_init_steps.
  unfold get, get_or, bind, ret. simpl.
  assert (init_id_eq : ∀ self w, is_none (id self) = false →
            init_id self w = (Return (id self), w)).
  { intros self w0. unfold init_id. by destruct (id self). }
  assert (init_created_eq : ∀ self w, is_none (created_at self) = false →
            init_created_at self w = (Return (created_at self), w)).
  { intros self w0. unfold init_created_at. by destruct (created_at self). }
  rewrite init_id_eq by done. rewrite init_created_eq by done. simpl.
  unfold init_priority, init_status, init_title. simpl.
  destruct ti as [| | |s| |]; simpl in *;
    try match goal with Hs : String.eqb _ _ = true |- _ =>
          apply String.eqb_eq in Hs; rewrite Hs end;
    destruct pr as [[]|[]]; try done; destruct st as [[]|[]]; done.
Qed.

Lemma for_each_from_dict_to_dict_normalised tasks w :
  Forall (fun t => normalised t = true) tasks →
  for_each (fun task => from_dict (to_dict task)) tasks w = (Return tasks, w).
Proof.
  induction 1 as [|t tasks Ht _ IH]; [done|].
  cbn [for_each]. unfold bind, ret.
  rewrite from_dict_to_dict_normalised by done. by rewrite IH.
Qed.

Lemma load_normalised pl self :
  only_returns (Forall (fun t => normalised t = true)) (load pl self).
Proof.
  intros w tasks w'. unfold load, try_except.
  destruct (bind _ _ w) as [[ts|e] w1] eqn:Hbody.
  - intros [= <- <-]. revert Hbody.
    eapply (only_returns_bind (fun _ => True)); [done|]. intros content _.
    eapply (only_returns_bind (fun _ => True)); [done|]. intros data _.
    eapply (only_returns_bind (fun _ => True)); [done|]. intros items _.
    apply only_returns_for_each. apply from_dict_normalised.
  - destruct e; by intros [=].
Qed.

Lemma get_all_load pl self w : get_all pl self w = load pl self w.
Proof.
  unfold get_all, bind.
  destruct (load pl self w) as [[tasks|e] w1] eqn:Hl; [|done].
  apply for_each_from_dict_to_dict_normalised.
  by eapply load_normalised.
Qed.

(** X1.  [get_all] returns what [load] returns, on every file and under
    every fault plan: a task that [load] built is rebuilt from its
    [to_dict] as the same task, and no further value is drawn from [uuid4]
    or the clock. *)
Theorem get_all_is_load pl self w : get_all pl self w = load pl self w.
Proof.
  unfold get_all, bind.
  destruct (load pl self w) as [[tasks|e] w1] eqn:Hl; [|done].
  apply for_each_from_dict_to_dict_normalised.
  by eapply load_normalised.
Qed.

End Normalised.

(** ** [save] under every fault plan *)

Section SaveAlways.
Context `{Runtime}.

(** A [save] that goes through changes the target, the temporary file and
    the backup, and nothing else. *)
Lemma save_ok_footprint pl self tasks w :
  pl OpOpen = None → pl OpDump = None → pl OpRename = None →
  ∃ w', save pl self tasks w = (Return tt, w')
    ∧ files w' !! _file_path self
      = Some (json_dumps (JList (map to_dict tasks)))
    ∧ files w' !! temp_path self = None
    ∧ dirs w' = dirs w ∧ tick w' = tick w
    ∧ (∀ p, p ≠ _file_path self → p ≠ temp_path self →
         p ≠ backup_target self w → files w' !! p = files w !! p).
Proof.
  intros Ho Hd Hr.
  destruct (save_ok pl self tasks w Ho Hd Hr)
    as (w' & Hs & Ht & Htmp & Hdirs & Htick & _).
  exists w'. do 5 (split; [done|]).
  pose proof (write_then_rename pl self (map to_dict tasks) w Ho Hd Hr) as Hwr.
  destruct (create_backup_returns pl self
              (renamed self (json_dumps (JList (map to_dict tasks))) w))
    as (w2 & Hb & Hfiles & _).
  assert (w' = w2) as ->.
  { revert Hs. unfold save, _atomic_write, try_except. unfold bind in *.
    destruct (open_w pl (temp_path self) w) as [[[]|e] wa]; [|done].
    destruct (json_dump pl (JList (map to_dict tasks)) (temp_path self) wa)
      as [[[]|e] wb]; [|done].
    rewrite Hwr, Hb. congruence. }
  intros p Hp1 Hp2 Hp3. rewrite Hfiles by done.
  unfold renamed. simpl.
  rewrite lookup_insert_ne by done. by rewrite lookup_delete_ne.
Qed.

(** X2.  [save] is all or nothing, under every fault plan: when it returns,
    the target holds the new text, no temporary file is left and every
    file but the target, the temporary file and the backup holds what it
    held; when it raises, it raises [StorageError], every file but the
    temporary one holds what it held, and the temporary file is gone unless
    its removal was refused.  The directories are never touched. *)
Theorem save_all_or_nothing pl self tasks w :
  match save pl self tasks w with
  | (Return _, w') =>
      files w' !! _file_path self
      = Some (json_dumps (JList (map to_dict tasks)))
      ∧ files w' !! temp_path self = None
      ∧ (∀ p, p ≠ _file_path self → p ≠ temp_path self →
           p ≠ backup_target self w → files w' !! p = files w !! p)
      ∧ dirs w' = dirs w
  | (Raise e, w') =>
      (∃ msg, e = StorageError ("Failed to save tasks: " +:+ msg))
      ∧ (∀ p, p ≠ temp_path self → files w' !! p = files w !! p)
      ∧ (pl OpUnlink = None → files w' !! temp_path self = None)
      ∧ dirs w' = dirs w
  end.
Proof.
  destruct (pl OpOpen) as [fo|] eqn:Ho;
    [|destruct (pl OpDump) as [fd|] eqn:Hd;
      [|destruct (pl OpRename) as [fr|] eqn:Hr]].
  - (* open is refused *)
    destruct (save_failed_write pl self tasks w (fault_msg fo) w)
      as (e & w' & Hs & Hrest); [|done|done|by rewrite Hs].
    unfold bind, open_w. by rewrite Ho.
  - (* the dump fails *)
    destruct (save_failed_write pl self tasks w (fault_msg fd)
                (set_files
                   (<[temp_path self :=
                        String.substring 0 (default 0 (fault_reached fd))
                          (json_dumps (JList (map to_dict tasks)))]>
                      (<[temp_path self := EmptyString]> (files w))) w))
      as (e & w' & Hs & Hrest); [| |done|by rewrite Hs].
    + unfold bind, open_w, json_dump, modify_files. by rewrite Ho, Hd.
    + intros p Hp. simpl. by rewrite !lookup_insert_ne.
  - (* the rename is refused *)
    destruct (save_failed_write pl self tasks w (fault_msg fr)
                (set_files
                   (<[temp_path self := json_dumps (JList (map to_dict tasks))]>
                      (<[temp_path self := EmptyString]> (files w))) w))
      as (e & w' & Hs & Hrest); [| |done|by rewrite Hs].
    + unfold bind, open_w, json_dump, rename, modify_files.
      by rewrite Ho, Hd, Hr.
    + intros p Hp. simpl. by rewrite !lookup_insert_ne.
  - destruct (save_ok_footprint pl self tasks w Ho Hd Hr)
      as (w' & Hs & Ht & Htmp & Hdirs & _ & Hfoot).
    by rewrite Hs.
Qed.

End SaveAlways.

(** ** Which files load *)

Section Loadable.
Context `{Runtime}.

Lemma init_priority_accepted d (self : Task) :
  priority self = PriorityRaw (get_or d "priority" (JStr "medium")) →
  priority_accepted d = true →
  ∃ p, ∀ w, init_priority self w = (Return p, w).
Proof.
  intros Hp Ha. unfold init_priority. rewrite Hp.
  unfold priority_accepted, known_priority, get_or in *.
  destruct (dict_get "priority" d) as [[| | |s| |]|]; simpl; eauto.
  destruct (String.eqb (PyStr.lower s) "high"); [eauto|].
  destruct (String.eqb (PyStr.lower s) "medium"); [eauto|].
  destruct (String.eqb (PyStr.lower s) "low"); [eauto|done].
Qed.

Lemma init_status_accepted d (self : Task) :
  status self = StatusRaw (get_or d "status" (JStr "active")) →
  status_accepted d = true →
  ∃ s, ∀ w, init_status self w = (Return s, w).
Proof.
  intros Hs Ha. unfold init_status. rewrite Hs.
  unfold status_accepted, known_status, get_or in *.
  destruct (dict_get "status" d) as [[| | |s| |]|]; simpl; eauto.
  destruct (String.eqb (PyStr.lower s) "active"); [eauto|].
  destruct (String.eqb (PyStr.lower s) "completed"); [eauto|done].
Qed.

Lemma init_id_total self w : ∃ v w', init_id self w = (Return v, w').
Proof. unfold init_id. destruct (id self); eauto. Qed.

Lemma init_created_at_total self w :
  ∃ v w', init_created_at self w = (Return v, w').
Proof. unfold init_created_at. destruct (created_at self); eauto. Qed.

Lemma from_dict_loadable data w :
  loadable data = true → ∃ t w', from_dict data w = (Return t, w').
Proof.
  destruct data as [| | | | |d]; try done. simpl.
  intros Hl. apply andb_true_iff in Hl as [Hl Hs].
  apply andb_true_iff in Hl as [Ht Hp].
  unfold from_dict. rewrite Ht. simpl. rewrite post_init_steps.
  set (self := {| title := _ |}).
  destruct (init_id_total self w) as (i & w1 & Hi).
  destruct (init_created_at_total self w1) as (c & w2 & Hc).
  destruct (init_priority_accepted d self eq_refl Hp) as (p & Hpr).
  destruct (init_status_accepted d self eq_refl Hs) as (s & Hst).
  unfold bind. rewrite Hi, Hc, Hpr, Hst. eauto.
Qed.

Lemma from_dict_not_loadable data w :
  loadable data = false → ∃ e w', from_dict data w = (Raise e, w').
Proof.
  intros Hl. destruct data as [| | |s|l|d].
  1-3: by eexists _, _.
  - unfold from_dict. destruct (negb _); by eexists _, _.
  - unfold from_dict. destruct (negb _); by eexists _, _.
  - simpl in Hl. destruct (dict_has "title" d) eqn:Ht; simpl in Hl.
    + destruct (priority_accepted d) eqn:Hp; simpl in Hl.
      * unfold status_accepted in Hl.
        destruct (dict_get "status" d) as [[| | |s| |]|] eqn:Hs; try done.
        destruct (from_dict_invalid_status d s w Ht Hp Hs Hl) as [w2 Hr].
        eauto.
      * unfold priority_accepted in Hp.
        destruct (dict_get "priority" d) as [[| | |s| |]|] eqn:Hs; try done.
        destruct (from_dict_invalid_priority d s w Ht Hs Hp) as [w2 Hr].
        eauto.
    + rewrite from_dict_missing_title by done. eauto.
Qed.

Lemma load_not_parsed pl self w content e :
  pl OpReadText = None →
  files w !! _file_path self = Some content →
  json_loads content = inl e →
  ∃ msg, load pl self w = (Raise (StorageError msg), w).
Proof.
  intros Hp Hf Hj. unfold load, try_except, bind, read_text, raise.
  rewrite Hp, Hf, Hj. eauto.
Qed.

Lemma load_not_a_list pl self w content data :
  pl OpReadText = None →
  files w !! _file_path self = Some content →
  json_loads content = inr data →
  (∀ items, data ≠ JList items) →
  ∃ msg, load pl self w = (Raise (StorageError msg), w).
Proof.
  intros Hp Hf Hj Hd.
  unfold load, try_except, bind, read_text, _validate_schema, raise, ret.
  rewrite Hp, Hf, Hj. destruct data; eauto. by destruct (Hd l).
Qed.

Lemma for_each_length {A B} (f : A → M B) xs w ys w' :
  for_each f xs w = (Return ys, w') → length ys = length xs.
Proof.
  revert w ys. induction xs as [|x xs IH]; intros w ys; simpl.
  - by intros [= <- _].
  - unfold bind, ret. destruct (f x w) as [[y|e] w1]; [|done].
    destruct (for_each f xs w1) as [[ys'|e] w2] eqn:Hxs; [|done].
    intros Heq. injection Heq as <- ->. simpl. f_equal. by eapply IH.
Qed.

Lemma for_each_from_dict_returns items w :
  (∃ tasks w', for_each from_dict items w = (Return tasks, w'))
  ↔ forallb loadable items = true.
Proof.
  revert w. induction items as [|x items IH]; intros w; simpl.
  - split; [done|]. intros _. by eexists _, _.
  - rewrite andb_true_iff. unfold bind, ret. split.
    + intros (tasks & w' & Hr).
      destruct (loadable x) eqn:Hx.
      * split; [done|].
        destruct (from_dict x w) as [[t|e] w1]; [|done].
        apply (IH w1).
        destruct (for_each from_dict items w1) as [[ts|e] w2]; [|done].
        by eexists _, _.
      * destruct (from_dict_not_loadable x w Hx) as (e & w1 & He).
        by rewrite He in Hr.
    + intros [Hx Hitems].
      destruct (from_dict_loadable x w Hx) as (t & w1 & Ht).
      apply (IH w1) in Hitems as (ts & w2 & Hts).
      rewrite Ht, Hts. by eexists _, _.
Qed.

(** X3.  On a readable file, [load] returns exactly when the content is a
    JSON array of objects that each have a title and, where their priority
    or status is a string, a known one (in any case of letters); it then
    returns one task for each element. *)
Theorem load_returns_iff pl self w content :
  pl OpReadText = None →
  files w !! _file_path self = Some content →
  ((∃ tasks w', load pl self w = (Return tasks, w'))
   ↔ ∃ items, json_loads content = inr (JList items)
              ∧ forallb loadable items = true)
  ∧ (∀ tasks w' items, load pl self w = (Return tasks, w') →
       json_loads content = inr (JList items) →
       length tasks = length items).
Proof.
  intros Hp Hf. split; [split|].
  - intros (tasks & w' & Hl).
    destruct (json_loads content) as [e|data] eqn:Hj.
    + destruct (load_not_parsed pl self w content e Hp Hf Hj). congruence.
    + destruct data as [| | | |items|];
        try (destruct (load_not_a_list pl self w content _ Hp Hf Hj)
               as [msg Hm]; [by intros ?|congruence]).
      exists items. split; [done|].
      rewrite (load_array pl self w content items Hp Hf Hj) in Hl.
      apply (for_each_from_dict_returns items w). eauto.
  - intros (items & Hj & Hitems).
    rewrite (load_array pl self w content items Hp Hf Hj).
    by apply for_each_from_dict_returns.
  - intros tasks w' items Hl Hj.
    rewrite (load_array pl self w content items Hp Hf Hj) in Hl.
    by eapply for_each_length.
Qed.

End Loadable.

(** ** Reading *)

Section Reading.
Context `{Runtime}.

Lemma read_only_get_all pl self : read_only (get_all pl self).
Proof.
  unfold get_all. apply read_only_bind; [apply read_only_load|]. intros tasks.
  apply read_only_for_each. intros t. apply read_only_from_dict.
Qed.

Lemma read_only_get_by_id pl self task_id :
  read_only (get_by_id pl self task_id).
Proof.
  unfold get_by_id. apply read_only_bind; [apply read_only_load|].
  intros tasks. case_match; [apply read_only_ret | apply read_only_raise].
Qed.

(** X4.  [load], [get_all] and [get_by_id] write nothing: whatever the
    file holds, whatever is refused and whether they return or raise, every
    file and directory is after the call as it was before. *)
Theorem reading_writes_nothing pl self task_id w :
  same_disk w (snd (load pl self w))
  ∧ same_disk w (snd (get_all pl self w))
  ∧ same_disk w (snd (get_by_id pl self task_id w)).
Proof.
  split; [apply read_only_load|].
  split; [apply read_only_get_all | apply read_only_get_by_id].
Qed.

Lemma load_unreadable_raises pl self w :
  pl OpReadText ≠ None ∨ files w !! _file_path self = None →
  load pl self w
  = (Raise (StorageError
              ("Failed to load tasks: " +:+
               match pl OpReadText with
               | Some f => fault_msg f
               | None => strerror_noent (_file_path self)
               end)), w).
Proof.
  intros Hu. unfold load, try_except, bind, read_text, raise.
  destruct (pl OpReadText) as [f|]; [done|].
  destruct Hu as [Hu|Hu]; [done|]. by rewrite Hu.
Qed.

(** X5.  When the file cannot be read, because the read is refused or
    because no file is at the path, [load] raises [StorageError] ("Failed
    to load tasks: ..." with the text of the [OSError]), and so does every
    operation of the store, before it writes anything. *)
Theorem unreadable_file_stops_every_operation pl self w task task_id :
  pl OpReadText ≠ None ∨ files w !! _file_path self = None →
  let failed :=
    StorageError ("Failed to load tasks: " +:+
                  match pl OpReadText with
                  | Some f => fault_msg f
                  | None => strerror_noent (_file_path self)
                  end) in
  load pl self w = (Raise failed, w)
  ∧ get_all pl self w = (Raise failed, w)
  ∧ get_by_id pl self task_id w = (Raise failed, w)
  ∧ add pl self task w = (Raise failed, w)
  ∧ remove pl self task_id w = (Raise failed, w)
  ∧ update pl self task w = (Raise failed, w).
Proof.
  intros Hu failed. pose proof (load_unreadable_raises pl self w Hu) as Hl.
  fold failed in Hl.
  unfold get_all, get_by_id, add, remove, update, bind. by rewrite Hl.
Qed.

End Reading.

(** ** [remove] *)

Lemma has_id_filter task_id tasks :
  has_id task_id (List.filter (fun t => py_ne (id t) task_id) tasks) = false.
Proof.
  unfold has_id, py_ne. induction tasks as [|t tasks IH]; [done|].
  simpl. destruct (py_eq (id t) task_id) eqn:Ht; simpl; [done|].
  by rewrite Ht.
Qed.

Lemma length_filter_present task_id tasks :
  has_id task_id tasks = true →
  length (List.filter (fun t => py_ne (id t) task_id) tasks) < length tasks.
Proof.
  unfold has_id, py_ne. induction tasks as [|t tasks IH]; [done|].
  simpl. destruct (py_eq (id t) task_id) eqn:Ht; simpl.
  - intros _. pose proof (List.filter_length_le
                            (fun t => negb (py_eq (id t) task_id)) tasks). lia.
  - intros Hr. specialize (IH Hr). lia.
Qed.

Lemma filter_sublist {A} (f : A → bool) (l : list A) :
  sublist (List.filter f l) l.
Proof.
  induction l as [|x l IH]; simpl; [constructor|].
  destruct (f x); by constructor.
Qed.

Section Remove.
Context `{Runtime}.

(** X6.  On a collection that loads and where some task has the ID,
    [remove] saves the collection without every task that has the ID, not
    only the first one: the list has no task with the ID, is shorter than
    the loaded one, and keeps the other tasks, all of them, in their
    order.  The call ends as [save] of that list ends: when it returns,
    the target file holds the text of that list; when it raises, it raises
    the [StorageError] of [save] and every file but the temporary one is
    as it was; and it returns when nothing of the write is refused. *)
Theorem remove_deletes_every_match pl self task_id w tasks w1 :
  load pl self w = (Return tasks, w1) →
  has_id task_id tasks = true →
  let kept := List.filter (fun t => py_ne (id t) task_id) tasks in
  remove pl self task_id w = save pl self kept w1
  ∧ has_id task_id kept = false
  ∧ length kept < length tasks
  ∧ sublist kept tasks
  ∧ (∀ t, t ∈ tasks → py_eq (id t) task_id = false → t ∈ kept)
  ∧ saved_as self kept w (remove pl self task_id w)
  ∧ (pl OpOpen = None → pl OpDump = None → pl OpRename = None →
     ∃ w', remove pl self task_id w = (Return tt, w')).
Proof.
  intros Hl Hid kept. subst kept.
  pose proof (length_filter_present task_id tasks Hid) as Hlen.
  pose proof (load_same_disk pl self w _ w1 Hl) as Hdisk.
  assert (remove pl self task_id w
          = save pl self (List.filter (fun t => py_ne (id t) task_id) tasks)
              w1) as Hremove.
  { unfold remove, bind. rewrite Hl.
    destruct (Nat.eqb_spec
                (length (List.filter (fun t => py_ne (id t) task_id) tasks))
                (length tasks)); [lia|done]. }
  destruct (saved_after_read pl self
              (List.filter (fun t => py_ne (id t) task_id) tasks) w w1 Hdisk)
    as [Hsaved Hret].
  split; [done|]. split; [|split; [|split; [|split; [|split]]]].
  - apply has_id_filter.
  - done.
  - apply filter_sublist.
  - intros t Ht Hne. apply list_elem_of_In, List.filter_In.
    split; [by apply list_elem_of_In|]. unfold py_ne. by rewrite Hne.
  - by rewrite Hremove.
  - by rewrite Hremove.
Qed.

End Remove.

(** ** An operation, then a read *)

Lemma find_first_with_id task_id tasks i t :
  tasks !! i = Some t →
  py_eq (id t) task_id = true →
  (∀ j t', j < i → tasks !! j = Some t' → py_eq (id t') task_id = false) →
  List.find (fun task => py_eq (id task) task_id) tasks = Some t.
Proof.
  revert i. induction tasks as [|x tasks IH]; intros i Hi Ht Hfirst; [done|].
  simpl. destruct i as [|i]; simpl in Hi.
  - injection Hi as ->. by rewrite Ht.
  - rewrite (Hfirst 0 x) by (done || lia).
    apply (IH i); [done | done |].
    intros j t' Hj Hl. apply (Hfirst (S j) t'); [lia | done].
Qed.

Lemma has_id_lookup task_id tasks :
  has_id task_id tasks = false →
  ∀ j t, tasks !! j = Some t → py_eq (id t) task_id = false.
Proof.
  unfold has_id. induction tasks as [|x tasks IH]; [done|].
  simpl. intros Hno. apply orb_false_iff in Hno as [Hx Hrest].
  intros [|j] t Hl; simpl in Hl; [by simplify_eq | by eapply IH].
Qed.

Section ThenRead.
Context `{Runtime}.

Lemma from_dict_to_dict_strips t w :
  normalised t = true ∨ valid_task t = true →
  from_dict (to_dict t) w = (Return (strip_title t), w).
Proof.
  intros [Hn|Hv]; [|by apply from_dict_to_dict_valid].
  rewrite from_dict_to_dict_normalised by done.
  rewrite strip_title_stripped; [done|].
  unfold normalised in Hn. repeat (apply andb_true_iff in Hn as [Hn ?]). done.
Qed.

Lemma for_each_from_dict_to_dict_strips L w :
  Forall (fun t => normalised t = true ∨ valid_task t = true) L →
  for_each from_dict (map to_dict L) w = (Return (map strip_title L), w).
Proof.
  induction 1 as [|t L Ht _ IH]; [done|].
  change (map to_dict (t :: L)) with (to_dict t :: map to_dict L).
  cbn [for_each]. unfold bind, ret.
  rewrite from_dict_to_dict_strips by done. by rewrite IH.
Qed.

Lemma strip_title_normalised t : normalised t = true → strip_title t = t.
Proof.
  intros Hn. apply strip_title_stripped.
  unfold normalised in Hn. repeat (apply andb_true_iff in Hn as [Hn ?]). done.
Qed.

Lemma map_strip_title_normalised L :
  Forall (fun t => normalised t = true) L → map strip_title L = L.
Proof.
  induction 1 as [|t L Ht _ IH]; [done|].
  simpl. by rewrite strip_title_normalised, IH.
Qed.

(** What [load] returns after a [save] that went through. *)
Lemma save_then_load pl pl' self L w :
  Forall (fun t => normalised t = true ∨ valid_task t = true) L →
  pl OpOpen = None → pl OpDump = None → pl OpRename = None →
  pl' OpReadText = None →
  json_loads (json_dumps (JList (map to_dict L)))
  = inr (JList (map to_dict L)) →
  ∃ w', save pl self L w = (Return tt, w')
    ∧ load pl' self w' = (Return (map strip_title L), w').
Proof.
  intros HL Ho Hd Hr Hread Hj.
  destruct (save_ok pl self L w Ho Hd Hr) as (w' & Hsave & Htarget & _).
  exists w'. split; [done|].
  rewrite (load_array pl' self w' _ _ Hread Htarget Hj).
  by apply for_each_from_dict_to_dict_strips.
Qed.

Lemma id_strip_title t : id (strip_title t) = id t.
Proof. done. Qed.

Lemma py_eq_valid_id t : valid_task t = true → py_eq (id t) (id t) = true.
Proof.
  unfold valid_task. intros Hv. repeat (apply andb_true_iff in Hv as [Hv ?]).
  destruct (id t); try done. simpl. apply String.eqb_refl.
Qed.

(** X7.  After an [add] that went through, the task is in the store: on a
    collection that loads and has no task with the ID of a valid task,
    when the write and the next read succeed and [json.loads] reads back
    what [json.dump] wrote, [add] returns, [load] then returns the
    collection with the task (its title stripped) at the end, and
    [get_by_id] with the task's ID returns that task. *)
Theorem add_then_get_by_id pl pl' self task w tasks w1 :
  load pl self w = (Return tasks, w1) →
  has_id (id task) tasks = false →
  valid_task task = true →
  pl OpOpen = None → pl OpDump = None → pl OpRename = None →
  pl' OpReadText = None →
  json_loads (json_dumps (JList (map to_dict (tasks ++ [task]))))
  = inr (JList (map to_dict (tasks ++ [task]))) →
  ∃ w2, add pl self task w = (Return tt, w2)
    ∧ load pl' self w2 = (Return (tasks ++ [strip_title task]), w2)
    ∧ get_by_id pl' self (id task) w2 = (Return (strip_title task), w2).
Proof.
  intros Hl Hid Hv Ho Hd Hr Hread Hj.
  pose proof (load_normalised pl self w tasks w1 Hl) as Hn.
  destruct (save_then_load pl pl' self (tasks ++ [task]) w1)
    as (w2 & Hsave & Hload); try done.
  { apply Forall_app. split; [|apply Forall_singleton; by right].
    eapply Forall_impl; [exact Hn|]. by left. }
  rewrite map_app, map_strip_title_normalised in Hload by done.
  simpl in Hload. exists w2. split; [|split; [done|]].
  - unfold add, bind. rewrite Hl. fold (has_id (id task) tasks).
    by rewrite Hid.
  - unfold get_by_id, bind. rewrite Hload.
    rewrite (find_first_with_id (id task) _ (length tasks) (strip_title task));
      [done | | |].
    + by rewrite lookup_app_r, Nat.sub_diag by lia.
    + rewrite id_strip_title. by apply py_eq_valid_id.
    + intros j t' Hlt Hlk. rewrite lookup_app_l in Hlk by done.
      by eapply has_id_lookup.
Qed.

(** X8.  After a [remove] that went through, no task has the ID: on a
    collection that loads and has a task with the ID, when the write and
    the next read succeed and [json.loads] reads back what [json.dump]
    wrote, [remove] returns, [load] then returns the tasks with another ID,
    and [get_by_id] with the ID raises [TaskNotFoundError]. *)
Theorem remove_then_get_by_id pl pl' self task_id w tasks w1 :
  load pl self w = (Return tasks, w1) →
  has_id task_id tasks = true →
  let kept := List.filter (fun t => py_ne (id t) task_id) tasks in
  pl OpOpen = None → pl OpDump = None → pl OpRename = None →
  pl' OpReadText = None →
  json_loads (json_dumps (JList (map to_dict kept)))
  = inr (JList (map to_dict kept)) →
  ∃ w2, remove pl self task_id w = (Return tt, w2)
    ∧ load pl' self w2 = (Return kept, w2)
    ∧ get_by_id pl' self task_id w2
      = (Raise (TaskNotFoundError
                  ("Task with ID " +:+ py_str task_id +:+ " not found")), w2).
Proof.
  intros Hl Hid kept Ho Hd Hr Hread Hj. subst kept.
  set (kept := List.filter (fun t => py_ne (id t) task_id) tasks) in *.
  pose proof (load_normalised pl self w tasks w1 Hl) as Hn.
  assert (Forall (fun t => normalised t = true) kept) as Hk.
  { apply Forall_forall. intros t Ht.
    apply list_elem_of_In, List.filter_In in Ht as [Ht _].
    rewrite Forall_forall in Hn. by apply Hn, list_elem_of_In. }
  destruct (save_then_load pl pl' self kept w1)
    as (w2 & Hsave & Hload); try done.
  { eapply Forall_impl; [exact Hk|]. by left. }
  rewrite map_strip_title_normalised in Hload by done.
  pose proof (length_filter_present task_id tasks Hid) as Hlen.
  exists w2. split; [|split; [done|]].
  - unfold remove, bind. rewrite Hl. fold kept.
    destruct (Nat.eqb_spec (length kept) (length tasks));
      [subst kept; lia | done].
  - unfold get_by_id, bind. rewrite Hload.
    by rewrite find_absent by apply has_id_filter.
Qed.

(** X9.  After an [update] that went through, [get_by_id] returns the new
    task: on a collection that loads and has a task with the ID of a valid
    task, when the write and the next read succeed and [json.loads] reads
    back what [json.dump] wrote, [update] returns, [load] then returns the
    collection with the first task of that ID replaced by the given one
    (its title stripped), and [get_by_id] returns the given one. *)
Theorem update_then_get_by_id pl pl' self task w tasks w1 i :
  load pl self w = (Return tasks, w1) →
  first_with_id (id task) 0 tasks = Some i →
  valid_task task = true →
  pl OpOpen = None → pl OpDump = None → pl OpRename = None →
  pl' OpReadText = None →
  json_loads (json_dumps (JList (map to_dict (<[i := task]> tasks))))
  = inr (JList (map to_dict (<[i := task]> tasks))) →
  ∃ w2, update pl self task w = (Return tt, w2)
    ∧ load pl' self w2 = (Return (<[i := strip_title task]> tasks), w2)
    ∧ get_by_id pl' self (id task) w2 = (Return (strip_title task), w2).
Proof.
  intros Hl Hi Hv Ho Hd Hr Hread Hj.
  pose proof (load_normalised pl self w tasks w1 Hl) as Hn.
  assert (has_id (id task) tasks = true) as Hid.
  { destruct (has_id (id task) tasks) eqn:Hh; [done|].
    by rewrite first_with_id_absent in Hi. }
  destruct (first_with_id_present (id task) 0 tasks Hid)
    as (i' & old & Hi' & Hold & Heq & Hfirst).
  rewrite Hi in Hi'. injection Hi' as ->.
  destruct (save_then_load pl pl' self (<[i' := task]> tasks) w1)
    as (w2 & Hsave & Hload); try done.
  { apply Forall_insert; [|by right].
    eapply Forall_impl; [exact Hn|]. by left. }
  rewrite list_fmap_insert, map_strip_title_normalised in Hload by done.
  exists w2. split; [|split; [done|]].
  - unfold update, bind. by rewrite Hl, Hi.
  - unfold get_by_id, bind. rewrite Hload.
    rewrite (find_first_with_id (id task) _ i' (strip_title task));
      [done | | |].
    + apply list_lookup_insert_eq. by eapply lookup_lt_Some.
    + rewrite id_strip_title. by apply py_eq_valid_id.
    + intros j t' Hlt Hlk. rewrite list_lookup_insert_ne in Hlk by lia.
      by eapply Hfirst.
Qed.

End ThenRead.

(** ** [__init__] when something is refused, [from_dict] when keys are missing *)

Section InitAndDefaults.
Context `{Runtime}.

(** X10.  [TaskStorage.__init__] wraps nothing: a refusal of [mkdir] or of
    the first write reaches the caller as the [OSError] it is, not as a
    [StorageError], and leaves every other file as it was.  When something
    is at the target path already, nothing is written and a refusal of
    writes does not matter: the constructor returns and no file has
    changed. *)
Theorem init_lets_os_errors_through pl file_path w :
  (∀ f, pl OpMkdir = Some f →
     __init__ pl file_path w = (Raise (OSError (fault_msg f)), w))
  ∧ (∀ f, pl OpMkdir = None → pl OpWriteText = Some f →
       present file_path w = false →
       ∃ w', __init__ pl file_path w = (Raise (OSError (fault_msg f)), w')
         ∧ (∀ p, p ≠ file_path → files w' !! p = files w !! p))
  ∧ (pl OpMkdir = None → present file_path w = true →
     ∃ w', __init__ pl file_path w = (Return {| _file_path := file_path |}, w')
       ∧ files w' = files w).
Proof.
  split; [|split].
  - intros f Hm. unfold __init__, bind, mkdir_parents, raise. by rewrite Hm.
  - intros f Hm Hw Hp.
    unfold __init__, bind, mkdir_parents, path_exists, write_text,
      partial_write, modify_files, raise, ret.
    rewrite Hm, Hw. simpl. rewrite present_after_mkdir, Hp. simpl.
    destruct (fault_reached f); simpl; eexists; (split; [done|]); [|done].
    intros p Hne. simpl. by rewrite lookup_insert_ne.
  - intros Hm Hp.
    unfold __init__, bind, mkdir_parents, path_exists, write_text, ret.
    rewrite Hm. simpl. rewrite present_after_mkdir, Hp. simpl. by eexists.
Qed.

(** X11.  A record that has a title and neither [id], [created_at],
    [priority] nor [status] becomes an active task of medium priority with
    a generated ID and creation time, drawn in this order; a title that is
    a string is stripped, and the other attributes are what the record
    says, [None] where it says nothing. *)
Theorem from_dict_defaults d w :
  dict_has "title" d = true →
  get d "id" = JNull → get d "created_at" = JNull →
  dict_get "priority" d = None → dict_get "status" d = None →
  from_dict (JDict d) w
  = (Return {| title := match get d "title" with
                        | JStr s => JStr (PyStr.strip s)
                        | v => v
                        end;
               description := get d "description";
               priority := PriorityOf MEDIUM;
               due_date := get d "due_date";
               status := StatusOf ACTIVE;
               id := JStr (uuid4 (tick w));
               created_at := JStr (now_isoformat (S (tick w)));
               completed_at := get d "completed_at" |},
     mkWorld (files w) (dirs w) (S (S (tick w)))).
Proof.
  intros Ht Hi Hc Hp Hs. unfold from_dict. rewrite Ht. simpl.
  unfold __post_init__, get_or, bind, draw, ret. simpl.
  by rewrite Hi, Hc, Hp, Hs.
Qed.

End InitAndDefaults.

(** ** The files that the store touches *)

Section Footprint.
Context `{Runtime}.

Lemma same_but_store_refl self w : same_but_store self w w.
Proof. by split. Qed.

Lemma same_disk_but_store self w w' :
  same_disk w w' → same_but_store self w w'.
Proof. intros [Hf Hd]. split; [intros p _; by rewrite Hf | done]. Qed.

Lemma same_but_store_trans self w1 w2 w3 :
  same_but_store self w1 w2 → same_but_store self w2 w3 →
  same_but_store self w1 w3.
Proof.
  intros [Hf1 Hd1] [Hf2 Hd2].
  assert (store_paths self w2 = store_paths self w1) as Hp.
  { unfold store_paths, backup_target. by rewrite Hd1. }
  split; [|congruence].
  intros p Hn. rewrite Hf2 by (by rewrite Hp). by apply Hf1.
Qed.

Lemma not_store_path self w p :
  p ∉ store_paths self w →
  p ≠ _file_path self ∧ p ≠ temp_path self ∧ p ≠ backup_target self w.
Proof. unfold store_paths. set_solver. Qed.

Lemma save_failed_footprint pl self tasks w msg w1 :
  (open_w pl (temp_path self) ;;;
   json_dump pl (JList (map to_dict tasks)) (temp_path self) ;;;
   rename pl (temp_path self) (_file_path self) ;;;
   _create_backup pl self) w
  = (Raise (OSError msg), w1) →
  (∀ p, p ≠ temp_path self → files w1 !! p = files w !! p) →
  dirs w1 = dirs w →
  same_but_store self w (snd (save pl self tasks w)).
Proof.
  intros Hw Hf Hd.
  destruct (save_failed_write pl self tasks w msg w1 Hw Hf Hd)
    as (e & w' & Hs & _ & Hf' & _ & Hd').
  rewrite Hs. split; [|done].
  intros p Hp. apply not_store_path in Hp as (? & ? & ?). by apply Hf'.
Qed.

Lemma save_footprint pl self tasks w :
  same_but_store self w (snd (save pl self tasks w)).
Proof.
  destruct (pl OpOpen) as [fo|] eqn:Ho;
    [|destruct (pl OpDump) as [fd|] eqn:Hd;
      [|destruct (pl OpRename) as [fr|] eqn:Hr]].
  - apply (save_failed_footprint pl self tasks w (fault_msg fo) w);
      [|done|done].
    unfold bind, open_w. by rewrite Ho.
  - eapply (save_failed_footprint pl self tasks w (fault_msg fd)).
    + unfold bind, open_w, json_dump, modify_files. rewrite Ho, Hd.
      reflexivity.
    + intros p Hp. simpl. destruct (fault_reached fd); simpl;
        by rewrite ?lookup_insert_ne.
    + by destruct (fault_reached fd).
  - eapply (save_failed_footprint pl self tasks w (fault_msg fr)).
    + unfold bind, open_w, json_dump, rename, modify_files.
      rewrite Ho, Hd, Hr. reflexivity.
    + intros p Hp. simpl. by rewrite !lookup_insert_ne.
    + done.
  - destruct (save_ok_footprint pl self tasks w Ho Hd Hr)
      as (w' & Hs & _ & _ & Hdirs & _ & Hfoot).
    rewrite Hs. split; [|done].
    intros p Hp. apply not_store_path in Hp as (? & ? & ?). by apply Hfoot.
Qed.

Lemma load_then_footprint pl self w (k : list Task → M unit) :
  (∀ tasks w1, same_but_store self w1 (snd (k tasks w1))) →
  same_but_store self w (snd ((tasks <- load pl self ;; k tasks) w)).
Proof.
  intros Hk. unfold bind.
  pose proof (read_only_load pl self w) as Hl.
  destruct (load pl self w) as [[tasks|e] w1]; simpl in *.
  - eapply same_but_store_trans; [by apply same_disk_but_store|apply Hk].
  - by apply same_disk_but_store.
Qed.

(** X12.  The store writes nowhere else: after [save], [add], [remove] or
    [update], whether it returned or raised and whatever was refused, every
    file but the target, its temporary file and its backup holds what it
    held, and the directories are the same. *)
Theorem store_writes_nowhere_else pl self w tasks task task_id :
  same_but_store self w (snd (save pl self tasks w))
  ∧ same_but_store self w (snd (add pl self task w))
  ∧ same_but_store self w (snd (remove pl self task_id w))
  ∧ same_but_store self w (snd (update pl self task w)).
Proof.
  split; [apply save_footprint|]. split; [|split].
  - unfold add. apply load_then_footprint. intros ts w1.
    case_match; [apply same_but_store_refl | apply save_footprint].
  - unfold remove. apply load_then_footprint. intros ts w1.
    case_match; [apply same_but_store_refl | apply save_footprint].
  - unfold update. apply load_then_footprint. intros ts w1.
    case_match; [apply save_footprint | apply same_but_store_refl].
Qed.

End Footprint.

(** ** The operations: what is checked before the store is used *)

Lemma quiet_ret {A} (a : A) : quiet (op_ret a).
Proof. intros s. split; [apply same_disk_refl | done]. Qed.

Lemma quiet_raise {A} e : quiet (op_raise (A:=A) e).
Proof. intros s. split; [apply same_disk_refl | done]. Qed.

Lemma quiet_bind {A B} (m : Op A) (k : A → Op B) :
  quiet m → (∀ a, quiet (k a)) → quiet (op_bind m k).
Proof.
  intros Hm Hk s. unfold op_bind. specialize (Hm s).
  destruct (m s) as [[a|e] s1]; simpl in *; [|done].
  destruct Hm as [Hd Hs]. destruct (Hk a s1) as [Hd' Hs'].
  split; [by eapply same_disk_trans | congruence].
Qed.

Lemma quiet_try {A} (m : Op A) (h : op_exn → Op A) :
  quiet m → (∀ e, quiet (h e)) → quiet (op_try m h).
Proof.
  intros Hm Hh s. unfold op_try. specialize (Hm s).
  destruct (m s) as [[a|e] s1]; simpl in *; [done|].
  destruct Hm as [Hd Hs]. destruct (Hh e s1) as [Hd' Hs'].
  split; [by eapply same_disk_trans | congruence].
Qed.

Lemma quiet_lift {A} (m : M A) : read_only m → quiet (lift m).
Proof.
  intros Hm s. unfold lift. specialize (Hm (disk s)).
  by destruct (m (disk s)) as [[a|e] w].
Qed.

Section Validation.
Context `{Runtime} `{Calendar}.

Lemma quiet_draw_today : quiet draw_today.
Proof. intros s. by split. Qed.

Lemma quiet_validate self : quiet (validate self).
Proof.
  unfold validate.
  apply quiet_bind.
  { repeat case_match; (apply quiet_ret || apply quiet_raise). }
  intros blank. destruct blank; [apply quiet_raise|].
  destruct (py_len (title self)); [|apply quiet_raise].
  case_match; [apply quiet_raise|].
  apply quiet_bind.
  { repeat case_match; (apply quiet_ret || apply quiet_raise). }
  intros too_long. destruct too_long; [apply quiet_raise|].
  destruct (due_date self); try (apply quiet_ret || apply quiet_raise).
  case_match; [|apply quiet_raise].
  apply quiet_bind; [apply quiet_draw_today|].
  intros now. case_match; (apply quiet_ret || apply quiet_raise).
Qed.

(** X13.  [create_task] checks before it stores: when it raises
    [ValidationError], no file and no directory has changed, and the
    module-level store is what it was (if there was none, none has been
    created). *)
Theorem create_task_validates_first env title description priority due_date
    s msg s' :
  create_task env title description priority due_date s
  = (Failed (ValidationError msg), s') →
  same_disk (disk s) (disk s') ∧ _storage s' = _storage s.
Proof.
  unfold create_task. unfold op_bind at 1.
  match goal with |- context [op_try ?m ?h] => set (blk := op_try m h) end.
  assert (quiet blk) as Hq.
  { apply quiet_try.
    - apply quiet_bind; [apply quiet_lift, read_only_post_init|].
      intros task. apply quiet_bind; [apply quiet_validate|].
      intros _. apply quiet_ret.
    - intros e. repeat case_match; apply quiet_raise. }
  specialize (Hq s). destruct (blk s) as [[task|e] s1]; simpl in Hq.
  - unfold op_bind, _get_storage, lift, op_ret.
    repeat case_match; intros; simplify_eq.
  - by intros [= -> ->].
Qed.

Lemma known_priority_false p :
  known_priority p = false →
  String.eqb (PyStr.lower p) "high" = false
  ∧ String.eqb (PyStr.lower p) "medium" = false
  ∧ String.eqb (PyStr.lower p) "low" = false.
Proof.
  unfold known_priority. cbv zeta. intros Hk.
  apply orb_false_iff in Hk as [Hk ?]. apply orb_false_iff in Hk as [? ?].
  done.
Qed.

(** X14.  [create_task] reports a priority that is not one of the three
    ahead of everything else: whatever the title, the description and the
    due date are, the call raises [ValidationError] with the priority as
    it was given in the message, and nothing has been written. *)
Theorem create_task_unknown_priority env title description p due_date s :
  known_priority p = false →
  ∃ s', create_task env title description (PriorityRaw (JStr p)) due_date s
        = (Failed (ValidationError ("Invalid priority: " +:+ p)), s')
    ∧ same_disk (disk s) (disk s') ∧ _storage s' = _storage s.
Proof.
  intros Hk. apply known_priority_false in Hk as (Hh & Hm & Hl).
  eexists. split.
  - unfold create_task, op_bind, op_try, lift, __post_init__, bind, draw, ret,
      raise. simpl. rewrite Hh, Hm, Hl. reflexivity.
  - by split.
Qed.

End Validation.

(** ** The store that holds a list of tasks *)

Section Held.
Context `{Runtime}.

Lemma holds_same_files self L w w' :
  files w' = files w → holds self L w → holds self L w'.
Proof. intros Hf (Ht & Hr & Hn). split; [by rewrite Hf | done]. Qed.

Lemma holds_load pl self L w :
  holds self L w → pl OpReadText = None → load pl self w = (Return L, w).
Proof.
  intros (Ht & Hr & Hn) Hread.
  rewrite (load_array pl self w _ _ Hread Ht Hr).
  rewrite for_each_from_dict_to_dict_strips
    by (eapply Forall_impl; [exact Hn|]; by left).
  by rewrite map_strip_title_normalised.
Qed.

Lemma save_holds pl self L w :
  goes_through pl → reads_back L →
  Forall (fun t => normalised t = true) L →
  ∃ w', save pl self L w = (Return tt, w')
    ∧ holds self L w' ∧ tick w' = tick w ∧ dirs w' = dirs w.
Proof.
  intros (_ & Ho & Hd & Hr) Hrb Hn.
  destruct (save_ok pl self L w Ho Hd Hr)
    as (w' & Hs & Ht & _ & Hdirs & Htick & _).
  by exists w'.
Qed.

Lemma get_by_id_held pl self L w task_id :
  holds self L w → pl OpReadText = None →
  get_by_id pl self task_id w
  = match List.find (fun task => py_eq (id task) task_id) L with
    | Some task => (Return task, w)
    | None => (Raise (TaskNotFoundError
                        ("Task with ID " +:+ py_str task_id +:+ " not found")),
               w)
    end.
Proof.
  intros Hh Hread. unfold get_by_id, bind.
  rewrite (holds_load pl self L w Hh Hread). by case_match.
Qed.

Lemma add_held pl self L w task :
  holds self L w → goes_through pl →
  has_id (id task) L = false → normalised task = true →
  reads_back (L ++ [task]) →
  ∃ w', add pl self task w = (Return tt, w')
    ∧ holds self (L ++ [task]) w' ∧ tick w' = tick w ∧ dirs w' = dirs w.
Proof.
  intros Hh Hg Hid Hn Hrb.
  destruct (save_holds pl self (L ++ [task]) w Hg Hrb) as (w' & Hs & Hrest).
  { apply Forall_app. split; [apply Hh | by apply Forall_singleton]. }
  exists w'. split; [|done].
  unfold add, bind. rewrite (holds_load pl self L w Hh) by apply Hg.
  fold (has_id (id task) L). by rewrite Hid.
Qed.

Lemma remove_held pl self L w task_id :
  holds self L w → goes_through pl →
  has_id task_id L = true →
  reads_back (List.filter (fun t => py_ne (id t) task_id) L) →
  ∃ w', remove pl self task_id w = (Return tt, w')
    ∧ holds self (List.filter (fun t => py_ne (id t) task_id) L) w'
    ∧ tick w' = tick w ∧ dirs w' = dirs w.
Proof.
  intros Hh Hg Hid Hrb.
  destruct (save_holds pl self _ w Hg Hrb) as (w' & Hs & Hrest).
  { destruct Hh as (_ & _ & Hn). apply Forall_forall. intros t Ht.
    apply list_elem_of_In, List.filter_In in Ht as [Ht _].
    rewrite Forall_forall in Hn. by apply Hn, list_elem_of_In. }
  exists w'. split; [|done].
  pose proof (length_filter_present task_id L Hid) as Hlen.
  unfold remove, bind. rewrite (holds_load pl self L w Hh) by apply Hg.
  destruct (Nat.eqb_spec
              (length (List.filter (fun t => py_ne (id t) task_id) L))
              (length L)); [lia|done].
Qed.

Lemma remove_absent_held pl self L w task_id :
  holds self L w → pl OpReadText = None →
  has_id task_id L = false →
  remove pl self task_id w
  = (Raise (TaskNotFoundError
              ("Task with ID " +:+ py_str task_id +:+ " not found")), w).
Proof.
  intros Hh Hread Hid.
  unfold remove, bind. rewrite (holds_load pl self L w Hh Hread).
  by rewrite filter_absent, Nat.eqb_refl.
Qed.

Lemma update_held pl self L w task i :
  holds self L w → goes_through pl →
  first_with_id (id task) 0 L = Some i → normalised task = true →
  reads_back (<[i := task]> L) →
  ∃ w', update pl self task w = (Return tt, w')
    ∧ holds self (<[i := task]> L) w' ∧ tick w' = tick w ∧ dirs w' = dirs w.
Proof.
  intros Hh Hg Hi Hn Hrb.
  destruct (save_holds pl self _ w Hg Hrb) as (w' & Hs & Hrest).
  { apply Forall_insert; [apply Hh | done]. }
  exists w'. split; [|done].
  unfold update, bind. rewrite (holds_load pl self L w Hh) by apply Hg.
  by rewrite Hi.
Qed.

End Held.

(** ** [create_task] *)

Section Create.
Context `{Runtime} `{Calendar}.

Lemma post_init_created ti de pr du w :
  priority_passes pr = true →
  __post_init__ {| title := ti; description := de; priority := pr;
                   due_date := du; status := StatusOf ACTIVE; id := JNull;
                   created_at := JNull; completed_at := JNull |} w
  = (Return {| title := match ti with
                        | JStr s => JStr (PyStr.strip s)
                        | v => v
                        end;
               description := de; priority := settled_priority pr;
               due_date := du; status := StatusOf ACTIVE;
               id := JStr (uuid4 (tick w));
               created_at := JStr (now_isoformat (S (tick w)));
               completed_at := JNull |},
     mkWorld (files w) (dirs w) (S (S (tick w)))).
Proof.
  intros Hp. unfold __post_init__, bind, draw, ret, raise.
  destruct pr as [m|v]; [by destruct ti|].
  destruct v as [| | |p| |]; try by destruct ti.
  simpl in *. unfold known_priority in Hp. cbv zeta in Hp.
  destruct (String.eqb (PyStr.lower p) "high"); [by destruct ti|].
  destruct (String.eqb (PyStr.lower p) "medium"); [by destruct ti|].
  destruct (String.eqb (PyStr.lower p) "low"); [by destruct ti|done].
Qed.

Lemma create_task_checked env ti de pr du s :
  priority_passes pr = true →
  let task := {| title := match ti with
                          | JStr s => JStr (PyStr.strip s)
                          | v => v
                          end;
                 description := de; priority := settled_priority pr;
                 due_date := du; status := StatusOf ACTIVE;
                 id := JStr (uuid4 (tick (disk s)));
                 created_at := JStr (now_isoformat (S (tick (disk s))));
                 completed_at := JNull |} in
  let s1 := mkProcess (mkWorld (files (disk s)) (dirs (disk s))
                         (S (S (tick (disk s))))) (_storage s) in
  create_task env ti de pr du s
  = match validate task s1 with
    | (Returned _, s2) =>
        (storage <~ _get_storage env ;;
         lift (add (call_plan env 0) storage task) ;;~
         op_ret task) s2
    | (Failed e, s2) => (Failed e, s2)
    end.
Proof.
  intros Hp task s1.
  unfold create_task. unfold op_bind at 1. unfold op_try.
  unfold op_bind at 1. unfold lift at 1.
  rewrite post_init_created by done. fold task. fold s1.
  unfold op_bind at 1.
  pose proof (quiet_validate task s1) as Hq.
  destruct (validate task s1) as [[[]|e] s2] eqn:Hv; [done|].
  assert (∀ msg, e ≠ Raised (ValueError msg)
                 ∧ e ≠ Raised (JSONDecodeError msg)) as Hne.
  { intros msg. revert Hv. clear. unfold validate, op_bind, op_raise, op_ret,
      draw_today.
    repeat case_match; intros; simplify_eq; by split. }
  destruct e as [msg|e0]; [done|].
  destruct e0; try done; exfalso; destruct (Hne msg) as [? ?]; congruence.
Qed.

Lemma validate_falsy_title task s :
  truthy (title task) = false →
  validate task s
  = (Failed (ValidationError "Task title cannot be empty"), s).
Proof. intros Hf. unfold validate, op_bind. by rewrite Hf. Qed.

Lemma validate_blank_title task t s :
  title task = JStr t → PyStr.strip t = EmptyString →
  validate task s
  = (Failed (ValidationError "Task title cannot be empty"), s).
Proof.
  intros Ht Hb. unfold validate, op_bind. rewrite Ht.
  destruct (negb (truthy (JStr t))); [done|]. by rewrite Hb.
Qed.

Lemma validate_long_title task t s :
  title task = JStr t → PyStr.strip t ≠ EmptyString →
  200 < String.length t →
  validate task s
  = (Failed (ValidationError "Task title cannot exceed 200 characters"), s).
Proof.
  intros Ht Hb Hlen. unfold validate, op_bind. rewrite Ht.
  assert (truthy (JStr t) = true) as ->.
  { destruct t; [done|]. done. }
  apply String.eqb_neq in Hb. cbn [negb truthy]. rewrite Hb.
  cbn [negb op_ret py_len].
  destruct (Nat.ltb_spec 200 (String.length t)); [done|lia].
Qed.

(** X15.  [create_task] measures the title once it is stripped: with a
    priority that passes, a title that is empty, that is another empty
    value, or that is white space only is refused as empty, and a title
    is refused as too long when what is left of it after stripping has
    more than 200 characters. *)
Theorem create_task_title_checks env ti de pr du s :
  priority_passes pr = true →
  let outcome := fst (create_task env ti de pr du s) in
  (truthy ti = false →
   outcome = Failed (ValidationError "Task title cannot be empty"))
  ∧ (∀ t, ti = JStr t → PyStr.strip t = EmptyString →
     outcome = Failed (ValidationError "Task title cannot be empty"))
  ∧ (∀ t, ti = JStr t → 200 < String.length (PyStr.strip t) →
     outcome
     = Failed (ValidationError "Task title cannot exceed 200 characters")).
Proof.
  intros Hp outcome. subst outcome.
  rewrite create_task_checked by done. cbv zeta.
  split; [|split].
  - intros Hf. rewrite validate_falsy_title; [done|]. cbn [title].
    destruct ti as [|b|z|t|l|d]; try done.
    destruct t; [done|]. done.
  - intros t -> Ht.
    rewrite (validate_blank_title _ (PyStr.strip t)); [done|done|].
    by rewrite strip_idempotent.
  - intros t -> Ht.
    assert (PyStr.strip t ≠ EmptyString) as Hne.
    { intros Heq. rewrite Heq in Ht. simpl in Ht. lia. }
    rewrite (validate_long_title _ (PyStr.strip t)); [done|done| |done].
    by rewrite strip_idempotent.
Qed.

Lemma validate_checks_due_date task t s :
  title task = JStr t → PyStr.strip t ≠ EmptyString →
  String.length t ≤ 200 → description_passes (description task) = true →
  validate task s
  = match due_date task with
    | JNull => (Returned tt, s)
    | JStr d =>
        match Strptime.ymd d with
        | Some due_date_obj =>
            (if date_ltb due_date_obj (today (tick (disk s)))
             then Failed (ValidationError
                            "Invalid due_date: cannot be in the past")
             else Returned tt,
             mkProcess (mkWorld (files (disk s)) (dirs (disk s))
                          (S (tick (disk s)))) (_storage s))
        | None =>
            (Failed (ValidationError
                       "Invalid due_date format. Use YYYY-MM-DD"), s)
        end
    | _ => (Failed (Raised TypeError), s)
    end.
Proof.
  intros Ht Hb Hlen Hde. unfold validate, op_bind. rewrite Ht.
  assert (truthy (JStr t) = true) as ->.
  { destruct t; [done|]. done. }
  apply String.eqb_neq in Hb. cbn [negb truthy]. rewrite Hb.
  cbn [negb op_ret py_len].
  destruct (Nat.ltb_spec 200 (String.length t)); [lia|].
  assert ((match description task with
           | JNull => op_ret false
           | v => match py_len v with
                  | Some n => op_ret (1000 <? n)
                  | None => op_raise (Raised TypeError)
                  end
           end) s = (Returned false, s)) as Hd.
  { unfold description_passes in Hde.
    destruct (description task) as [| | |d| |]; try done. simpl.
    apply Nat.leb_le in Hde.
    destruct (Nat.ltb_spec 1000 (String.length d)); [lia|done]. }
  assert (∀ (k : bool → Op unit),
            (let (o, s') :=
               (match description task with
                | JNull => op_ret false
                | v => match py_len v with
                       | Some n => op_ret (1000 <? n)
                       | None => op_raise (Raised TypeError)
                       end
                end) s in
             match o with
             | Returned a => k a s'
             | Failed e => (Failed e, s')
             end) = k false s) as Hk.
  { intros k. by rewrite Hd. }
  destruct (description task) as [| | |d| |]; try done.
  all: rewrite Hk; clear Hk Hd.
  all: destruct (due_date task) as [| | |dd| |]; try done.
  all: destruct (Strptime.ymd dd); try done.
  all: unfold draw_today, op_raise, op_ret; by case_match.
Qed.

Lemma title_passes_spec t :
  title_passes t = true →
  PyStr.strip (PyStr.strip t) ≠ EmptyString
  ∧ String.length (PyStr.strip t) ≤ 200.
Proof.
  unfold title_passes. intros Ht. apply andb_true_iff in Ht as [Hne Hlen].
  rewrite strip_idempotent. split.
  - apply negb_true_iff in Hne. by apply String.eqb_neq.
  - by apply Nat.leb_le.
Qed.

(** X16.  What [create_task] does with a due date, once the priority, the
    title and the description have passed: a string that [strptime] does
    not read as a date is refused for its format; a date before today's
    is refused as past; any other date, today's included, is not refused:
    the call does not raise [ValidationError]. *)
Theorem create_task_due_date_checks env t de pr d s :
  priority_passes pr = true → title_passes t = true →
  description_passes de = true →
  let outcome := fst (create_task env (JStr t) de pr (JStr d) s) in
  match Strptime.ymd d with
  | None =>
      outcome
      = Failed (ValidationError "Invalid due_date format. Use YYYY-MM-DD")
  | Some due_date_obj =>
      if date_ltb due_date_obj (today (S (S (tick (disk s)))))
      then outcome
           = Failed (ValidationError "Invalid due_date: cannot be in the past")
      else ∀ msg, outcome ≠ Failed (ValidationError msg)
  end.
Proof.
  intros Hp Ht Hde outcome. subst outcome.
  apply title_passes_spec in Ht as [Hne Hlen].
  rewrite create_task_checked by done. cbv zeta.
  rewrite (validate_checks_due_date _ (PyStr.strip t)) by done.
  cbn [due_date disk tick].
  destruct (Strptime.ymd d) as [due|]; [|done].
  destruct (date_ltb due _); [done|].
  intros msg. unfold op_bind, _get_storage, lift, op_ret.
  repeat case_match; simpl; intros ?; simplify_eq.
Qed.

Lemma get_storage_set env s st :
  _storage s = Some st → _get_storage env s = (Returned st, s).
Proof. intros Hs. unfold _get_storage. by rewrite Hs. Qed.

Lemma validate_passes task t s :
  title task = JStr t → title_passes t = true → PyStr.strip t = t →
  description_passes (description task) = true →
  due_date_passes (due_date task) (today (tick (disk s))) = true →
  ∃ s', validate task s = (Returned tt, s')
    ∧ files (disk s') = files (disk s) ∧ _storage s' = _storage s.
Proof.
  intros Ht Hti Hst Hde Hdu.
  apply title_passes_spec in Hti as [Hne Hlen].
  rewrite strip_idempotent in Hne. rewrite Hst in Hlen.
  rewrite (validate_checks_due_date _ t) by done.
  unfold due_date_passes in Hdu.
  destruct (due_date task) as [| | |d| |]; try done; [by eexists|].
  destruct (Strptime.ymd d) as [due|]; [|done].
  apply negb_true_iff in Hdu. rewrite Hdu. by eexists.
Qed.

(** X17.  A task that [create_task] has stored is the one that [get_task]
    returns: with the store set and holding a list of tasks, arguments
    that pass, an ID drawn that no stored task has, and the reads and the
    writes going through, [create_task] returns the new task (title
    stripped, priority settled, active, ID and creation time drawn in that
    order), the store then holds the list with the new task at the end,
    and [get_task] with its ID returns it. *)
Theorem create_task_then_get_task env env' st t de pr du s L :
  _storage s = Some st → holds st L (disk s) →
  goes_through (call_plan env 0) → call_plan env' 0 OpReadText = None →
  priority_passes pr = true → title_passes t = true →
  description_passes de = true →
  due_date_passes du (today (S (S (tick (disk s))))) = true →
  let task := new_task t de pr du (tick (disk s)) in
  has_id (id task) L = false → reads_back (L ++ [task]) →
  ∃ s', create_task env (JStr t) de pr du s = (Returned task, s')
    ∧ holds st (L ++ [task]) (disk s') ∧ _storage s' = Some st
    ∧ get_task env' (id task) s' = (Returned task, s').
Proof.
  intros Hs Hh Hg Hread Hp Ht Hde Hdu task Hid Hrb.
  rewrite create_task_checked by done. cbv zeta. fold (new_task t de pr du (tick (disk s))). fold task.
  match goal with |- context [validate task ?s1] =>
    destruct (validate_passes task (PyStr.strip t) s1)
      as (s2 & Hv & Hf2 & Hs2) end; try done.
  { unfold title_passes. by rewrite strip_idempotent. }
  { apply strip_idempotent. }
  rewrite Hv. simpl in Hf2, Hs2.
  assert (normalised task = true) as Hn.
  { unfold normalised, title_stripped, task, new_task. simpl.
    rewrite strip_idempotent, String.eqb_refl. simpl.
    destruct pr as [m|v]; [done|]. destruct v; try done. simpl.
    by repeat case_match. }
  destruct (add_held (call_plan env 0) st L (disk s2) task)
    as (w' & Hadd & Hh' & _); try done.
  { by apply (holds_same_files st L (disk s)). }
  exists (mkProcess w' (Some st)).
  assert (_storage s2 = Some st) as Hs2' by congruence.
  split; [|split; [done|split; [done|]]].
  - unfold op_bind. rewrite (get_storage_set env s2 st Hs2').
    unfold lift. rewrite Hadd. unfold op_ret. by rewrite Hs2'.
  - unfold get_task, op_bind. rewrite (get_storage_set env' _ st) by done.
    unfold lift. cbn [disk _storage].
    rewrite (get_by_id_held _ st (L ++ [task]) w') by done.
    rewrite (find_first_with_id (id task) _ (length L) task); [done| | |].
    + by rewrite lookup_app_r, Nat.sub_diag by lia.
    + simpl. apply String.eqb_refl.
    + intros j t' Hlt Hlk. rewrite lookup_app_l in Hlk by done.
      by eapply has_id_lookup.
Qed.

End Create.

(** ** [get_task], [delete_task] and [update_task_status] *)

Lemma py_eq_str a b : is_str a = true → py_eq a b = true → b = a.
Proof.
  destruct a as [| | |s| |]; try done. intros _.
  destruct b as [| | |t| |]; try done. simpl.
  intros Heq. apply String.eqb_eq in Heq. by subst.
Qed.

Lemma py_eq_str_refl a : is_str a = true → py_eq a a = true.
Proof. destruct a; try done. intros _. apply String.eqb_refl. Qed.

Lemma first_with_id_intro task_id n tasks i t :
  tasks !! i = Some t →
  py_eq (id t) task_id = true →
  (∀ j t', j < i → tasks !! j = Some t' → py_eq (id t') task_id = false) →
  first_with_id task_id n tasks = Some (n + i).
Proof.
  revert n i. induction tasks as [|x tasks IH]; intros n i Hi Ht Hfirst;
    [done|].
  simpl. destruct i as [|i]; simpl in Hi.
  - injection Hi as ->. rewrite Ht. f_equal. lia.
  - rewrite (Hfirst 0 x) by (done || lia).
    rewrite (IH (S n) i); [f_equal; lia | done | done |].
    intros j t' Hj Hl. apply (Hfirst (S j) t'); [lia | done].
Qed.

Lemma first_with_id_elim task_id tasks i :
  first_with_id task_id 0 tasks = Some i →
  ∃ t, tasks !! i = Some t
    ∧ py_eq (id t) task_id = true
    ∧ ∀ j t', j < i → tasks !! j = Some t' → py_eq (id t') task_id = false.
Proof.
  intros Hi.
  assert (has_id task_id tasks = true) as Hid.
  { destruct (has_id task_id tasks) eqn:Hh; [done|].
    by rewrite first_with_id_absent in Hi. }
  destruct (first_with_id_present task_id 0 tasks Hid)
    as (i' & t & Hi' & Ht & Heq & Hfirst).
  rewrite Hi in Hi'. injection Hi' as ->. by exists t.
Qed.

Section Status.
Context `{Runtime} `{Calendar}.

Lemma lift_state {A} (m : M A) s st :
  _storage s = Some st →
  lift m s
  = match m (disk s) with
    | (Return a, w') => (Returned a, mkProcess w' (Some st))
    | (Raise e, w') => (Failed (Raised e), mkProcess w' (Some st))
    end.
Proof. intros Hs. unfold lift. by rewrite Hs. Qed.

Lemma process_eta s st :
  _storage s = Some st → mkProcess (disk s) (Some st) = s.
Proof. destruct s. simpl. by intros ->. Qed.

(** X18.  An ID that no stored task has stops [get_task], [delete_task]
    and [update_task_status] alike: each raises [TaskNotFoundError] with
    the ID in the message, and leaves the process as it was: nothing is
    written, no value is drawn. *)
Theorem absent_id_stops_operations env st s L task_id status :
  _storage s = Some st → holds st L (disk s) →
  has_id task_id L = false →
  call_plan env 0 OpReadText = None →
  let not_found :=
    Raised (TaskNotFoundError
              ("Task with ID " +:+ py_str task_id +:+ " not found")) in
  get_task env task_id s = (Failed not_found, s)
  ∧ delete_task env task_id s = (Failed not_found, s)
  ∧ update_task_status env task_id status s = (Failed not_found, s).
Proof.
  intros Hs Hh Hid Hread not_found. subst not_found.
  pose proof (get_by_id_held _ st L (disk s) task_id Hh Hread) as Hget.
  rewrite (find_absent _ _ Hid) in Hget.
  pose proof (remove_absent_held _ st L (disk s) task_id Hh Hread Hid)
    as Hrem.
  split; [|split].
  - unfold get_task, op_bind. rewrite (get_storage_set env s st Hs).
    rewrite (lift_state _ s st Hs), Hget. by rewrite process_eta.
  - unfold delete_task, op_bind. rewrite (get_storage_set env s st Hs).
    rewrite (lift_state _ s st Hs), Hrem. by rewrite process_eta.
  - unfold update_task_status, op_bind. rewrite (get_storage_set env s st Hs).
    rewrite (lift_state _ s st Hs), Hget. by rewrite process_eta.
Qed.

Lemma normalised_with_status t status completed_at :
  normalised t = true →
  match status with StatusRaw (JStr _) => False | _ => True end →
  normalised (with_status t status completed_at) = true.
Proof.
  unfold normalised, title_stripped. simpl. intros Hn Hst.
  repeat (apply andb_true_iff in Hn as [Hn ?]).
  repeat (apply andb_true_iff; split); try done.
  destruct status as [m|v]; [done|]. by destruct v.
Qed.

Lemma update_task_status_held env st s L task_id status i old :
  _storage s = Some st → holds st L (disk s) →
  call_plan env 0 OpReadText = None → goes_through (call_plan env 1) →
  first_with_id task_id 0 L = Some i → L !! i = Some old →
  is_str (id old) = true →
  let task :=
    if status_eq status (StatusOf COMPLETED)
    then with_status old (StatusOf COMPLETED)
           (JStr (now_isoformat (tick (disk s))))
    else with_status old (StatusOf ACTIVE) JNull in
  reads_back (<[i := task]> L) →
  ∃ s', update_task_status env task_id status s = (Returned task, s')
    ∧ holds st (<[i := task]> L) (disk s') ∧ _storage s' = Some st
    ∧ first_with_id task_id 0 (<[i := task]> L) = Some i.
Proof.
  intros Hs Hh Hread Hg Hi Hold Hstr task Hrb.
  destruct (first_with_id_elim task_id L i Hi) as (t & Ht & Heq & Hfirst).
  rewrite Hold in Ht. injection Ht as <-.
  pose proof (py_eq_str _ _ Hstr Heq) as ->.
  assert (id task = id old) as Hidt by (subst task; by case_match).
  assert (normalised old = true) as Hno.
  { destruct Hh as (_ & _ & Hn). rewrite Forall_forall in Hn.
    apply Hn. by eapply list_elem_of_lookup_2. }
  assert (normalised task = true) as Hn.
  { subst task. case_match; by apply normalised_with_status. }
  (* the task after the first step, and the world *)
  set (w1 := if status_eq status (StatusOf COMPLETED)
             then mkWorld (files (disk s)) (dirs (disk s))
                    (S (tick (disk s)))
             else disk s).
  assert (holds st L w1) as Hh1.
  { subst w1. case_match; [|done]. by apply (holds_same_files st L (disk s)). }
  destruct (update_held (call_plan env 1) st L w1 task i)
    as (w' & Hup & Hh' & _); try done.
  { by rewrite Hidt. }
  exists (mkProcess w' (Some st)).
  split; [|split; [done|split; [done|]]].
  - unfold update_task_status, op_bind.
    rewrite (get_storage_set env s st Hs).
    rewrite (lift_state _ s st Hs).
    rewrite (get_by_id_held _ st L (disk s)) by done.
    rewrite (find_first_with_id (id old) L i old) by done.
    subst task w1. destruct (status_eq status (StatusOf COMPLETED)).
    + rewrite (lift_state _ _ st) by done.
      unfold mark_complete, bind, draw, ret. cbn [disk _storage].
      rewrite (lift_state _ _ st) by done. cbn [disk].
      fold (with_status old (StatusOf COMPLETED)
              (JStr (now_isoformat (tick (disk s))))).
      by rewrite Hup.
    + unfold op_ret.
      change (mark_incomplete old)
        with (with_status old (StatusOf ACTIVE) JNull).
      rewrite (lift_state _ _ st) by done. cbn [disk]. by rewrite Hup.
  - change 0 with (0 + 0) at 1. rewrite <- (Nat.add_0_l i) at 2.
    apply (first_with_id_intro (id old) 0 _ i task).
    + apply list_lookup_insert_eq. by eapply lookup_lt_Some.
    + rewrite Hidt. by apply py_eq_str_refl.
    + intros j t' Hlt Hlk. rewrite list_lookup_insert_ne in Hlk by lia.
      by eapply Hfirst.
Qed.

(** X19.  [update_task_status] changes the first task with the ID, in its
    place, and [get_task] then returns it: with [Status.COMPLETED] the
    task is completed at the time drawn; with any other status, a member
    or not, it is active again and its completion time is gone.  The
    other tasks and the other attributes are what they were. *)
Theorem update_task_status_then_get_task env env' st s L task_id status i
    old :
  _storage s = Some st → holds st L (disk s) →
  call_plan env 0 OpReadText = None → goes_through (call_plan env 1) →
  call_plan env' 0 OpReadText = None →
  first_with_id task_id 0 L = Some i → L !! i = Some old →
  is_str (id old) = true →
  let task :=
    if status_eq status (StatusOf COMPLETED)
    then with_status old (StatusOf COMPLETED)
           (JStr (now_isoformat (tick (disk s))))
    else with_status old (StatusOf ACTIVE) JNull in
  reads_back (<[i := task]> L) →
  ∃ s', update_task_status env task_id status s = (Returned task, s')
    ∧ holds st (<[i := task]> L) (disk s') ∧ _storage s' = Some st
    ∧ get_task env' task_id s' = (Returned task, s').
Proof.
  intros Hs Hh Hread Hg Hread' Hi Hold Hstr task Hrb.
  destruct (update_task_status_held env st s L task_id status i old)
    as (s' & Hup & Hh' & Hs' & Hi'); try done.
  exists s'. split; [done|split; [done|split; [done|]]].
  destruct (first_with_id_elim task_id _ i Hi') as (t & Ht & Heq & Hfirst).
  rewrite list_lookup_insert_eq in Ht by (by eapply lookup_lt_Some).
  injection Ht as <-.
  unfold get_task, op_bind. rewrite (get_storage_set env' s' st Hs').
  rewrite (lift_state _ s' st Hs').
  rewrite (get_by_id_held _ st _ (disk s')) by done.
  rewrite (find_first_with_id task_id _ i task);
    [by rewrite process_eta| |done|done].
  apply list_lookup_insert_eq. by eapply lookup_lt_Some.
Qed.

(** X20.  Completing a task and reopening it gives the store back as it
    was: for an active task without completion time, [update_task_status]
    with [Status.COMPLETED] and then with [Status.ACTIVE] returns the task
    as it was first, and the store holds the list it held. *)
Theorem complete_then_reopen env env' st s L task_id i old :
  _storage s = Some st → holds st L (disk s) →
  call_plan env 0 OpReadText = None → goes_through (call_plan env 1) →
  call_plan env' 0 OpReadText = None → goes_through (call_plan env' 1) →
  first_with_id task_id 0 L = Some i → L !! i = Some old →
  is_str (id old) = true →
  status old = StatusOf ACTIVE → completed_at old = JNull →
  reads_back (<[i := with_status old (StatusOf COMPLETED)
                       (JStr (now_isoformat (tick (disk s))))]> L) →
  ∃ s1 s2,
    update_task_status env task_id (StatusOf COMPLETED) s
    = (Returned (with_status old (StatusOf COMPLETED)
                   (JStr (now_isoformat (tick (disk s))))), s1)
    ∧ update_task_status env' task_id (StatusOf ACTIVE) s1
      = (Returned old, s2)
    ∧ holds st L (disk s2) ∧ _storage s2 = Some st.
Proof.
  intros Hs Hh Hread Hg Hread' Hg' Hi Hold Hstr Hst Hco Hrb.
  set (done_task := with_status old (StatusOf COMPLETED)
                      (JStr (now_isoformat (tick (disk s))))) in *.
  destruct (update_task_status_held env st s L task_id (StatusOf COMPLETED)
              i old) as (s1 & Hup & Hh1 & Hs1 & Hi1); try done.
  simpl in Hup, Hh1, Hi1. fold done_task in Hup, Hh1, Hi1.
  assert (with_status done_task (StatusOf ACTIVE) JNull = old) as Hback.
  { destruct old. simpl in *. subst. done. }
  assert (<[i := old]> (<[i := done_task]> L) = L) as Hlist.
  { rewrite list_insert_insert_eq. by apply list_insert_id. }
  destruct (update_task_status_held env' st s1 (<[i := done_task]> L) task_id
              (StatusOf ACTIVE) i done_task)
    as (s2 & Hup2 & Hh2 & Hs2 & _); try done.
  { apply list_lookup_insert_eq. by eapply lookup_lt_Some. }
  { simpl. rewrite Hback, Hlist. apply Hh. }
  simpl in Hup2, Hh2. rewrite Hback in Hup2, Hh2. rewrite Hlist in Hh2.
  by exists s1, s2.
Qed.

End Status.

(** ** [clear_completed_tasks] *)

Lemma py_eq_str_r a b : is_str b = true → py_eq a b = true → a = b.
Proof.
  destruct b as [| | |t| |]; try done. intros _.
  destruct a as [| | |s| |]; try done. simpl.
  intros Heq. apply String.eqb_eq in Heq. by subst.
Qed.

Lemma without_nil L : without [] L = L.
Proof.
  unfold without. simpl. induction L as [|t L IH]; [done|].
  simpl. by f_equal.
Qed.

Lemma without_cons c gone L :
  without (c :: gone) L
  = without gone (List.filter (fun t => py_ne (id t) (id c)) L).
Proof.
  unfold without. simpl. induction L as [|t L IH]; [done|]. simpl.
  destruct (py_ne (id t) (id c)); simpl; [|done].
  destruct (forallb _ gone); by rewrite IH.
Qed.

Lemma without_one c L :
  without [c] L = List.filter (fun t => py_ne (id t) (id c)) L.
Proof. by rewrite without_cons, without_nil. Qed.

Lemma has_id_intro t L :
  t ∈ L → py_eq (id t) (id t) = true → has_id (id t) L = true.
Proof.
  intros Hin Heq. unfold has_id. apply existsb_exists.
  exists t. split; [by apply list_elem_of_In | done].
Qed.

Lemma has_id_filter_other c c' L :
  is_str (id c) = true → is_str (id c') = true → id c' ≠ id c →
  has_id (id c') L = true →
  has_id (id c') (List.filter (fun t => py_ne (id t) (id c)) L) = true.
Proof.
  intros Hc Hc' Hne Hid. unfold has_id in *.
  apply existsb_exists in Hid as (t & Hin & Heq).
  apply existsb_exists. exists t. split; [|done].
  apply List.filter_In. split; [done|].
  apply py_eq_str_r in Heq; [|done]. rewrite Heq.
  unfold py_ne. destruct (py_eq (id c') (id c)) eqn:Hcc; [|done].
  apply py_eq_str in Hcc; [|done]. congruence.
Qed.

Lemma has_id_without c gone L :
  id c ∈ map id gone → has_id (id c) (without gone L) = false.
Proof.
  intros Hin. apply list_elem_of_fmap in Hin as (c' & Hid & Hin).
  unfold has_id. apply not_true_is_false. intros Hex.
  apply existsb_exists in Hex as (t & Ht & Heq).
  apply List.filter_In in Ht as [_ Hall].
  rewrite forallb_forall in Hall.
  specialize (Hall c'). rewrite <- list_elem_of_In in Hall.
  specialize (Hall Hin). unfold py_ne in Hall. rewrite <- Hid, Heq in Hall.
  done.
Qed.

Lemma filter_length_lt {A} (f : A → bool) (l : list A) x :
  x ∈ l → f x = false → length (List.filter f l) < length l.
Proof.
  induction l as [|y l IH]; [by intros ?%elem_of_nil|].
  intros Hin Hx. simpl. apply elem_of_cons in Hin as [<-|Hin].
  - rewrite Hx. pose proof (List.filter_length_le f l). lia.
  - specialize (IH Hin Hx). destruct (f y); simpl; lia.
Qed.

Section Clear.
Context `{Runtime} `{Calendar}.

Lemma remove_each_app env st pre rest n s :
  remove_each env st n (pre ++ rest) s
  = (remove_each env st n pre ;;~
     remove_each env st (n + length pre) rest) s.
Proof.
  revert n s. induction pre as [|c pre IH]; intros n s.
  - simpl. unfold op_bind, op_ret. by rewrite Nat.add_0_r.
  - simpl. unfold op_bind.
    destruct (lift _ s) as [[[]|e] s1]; [|done].
    rewrite IH. unfold op_bind.
    by replace (S n + length pre) with (n + S (length pre)) by lia.
Qed.

Lemma remove_each_held env st cs :
  ∀ n s L,
    _storage s = Some st → holds st L (disk s) →
    (∀ k, goes_through (call_plan env k)) →
    Forall (fun c => is_str (id c) = true) cs →
    NoDup (map id cs) →
    Forall (fun c => has_id (id c) L = true) cs →
    (∀ k, k ≤ length cs → reads_back (without (take k cs) L)) →
    ∃ s', remove_each env st n cs s = (Returned tt, s')
      ∧ holds st (without cs L) (disk s') ∧ _storage s' = Some st
      ∧ (cs = [] → s' = s).
Proof.
  induction cs as [|c cs IH]; intros n s L Hs Hh Hg Hstr Hnd Hid Hrb.
  - exists s. by rewrite without_nil.
  - apply Forall_cons in Hstr as [Hc Hstr].
    apply Forall_cons in Hid as [Hidc Hid].
    simpl in Hnd. apply NoDup_cons in Hnd as [Hnotin Hnd].
    destruct (remove_held (call_plan env n) st L (disk s) (id c))
      as (w1 & Hrem & Hh1 & _); try done.
    { rewrite <- without_one. apply (Hrb 1). simpl. lia. }
    destruct (IH (S n) (mkProcess w1 (Some st))
                (List.filter (fun t => py_ne (id t) (id c)) L))
      as (s' & Hrest & Hh' & Hs' & _); try done.
    { rewrite Forall_forall in Hid, Hstr |- *. intros c' Hin.
      apply has_id_filter_other; [done| by apply Hstr | | by apply Hid].
      intros Heq. apply Hnotin. rewrite <- Heq.
      apply list_elem_of_fmap. by exists c'. }
    { intros k Hk. rewrite <- without_cons.
      apply (Hrb (S k)). simpl. lia. }
    exists s'. rewrite without_cons. split; [|done].
    simpl. unfold op_bind. rewrite (lift_state _ s st Hs), Hrem. done.
Qed.

Lemma completed_in_list (L : list Task) c :
  c ∈ List.filter (fun t => status_eq (status t) (StatusOf COMPLETED)) L →
  c ∈ L ∧ status_eq (status c) (StatusOf COMPLETED) = true.
Proof. intros Hin. by apply list_elem_of_In, List.filter_In in Hin as [?%list_elem_of_In ?]. Qed.

Lemma clear_completed_unfold env st s L :
  _storage s = Some st → holds st L (disk s) →
  call_plan env 0 OpReadText = None →
  clear_completed_tasks env s
  = (let completed_tasks :=
       List.filter (fun t => status_eq (status t) (StatusOf COMPLETED)) L in
     remove_each env st 1 completed_tasks ;;~
     op_ret (length completed_tasks)) s.
Proof.
  intros Hs Hh Hread. unfold clear_completed_tasks. unfold op_bind at 1.
  rewrite (get_storage_set env s st Hs). unfold op_bind at 1.
  rewrite (lift_state _ s st Hs), get_all_load.
  rewrite (holds_load _ st L (disk s) Hh Hread).
  by rewrite process_eta.
Qed.

(** X21.  [clear_completed_tasks], when the completed tasks have IDs that
    are strings and differ: it returns their number, and the store then
    holds the tasks that have the ID of no completed task (an active task
    that shares its ID with a completed one is gone too, and is not
    counted); no completed task is left.  When no task is completed it
    returns 0 and has changed nothing. *)
Theorem clear_completed_tasks_removes env st s L :
  _storage s = Some st → holds st L (disk s) →
  (∀ n, goes_through (call_plan env n)) →
  let completed_tasks :=
    List.filter (fun t => status_eq (status t) (StatusOf COMPLETED)) L in
  Forall (fun c => is_str (id c) = true) completed_tasks →
  NoDup (map id completed_tasks) →
  (∀ k, k ≤ length completed_tasks →
        reads_back (without (take k completed_tasks) L)) →
  ∃ s', clear_completed_tasks env s
        = (Returned (length completed_tasks), s')
    ∧ holds st (without completed_tasks L) (disk s')
    ∧ Forall (fun t => status_eq (status t) (StatusOf COMPLETED) = false)
        (without completed_tasks L)
    ∧ (completed_tasks = [] → s' = s).
Proof.
  intros Hs Hh Hg completed_tasks Hstr Hnd Hrb.
  destruct (remove_each_held env st completed_tasks 1 s L)
    as (s' & Hrem & Hh' & Hs' & Hnil); try done.
  { rewrite Forall_forall in Hstr |- *. intros c Hin.
    apply has_id_intro; [by apply completed_in_list in Hin as [? _]|].
    by apply py_eq_str_refl, Hstr. }
  exists s'. split; [|split; [done|split; [|done]]].
  - rewrite (clear_completed_unfold env st s L) by (done || apply Hg).
    cbv zeta. fold completed_tasks. unfold op_bind. by rewrite Hrem.
  - apply Forall_forall. intros t Hin.
    apply list_elem_of_In, List.filter_In in Hin as [Hin Hall].
    destruct (status_eq (status t) (StatusOf COMPLETED)) eqn:Hst; [|done].
    assert (t ∈ completed_tasks) as Hc.
    { apply list_elem_of_In, List.filter_In. by split. }
    rewrite forallb_forall in Hall. specialize (Hall t).
    rewrite <- list_elem_of_In in Hall. specialize (Hall Hc).
    rewrite Forall_forall in Hstr. specialize (Hstr t Hc).
    unfold py_ne in Hall. by rewrite py_eq_str_refl in Hall.
Qed.

(** X22.  [clear_completed_tasks] stops half-way when two completed tasks
    share an ID: the tasks with the IDs before the repeated one have been
    removed (the one with the repeated ID among them), the removal of the
    second of the two raises [TaskNotFoundError], which reaches the caller,
    and the store holds fewer tasks than it held. *)
Theorem clear_completed_tasks_shared_id env st s L pre c post :
  _storage s = Some st → holds st L (disk s) →
  (∀ n, goes_through (call_plan env n)) →
  List.filter (fun t => status_eq (status t) (StatusOf COMPLETED)) L
  = pre ++ c :: post →
  Forall (fun c => is_str (id c) = true) pre →
  NoDup (map id pre) → id c ∈ map id pre →
  (∀ k, k ≤ length pre → reads_back (without (take k pre) L)) →
  ∃ s', clear_completed_tasks env s
        = (Failed (Raised (TaskNotFoundError
                             ("Task with ID " +:+ py_str (id c)
                              +:+ " not found"))), s')
    ∧ holds st (without pre L) (disk s')
    ∧ length (without pre L) < length L.
Proof.
  intros Hs Hh Hg Hcompleted Hstr Hnd Hin Hrb.
  assert (∀ c', c' ∈ pre → c' ∈ L) as Hsub.
  { intros c' Hc'. eapply completed_in_list. rewrite Hcompleted.
    apply elem_of_app. by left. }
  destruct (remove_each_held env st pre 1 s L)
    as (s1 & Hrem & Hh1 & Hs1 & _); try done.
  { rewrite Forall_forall in Hstr |- *. intros c' Hc'.
    apply has_id_intro; [by apply Hsub|].
    by apply py_eq_str_refl, Hstr. }
  exists s1. split; [|split; [done|]].
  - rewrite (clear_completed_unfold env st s L) by (done || apply Hg).
    cbv zeta. rewrite Hcompleted. unfold op_bind at 1.
    rewrite remove_each_app. unfold op_bind at 1. rewrite Hrem.
    simpl. unfold op_bind at 1.
    rewrite (lift_state _ s1 st Hs1).
    rewrite (remove_absent_held _ st (without pre L) (disk s1));
      [by rewrite process_eta | done | apply Hg | by apply has_id_without].
  - destruct pre as [|p pre]; [by apply elem_of_nil in Hin|].
    apply (filter_length_lt _ L p); [apply Hsub; by left|].
    apply Forall_cons in Hstr as [Hp _]. simpl. unfold py_ne.
    by rewrite py_eq_str_refl.
Qed.

End Clear.

(** ** The sort of [list_tasks] *)

Section SortFacts.
Context {K A : Type}.
Variable lt : K → K → option bool.
Variable reverse : bool.

Lemma insert_sorted_perm (x : K * A) ys :
  insert_sorted lt reverse x ys ≡ₚ x :: ys.
Proof.
  induction ys as [|y ys IH]; [done|]. simpl.
  destruct (goes_before lt reverse y x); [|done].
  rewrite IH. apply Permutation_swap.
Qed.

Lemma sort_perm (xs : list (K * A)) :
  foldr (insert_sorted lt reverse) [] xs ≡ₚ xs.
Proof.
  induction xs as [|x xs IH]; [done|]. simpl.
  rewrite insert_sorted_perm. by rewrite IH.
Qed.

Lemma py_sort_perm (keyed : list (K * A)) (r : list A) :
  py_sort lt reverse keyed = Some r → r ≡ₚ map snd keyed.
Proof.
  unfold py_sort. destruct (comparable _ _); [|done].
  intros [= <-]. apply fmap_Permutation, sort_perm.
Qed.

(** Elements of which none has to come before another keep their order. *)
Lemma insert_sorted_stable (f : K * A → bool) x ys :
  (∀ a b, f a = true → f b = true → goes_before lt reverse a b = false) →
  List.filter f (insert_sorted lt reverse x ys) = List.filter f (x :: ys).
Proof.
  intros Hf. induction ys as [|y ys IH]; [done|]. simpl in *.
  destruct (goes_before lt reverse y x) eqn:Hb; [|done]. simpl.
  rewrite IH.
  destruct (f x) eqn:Hx, (f y) eqn:Hy; try done.
  by rewrite (Hf y x) in Hb.
Qed.

Lemma sort_stable (f : K * A → bool) xs :
  (∀ a b, f a = true → f b = true → goes_before lt reverse a b = false) →
  List.filter f (foldr (insert_sorted lt reverse) [] xs) = List.filter f xs.
Proof.
  intros Hf. induction xs as [|x xs IH]; [done|]. simpl.
  rewrite insert_sorted_stable by done. simpl. by rewrite IH.
Qed.

(** The order of the keys of a list on which [lt] is the strict part of
    a total preorder. *)
Variable P : K * A → Prop.
Hypothesis asym :
  ∀ x y, P x → P y →
    goes_before lt reverse y x = true → goes_before lt reverse x y = false.
Hypothesis trans :
  ∀ x y z, P x → P y → P z →
    goes_before lt reverse y x = false → goes_before lt reverse z y = false →
    goes_before lt reverse z x = false.

Lemma insert_sorted_Forall (Q : K * A → Prop) x ys :
  Q x → Forall Q ys → Forall Q (insert_sorted lt reverse x ys).
Proof.
  intros Hx Hys. eapply Forall_forall. intros z Hz.
  rewrite insert_sorted_perm in Hz.
  apply elem_of_cons in Hz as [->|Hz]; [done|].
  rewrite Forall_forall in Hys. by apply Hys.
Qed.

Lemma insert_sorted_sorted x ys :
  P x → Forall P ys →
  StronglySorted (fun a b => goes_before lt reverse b a = false) ys →
  StronglySorted (fun a b => goes_before lt reverse b a = false)
    (insert_sorted lt reverse x ys).
Proof using asym trans.
  intros Hx HP Hs. induction Hs as [|y ys Hs IH Hy]; simpl.
  - repeat constructor.
  - apply Forall_cons in HP as [HPy HP].
    destruct (goes_before lt reverse y x) eqn:Hb.
    + constructor; [by apply IH|].
      apply insert_sorted_Forall; [by apply asym | done].
    + constructor; [by constructor|].
      constructor; [done|].
      rewrite Forall_forall in Hy, HP |- *. intros z Hz.
      apply (trans x y z); [done | done | by apply HP | done | by apply Hy].
Qed.

Lemma sort_sorted xs :
  Forall P xs →
  StronglySorted (fun a b => goes_before lt reverse b a = false)
    (foldr (insert_sorted lt reverse) [] xs).
Proof using asym trans.
  induction 1 as [|x xs Hx HP IH]; simpl; [constructor|].
  apply insert_sorted_sorted; [done| |done].
  eapply Forall_forall. intros z Hz. rewrite sort_perm in Hz.
  rewrite Forall_forall in HP. by apply HP.
Qed.

End SortFacts.

Lemma StronglySorted_impl_Forall {A} (Q : A → Prop) (R1 R2 : A → A → Prop) l :
  Forall Q l → (∀ a b, Q a → Q b → R1 a b → R2 a b) →
  StronglySorted R1 l → StronglySorted R2 l.
Proof.
  intros HQ Himpl Hs. induction Hs as [|a l Hs IH Ha]; [constructor|].
  apply Forall_cons in HQ as [Hqa HQ].
  constructor; [by apply IH|].
  rewrite Forall_forall in Ha, HQ |- *. intros b Hb.
  apply Himpl; [done | by apply HQ | by apply Ha].
Qed.

Lemma StronglySorted_map {A B} (f : A → B) (R : B → B → Prop) l :
  StronglySorted (fun a b => R (f a) (f b)) l → StronglySorted R (map f l).
Proof.
  induction 1 as [|a l Hs IH Ha]; simpl; [constructor|].
  constructor; [done|]. by apply Forall_fmap.
Qed.

Lemma filter_map_snd {K A} (f : A → bool) (l : list (K * A)) :
  List.filter f (map snd l) = map snd (List.filter (fun kt => f (snd kt)) l).
Proof.
  induction l as [|[k a] l IH]; [done|]. simpl.
  destruct (f a); simpl; by rewrite IH.
Qed.

Lemma filter_ext_Forall {A} (f g : A → bool) (l : list A) :
  Forall (fun a => f a = g a) l → List.filter f l = List.filter g l.
Proof.
  induction 1 as [|a l Ha _ IH]; [done|]. simpl. by rewrite Ha, IH.
Qed.

(** The sort of items by a key that is a function of the item *)
Section KeyedSort.
Context {K A : Type}.
Variable lt : K → K → option bool.
Variable reverse : bool.
Variable key : A → K.

Lemma keyed_members (xs : list A) :
  Forall (fun kt : K * A => fst kt = key (snd kt))
    (foldr (insert_sorted lt reverse) [] (map (fun t => (key t, t)) xs)).
Proof.
  eapply Forall_forall. intros kt Hin. rewrite sort_perm in Hin.
  apply list_elem_of_fmap in Hin as (t & -> & _). done.
Qed.

Lemma py_sort_keyed_perm xs r :
  py_sort lt reverse (map (fun t => (key t, t)) xs) = Some r → r ≡ₚ xs.
Proof.
  intros Hs. apply py_sort_perm in Hs. rewrite Hs.
  rewrite map_map. simpl. by rewrite map_id.
Qed.

Lemma py_sort_keyed_stable (f : K → bool) xs r :
  py_sort lt reverse (map (fun t => (key t, t)) xs) = Some r →
  (∀ k k', f k = true → f k' = true →
     default false (if reverse then lt k' k else lt k k') = false) →
  List.filter (fun t => f (key t)) r = List.filter (fun t => f (key t)) xs.
Proof.
  unfold py_sort. destruct (comparable _ _); [|done].
  intros [= <-] Hf. rewrite filter_map_snd.
  rewrite (filter_ext_Forall _ (fun kt => f (fst kt))).
  2:{ eapply Forall_impl; [apply keyed_members|].
      intros kt Hkt. simpl in Hkt. by rewrite Hkt. }
  rewrite (sort_stable lt reverse (fun kt => f (fst kt))).
  2:{ intros a b Ha Hb. unfold goes_before. by apply Hf. }
  induction xs as [|x xs IH]; [done|]. simpl.
  destruct (f (key x)); simpl; by rewrite IH.
Qed.

Lemma py_sort_keyed_sorted (P : K → Prop) xs r :
  (∀ k k', P k → P k' →
     default false (if reverse then lt k' k else lt k k') = true →
     default false (if reverse then lt k k' else lt k' k) = false) →
  (∀ k1 k2 k3, P k1 → P k2 → P k3 →
     default false (if reverse then lt k1 k2 else lt k2 k1) = false →
     default false (if reverse then lt k2 k3 else lt k3 k2) = false →
     default false (if reverse then lt k1 k3 else lt k3 k1) = false) →
  Forall (fun t => P (key t)) xs →
  py_sort lt reverse (map (fun t => (key t, t)) xs) = Some r →
  StronglySorted
    (fun a b =>
       default false (if reverse then lt (key a) (key b)
                      else lt (key b) (key a)) = false) r.
Proof.
  intros Hasym Htrans HP. unfold py_sort.
  destruct (comparable _ _); [|done]. intros [= <-].
  apply StronglySorted_map.
  eapply (StronglySorted_impl_Forall
            (fun kt : K * A => fst kt = key (snd kt))
            (fun a b => goes_before lt reverse b a = false));
    [apply keyed_members| |].
  - intros a b Ha Hb. unfold goes_before. by rewrite Ha, Hb.
  - apply (sort_sorted lt reverse (fun kt => P (fst kt))).
    + intros x y Hx Hy. unfold goes_before. by apply Hasym.
    + intros x y z Hx Hy Hz. unfold goes_before. by apply Htrans.
    + apply Forall_fmap. eapply Forall_impl; [exact HP|]. done.
Qed.

End KeyedSort.

(** ** The order of strings *)

Lemma string_compare_refl s : String.compare s s = Eq.
Proof.
  induction s as [|a s IH]; [done|]. simpl.
  unfold Ascii.compare. by rewrite N.compare_refl.
Qed.

Lemma string_ltb_irrefl s : String.ltb s s = false.
Proof. unfold String.ltb. by rewrite string_compare_refl. Qed.

Lemma string_ltb_asym s t : String.ltb s t = true → String.ltb t s = false.
Proof.
  unfold String.ltb. rewrite (String.compare_antisym t s).
  by destruct (String.compare s t).
Qed.

Lemma string_compare_trans c s t u :
  String.compare s t = c → String.compare t u = c → String.compare s u = c.
Proof.
  revert t u. induction s as [|a s IH]; intros [|b t] [|d u]; simpl;
    try congruence.
  unfold Ascii.compare.
  destruct (N.compare (N_of_ascii a) (N_of_ascii b)) eqn:Hab;
    destruct (N.compare (N_of_ascii b) (N_of_ascii d)) eqn:Hbd;
    destruct (N.compare (N_of_ascii a) (N_of_ascii d)) eqn:Had;
    try (intros; congruence); try apply IH; exfalso;
    try apply N.compare_eq_iff in Hab; try apply N.compare_eq_iff in Hbd;
    try apply N.compare_eq_iff in Had;
    rewrite ?N.compare_lt_iff, ?N.compare_gt_iff in *; lia.
Qed.

(** [s >= t] and [t >= u] give [s >= u] *)
Lemma string_ltb_negtrans s t u :
  String.ltb s t = false → String.ltb t u = false → String.ltb s u = false.
Proof.
  unfold String.ltb.
  destruct (String.compare s t) eqn:Hst; try done;
    destruct (String.compare t u) eqn:Htu; try done; intros _ _.
  - apply String.compare_eq_iff in Hst, Htu. subst.
    by rewrite string_compare_refl.
  - apply String.compare_eq_iff in Hst. subst. by rewrite Htu.
  - apply String.compare_eq_iff in Htu. subst. by rewrite Hst.
  - by rewrite (string_compare_trans Gt s t u).
Qed.

(** ** [list_tasks] *)

Lemma filter_status_string x (tasks : list Task) :
  Forall (fun t => normalised t = true) tasks →
  List.filter (fun t => status_eq (status t) (StatusRaw (JStr x))) tasks = [].
Proof.
  induction 1 as [|t tasks Ht _ IH]; [done|]. simpl. rewrite IH.
  unfold normalised in Ht. apply andb_true_iff in Ht as [_ Hst].
  destruct (status t) as [[]|v]; try done. by destruct v.
Qed.

Lemma filter_priority_string x (tasks : list Task) :
  Forall (fun t => normalised t = true) tasks →
  List.filter (fun t => priority_eq (priority t) (PriorityRaw (JStr x))) tasks
  = [].
Proof.
  induction 1 as [|t tasks Ht _ IH]; [done|]. simpl. rewrite IH.
  unfold normalised in Ht. apply andb_true_iff in Ht as [Ht _].
  apply andb_true_iff in Ht as [_ Hpr].
  destruct (priority t) as [[]|v]; try done. by destruct v.
Qed.

Lemma Forall_filter_keeps {A} (P : A → Prop) (f : A → bool) l :
  Forall P l → Forall P (List.filter f l).
Proof.
  intros HP. apply Forall_forall. intros a Ha.
  apply list_elem_of_In, List.filter_In in Ha as [Ha _].
  rewrite Forall_forall in HP. by apply HP, list_elem_of_In.
Qed.

Section ListTasksFacts.
Context `{Runtime} `{Calendar}.

Lemma list_tasks_sorts_nothing sort_by s :
  (if py_eq sort_by (JStr "created_at")
   then sorted (py_sort py_lt true (map (fun t => (created_at t, t)) []))
   else if py_eq sort_by (JStr "due_date")
   then sorted (py_sort pair_lt false
                  (map (fun t => ((is_none (due_date t),
                                   if truthy (due_date t) then due_date t
                                   else JStr EmptyString), t)) []))
   else if py_eq sort_by (JStr "priority")
   then keyed <~ lift (for_each (fun t => k <- priority_order (priority t) ;;
                                          ret (k, t)) []) ;;
        sorted (py_sort int_lt false keyed)
   else op_ret []) s
  = (Returned [], s).
Proof.
  destruct s as [w st].
  by repeat case_match.
Qed.

(** X23.  A filter that is a string selects nothing: whatever the file
    holds, [list_tasks] with a status filter or a priority filter that is
    a string (['active'], ['high'], as the command line passes them)
    fails as [get_all] fails, and returns the empty list whenever
    [get_all] returns, for every [sort_by]: the attributes of a loaded
    task are members of the enumerations, and no member equals a
    string. *)
Theorem list_tasks_string_filter env status_filter priority_filter sort_by
    x s :
  let nothing :=
    (storage <~ _get_storage env ;;
     lift (get_all (call_plan env 0) storage) ;;~
     op_ret []) s in
  list_tasks env (Some (StatusRaw (JStr x))) priority_filter sort_by s
  = nothing
  ∧ list_tasks env status_filter (Some (PriorityRaw (JStr x))) sort_by s
    = nothing.
Proof.
  cbv zeta. unfold list_tasks, op_bind.
  destruct (_get_storage env s) as [[storage|e] s1]; [|by split].
  unfold lift.
  destruct (get_all (call_plan env 0) storage (disk s1)) as [[tasks|e] w]
    eqn:Hg; [|by split].
  assert (Forall (fun t => normalised t = true) tasks) as Hn.
  { rewrite get_all_load in Hg. by eapply load_normalised. }
  split.
  - rewrite filter_status_string by done.
    assert (match priority_filter with
            | Some priority_filter =>
                List.filter
                  (fun t => priority_eq (priority t) priority_filter) []
            | None => @nil Task
            end = []) as -> by (by destruct priority_filter).
    apply list_tasks_sorts_nothing.
  - rewrite filter_priority_string.
    + apply list_tasks_sorts_nothing.
    + destruct status_filter; [by apply Forall_filter_keeps | done].
Qed.

Lemma list_tasks_held env st s L status_filter priority_filter sort_by :
  _storage s = Some st → holds st L (disk s) →
  call_plan env 0 OpReadText = None →
  list_tasks env status_filter priority_filter sort_by s
  = (let tasks := chosen status_filter priority_filter L in
     if py_eq sort_by (JStr "created_at")
     then sorted (py_sort py_lt true (map (fun t => (created_at t, t)) tasks))
     else if py_eq sort_by (JStr "due_date")
     then sorted (py_sort pair_lt false
                    (map (fun t => ((is_none (due_date t),
                                     if truthy (due_date t) then due_date t
                                     else JStr EmptyString), t)) tasks))
     else if py_eq sort_by (JStr "priority")
     then keyed <~ lift (for_each
                           (fun t => k <- priority_order (priority t) ;;
                                     ret (k, t)) tasks) ;;
          sorted (py_sort int_lt false keyed)
     else op_ret tasks) s.
Proof.
  intros Hs Hh Hread. unfold list_tasks. unfold op_bind at 1.
  rewrite (get_storage_set env s st Hs). unfold op_bind at 1.
  rewrite (lift_state _ s st Hs), get_all_load.
  rewrite (holds_load _ st L (disk s) Hh Hread).
  by rewrite process_eta.
Qed.

Lemma comparable_strings ks :
  Forall (fun k => is_str k = true) ks → comparable py_lt ks = true.
Proof.
  induction 1 as [|k ks Hk Hks IH]; [done|]. simpl. rewrite IH.
  rewrite andb_true_r. apply forallb_forall. intros k' Hin.
  rewrite Forall_forall in Hks. apply list_elem_of_In, Hks in Hin.
  destruct k; try done. by destruct k'.
Qed.

(** X24.  [list_tasks] in its default order, on tasks whose creation
    times are strings: it returns the tasks that the filters let through,
    all of them and no other, newest first by the order of the strings,
    tasks with the same creation time in the order they are stored in;
    it writes nothing and draws nothing. *)
Theorem list_tasks_newest_first env st s L status_filter priority_filter :
  _storage s = Some st → holds st L (disk s) →
  call_plan env 0 OpReadText = None →
  Forall (fun t => is_str (created_at t) = true)
    (chosen status_filter priority_filter L) →
  ∃ r, list_tasks env status_filter priority_filter (JStr "created_at") s
       = (Returned r, s)
    ∧ r ≡ₚ chosen status_filter priority_filter L
    ∧ StronglySorted
        (fun a b => py_lt (created_at a) (created_at b) = Some false) r
    ∧ ∀ c, List.filter (fun t => py_eq (created_at t) (JStr c)) r
           = List.filter (fun t => py_eq (created_at t) (JStr c))
               (chosen status_filter priority_filter L).
Proof.
  intros Hs Hh Hread Hstr.
  rewrite (list_tasks_held env st s L) by done. cbv zeta.
  set (tasks := chosen status_filter priority_filter L) in *.
  change (py_eq (JStr "created_at") (JStr "created_at")) with true.
  cbv iota.
  destruct (py_sort py_lt true (map (fun t => (created_at t, t)) tasks))
    as [r|] eqn:Hsort.
  2:{ unfold py_sort in Hsort. rewrite map_map in Hsort. simpl in Hsort.
      rewrite comparable_strings in Hsort; [done|].
      by apply Forall_fmap. }
  exists r. split; [done|].
  pose proof (py_sort_keyed_perm py_lt true created_at tasks r Hsort) as Hperm.
  split; [done|]. split.
  - eapply (StronglySorted_impl_Forall
              (fun t => is_str (created_at t) = true));
      [by rewrite Hperm| |].
    2:{ apply (py_sort_keyed_sorted py_lt true created_at
                 (fun k => is_str k = true) tasks r); [| |done|done].
        - intros k k' Hk Hk'. destruct k; try done. destruct k'; try done.
          simpl. apply string_ltb_asym.
        - intros k1 k2 k3 H1 H2 H3.
          destruct k1; try done. destruct k2; try done.
          destruct k3; try done. simpl. apply string_ltb_negtrans. }
    intros a b Ha Hb. simpl.
    destruct (created_at a); try done. destruct (created_at b); try done.
    simpl. by intros ->.
  - intros c.
    apply (py_sort_keyed_stable py_lt true created_at
             (fun k => py_eq k (JStr c)) tasks r Hsort).
    intros k k' Hk Hk'.
    apply py_eq_str_r in Hk; [|done]. apply py_eq_str_r in Hk'; [|done].
    subst. simpl. apply string_ltb_irrefl.
Qed.

Lemma pair_lt_str b1 s1 b2 s2 :
  pair_lt (b1, JStr s1) (b2, JStr s2)
  = Some (if Bool.eqb b1 b2 then String.ltb s1 s2 else negb b1 && b2).
Proof.
  unfold pair_lt. simpl. destruct (Bool.eqb b1 b2); [|done].
  destruct (String.eqb_spec s1 s2); [|done].
  subst. by rewrite string_ltb_irrefl.
Qed.

Lemma comparable_pairs (ks : list (bool * json)) :
  Forall (fun k => is_str (snd k) = true) ks → comparable pair_lt ks = true.
Proof.
  induction 1 as [|k ks Hk Hks IH]; [done|]. simpl. rewrite IH.
  rewrite andb_true_r. apply forallb_forall. intros k' Hin.
  rewrite Forall_forall in Hks. apply list_elem_of_In, Hks in Hin.
  destruct k as [b v], k' as [b' v']. simpl in *.
  destruct v; try done. destruct v'; try done.
  by rewrite !pair_lt_str.
Qed.

Lemma due_key_str d :
  is_optional_str d = true →
  is_str (if truthy d then d else JStr EmptyString) = true.
Proof. destruct d; try done. simpl. by destruct (negb _). Qed.

(** X25.  [list_tasks] by due date, on tasks whose due dates are [None]
    or strings: it returns the tasks that the filters let through, all of
    them and no other, those with a due date first, by the order of the
    strings, and those without after them; tasks with the same due date,
    and the tasks without one, are in the order they are stored in. *)
Theorem list_tasks_by_due_date env st s L status_filter priority_filter :
  _storage s = Some st → holds st L (disk s) →
  call_plan env 0 OpReadText = None →
  Forall (fun t => is_optional_str (due_date t) = true)
    (chosen status_filter priority_filter L) →
  ∃ r, list_tasks env status_filter priority_filter (JStr "due_date") s
       = (Returned r, s)
    ∧ r ≡ₚ chosen status_filter priority_filter L
    ∧ StronglySorted due_order r
    ∧ (∀ c, List.filter (fun t => py_eq (due_date t) (JStr c)) r
            = List.filter (fun t => py_eq (due_date t) (JStr c))
                (chosen status_filter priority_filter L))
    ∧ List.filter (fun t => is_none (due_date t)) r
      = List.filter (fun t => is_none (due_date t))
          (chosen status_filter priority_filter L).
Proof.
  intros Hs Hh Hread Hstr.
  rewrite (list_tasks_held env st s L) by done. cbv zeta.
  set (tasks := chosen status_filter priority_filter L) in *.
  change (py_eq (JStr "due_date") (JStr "created_at")) with false.
  change (py_eq (JStr "due_date") (JStr "due_date")) with true.
  cbv iota.
  set (key := fun t : Task =>
                (is_none (due_date t),
                 if truthy (due_date t) then due_date t
                 else JStr EmptyString)).
  match goal with |- context [py_sort pair_lt false ?l] =>
    change l with (map (fun t => (key t, t)) tasks) end.
  assert (Forall (fun t => is_str (snd (key t)) = true) tasks) as Hkeys.
  { eapply Forall_impl; [exact Hstr|]. intros t Ht. by apply due_key_str. }
  destruct (py_sort pair_lt false (map (fun t => (key t, t)) tasks))
    as [r|] eqn:Hsort.
  2:{ unfold py_sort in Hsort. rewrite map_map in Hsort. simpl in Hsort.
      rewrite comparable_pairs in Hsort; [done|].
      by apply Forall_fmap. }
  exists r. split; [done|].
  pose proof (py_sort_keyed_perm pair_lt false key tasks r Hsort) as Hperm.
  assert (Forall (fun t => is_optional_str (due_date t) = true) r) as Hr
    by (by rewrite Hperm).
  split; [done|]. split; [|split].
  - eapply (StronglySorted_impl_Forall
              (fun t => is_optional_str (due_date t) = true));
      [exact Hr| |].
    2:{ apply (py_sort_keyed_sorted pair_lt false key
                 (fun k => is_str (snd k) = true) tasks r); [| |done|done].
        - intros [b v] [b' v'] Hk Hk'. simpl in Hk, Hk'.
          destruct v; try done. destruct v'; try done.
          rewrite !pair_lt_str. simpl.
          destruct b, b'; simpl; try done; apply string_ltb_asym.
        - intros [b1 v1] [b2 v2] [b3 v3] H1 H2 H3. simpl in H1, H2, H3.
          destruct v1; try done. destruct v2; try done.
          destruct v3; try done. rewrite !pair_lt_str. simpl.
          destruct b1, b2, b3; simpl; try done;
            intros ? ?; by eapply string_ltb_negtrans. }
    intros a b Ha Hb. unfold due_order, key. simpl.
    destruct (due_date a) as [| | |x| |]; try done;
      destruct (due_date b) as [| | |y| |]; try done; simpl.
    all: repeat match goal with
                | |- context [String.eqb ?z EmptyString] =>
                    destruct (String.eqb_spec z EmptyString); subst
                end; simpl; rewrite ?pair_lt_str; simpl; try done.
  - intros c.
    pose proof (py_sort_keyed_stable pair_lt false key
                  (fun k => negb (fst k) && py_eq (snd k) (JStr c)) tasks r
                  Hsort) as Hst.
    rewrite (filter_ext_Forall _ (fun t => negb (fst (key t))
                                           && py_eq (snd (key t)) (JStr c))
               r).
    2:{ eapply Forall_impl; [exact Hr|]. intros t. unfold key. simpl.
        destruct (due_date t) as [| | |x| |]; try done. simpl. intros _.
        destruct (String.eqb_spec x EmptyString); by subst. }
    rewrite (filter_ext_Forall (fun t => py_eq (due_date t) (JStr c))
               (fun t => negb (fst (key t)) && py_eq (snd (key t)) (JStr c))
               tasks).
    2:{ eapply Forall_impl; [exact Hstr|]. intros t. unfold key. simpl.
        destruct (due_date t) as [| | |x| |]; try done. simpl. intros _.
        destruct (String.eqb_spec x EmptyString); by subst. }
    apply Hst. intros [b v] [b' v'] Hk Hk'. simpl in Hk, Hk'.
    apply andb_true_iff in Hk as [Hb Hv]. apply andb_true_iff in Hk' as [Hb' Hv'].
    apply py_eq_str_r in Hv; [|done]. apply py_eq_str_r in Hv'; [|done].
    subst. rewrite pair_lt_str. destruct b, b'; try done. simpl.
    apply string_ltb_irrefl.
  - pose proof (py_sort_keyed_stable pair_lt false key
                  (fun k => fst k && py_eq (snd k) (JStr EmptyString)) tasks r
                  Hsort) as Hst.
    assert (∀ l : list Task,
              List.filter (fun t => is_none (due_date t)) l
              = List.filter
                  (fun t => fst (key t)
                            && py_eq (snd (key t)) (JStr EmptyString)) l)
      as Hext.
    { intros l. apply filter_ext_Forall, Forall_forall. intros t _.
      unfold key. simpl. by destruct (due_date t). }
    rewrite !Hext. apply Hst.
    intros [b v] [b' v'] Hk Hk'. simpl in Hk, Hk'.
    apply andb_true_iff in Hk as [Hb Hv].
    apply andb_true_iff in Hk' as [Hb' Hv'].
    apply py_eq_str_r in Hv; [|done]. apply py_eq_str_r in Hv'; [|done].
    subst. by rewrite pair_lt_str.
Qed.

Lemma for_each_cons_return {A B} (f : A → M B) x r w y w' :
  f x w = (Return y, w') →
  for_each f (x :: r) w
  = match for_each f r w' with
    | (Return ys, w'') => (Return (y :: ys), w'')
    | (Raise e, w'') => (Raise e, w'')
    end.
Proof.
  intros Hx. cbn [for_each]. unfold bind at 1. rewrite Hx.
  unfold bind, ret. by destruct (for_each f r w') as [[ys|e] w''].
Qed.

Lemma for_each_cons_raise {A B} (f : A → M B) x r w e w' :
  f x w = (Raise e, w') → for_each f (x :: r) w = (Raise e, w').
Proof. intros Hx. cbn [for_each]. unfold bind at 1. by rewrite Hx. Qed.

Lemma priority_key_member (t : Task) w :
  member_priority t = true →
  (k <- priority_order (priority t) ;; ret (k, t)) w
  = (Return (priority_rank t, t), w).
Proof.
  unfold member_priority, priority_rank.
  by destruct (priority t) as [[]|].
Qed.

Lemma priority_key_raw (t : Task) w :
  member_priority t = false →
  ∃ e, (k <- priority_order (priority t) ;; ret (k, t)) w = (Raise e, w)
    ∧ (e = TypeError ∨ ∃ k, e = KeyError k).
Proof.
  unfold member_priority.
  destruct (priority t) as [|v]; [done|]. intros _.
  destruct v; eexists; (split; [reflexivity|]); eauto.
Qed.

Lemma priority_keys_members (tasks : list Task) w :
  Forall (fun t => member_priority t = true) tasks →
  for_each (fun t => k <- priority_order (priority t) ;; ret (k, t)) tasks w
  = (Return (map (fun t => (priority_rank t, t)) tasks), w).
Proof.
  induction 1 as [|t tasks Ht _ IH]; [done|].
  rewrite (for_each_cons_return _ t tasks w (priority_rank t, t) w)
    by (by apply priority_key_member).
  by rewrite IH.
Qed.

Lemma priority_keys_raise (tasks : list Task) w :
  Exists (fun t => member_priority t = false) tasks →
  ∃ e, for_each (fun t => k <- priority_order (priority t) ;; ret (k, t))
         tasks w = (Raise e, w)
    ∧ (e = TypeError ∨ ∃ k, e = KeyError k).
Proof.
  induction tasks as [|t tasks IH]; [by intros ?%Exists_nil|].
  intros Hex. destruct (member_priority t) eqn:Ht.
  - apply Exists_cons in Hex as [Hex|Hex]; [congruence|].
    destruct (IH Hex) as (e & He & Hk). exists e. split; [|done].
    rewrite (for_each_cons_return _ t tasks w (priority_rank t, t) w)
      by (by apply priority_key_member).
    by rewrite He.
  - destruct (priority_key_raw t w Ht) as (e & He & Hk).
    exists e. split; [|done]. by apply for_each_cons_raise.
Qed.

Lemma comparable_ints ks : comparable int_lt ks = true.
Proof.
  induction ks as [|k ks IH]; [done|]. simpl. rewrite IH, andb_true_r.
  by apply forallb_forall.
Qed.

(** X26.  [list_tasks] by priority.  When the priority of every task that
    the filters let through is a member of the enumeration, it returns
    these tasks, all of them and no other, HIGH before MEDIUM before LOW,
    tasks of the same priority in the order they are stored in.  When one
    of them has a priority that is no member (the file says [null], a
    number, a list), the call raises [KeyError], or [TypeError] for a
    priority that cannot be a key, and returns no list. *)
Theorem list_tasks_by_priority env st s L status_filter priority_filter :
  _storage s = Some st → holds st L (disk s) →
  call_plan env 0 OpReadText = None →
  let tasks := chosen status_filter priority_filter L in
  (Forall (fun t => member_priority t = true) tasks →
   ∃ r, list_tasks env status_filter priority_filter (JStr "priority") s
        = (Returned r, s)
     ∧ r ≡ₚ tasks
     ∧ StronglySorted
         (fun a b => (priority_rank a <= priority_rank b)%Z) r
     ∧ ∀ p, List.filter (fun t => priority_eq (priority t) (PriorityOf p)) r
            = List.filter (fun t => priority_eq (priority t) (PriorityOf p))
                tasks)
  ∧ (Exists (fun t => member_priority t = false) tasks →
     ∃ e, list_tasks env status_filter priority_filter (JStr "priority") s
          = (Failed (Raised e), s)
       ∧ (e = TypeError ∨ ∃ k, e = KeyError k)).
Proof.
  intros Hs Hh Hread tasks.
  rewrite (list_tasks_held env st s L) by done. cbv zeta. fold tasks.
  change (py_eq (JStr "priority") (JStr "created_at")) with false.
  change (py_eq (JStr "priority") (JStr "due_date")) with false.
  change (py_eq (JStr "priority") (JStr "priority")) with true.
  cbv iota. unfold op_bind. rewrite (lift_state _ s st Hs).
  split.
  - intros Hm. rewrite priority_keys_members by done.
    rewrite process_eta by done.
    destruct (py_sort int_lt false (map (fun t => (priority_rank t, t)) tasks))
      as [r|] eqn:Hsort.
    2:{ unfold py_sort in Hsort. by rewrite comparable_ints in Hsort. }
    exists r. split; [done|].
    pose proof (py_sort_keyed_perm int_lt false priority_rank tasks r Hsort)
      as Hperm.
    split; [done|]. split.
    + eapply (StronglySorted_impl_Forall (fun _ => True));
        [by apply Forall_true| |].
      2:{ apply (py_sort_keyed_sorted int_lt false priority_rank
                   (fun _ => True) tasks r); [| |by apply Forall_true|done].
          - intros k k' _ _. simpl. lia.
          - intros k1 k2 k3 _ _ _. simpl. lia. }
      intros a b _ _. simpl. lia.
    + intros p.
      pose proof (py_sort_keyed_stable int_lt false priority_rank
                    (fun k => Z.eqb k (match p with
                                       | HIGH => 0 | MEDIUM => 1 | LOW => 2
                                       end)%Z) tasks r Hsort) as Hst.
      assert (∀ l : list Task,
                Forall (fun t => member_priority t = true) l →
                List.filter
                  (fun t => priority_eq (priority t) (PriorityOf p)) l
                = List.filter
                    (fun t => Z.eqb (priority_rank t)
                                (match p with
                                 | HIGH => 0 | MEDIUM => 1 | LOW => 2
                                 end)%Z) l) as Hext.
      { intros l Hl. apply filter_ext_Forall.
        eapply Forall_impl; [exact Hl|]. intros t.
        unfold member_priority, priority_rank.
        destruct (priority t) as [[]|]; try done; by destruct p. }
      rewrite !Hext by (done || by rewrite Hperm).
      apply Hst. intros k k' Hk Hk'. simpl. lia.
  - intros Hex.
    destruct (priority_keys_raise tasks (disk s) Hex) as (e & He & Hk).
    rewrite He. rewrite process_eta by done. by exists e.
Qed.

End ListTasksFacts.

(** ** The module-level store *)

Lemma keeps_handle_ret {A} (a : A) : keeps_handle (op_ret a).
Proof. by intros s storage Hs. Qed.

Lemma keeps_handle_raise {A} e : keeps_handle (op_raise (A:=A) e).
Proof. by intros s storage Hs. Qed.

Lemma keeps_handle_bind {A B} (m : Op A) (k : A → Op B) :
  keeps_handle m → (∀ a, keeps_handle (k a)) → keeps_handle (op_bind m k).
Proof.
  intros Hm Hk s storage Hs. unfold op_bind. specialize (Hm s storage Hs).
  destruct (m s) as [[a|e] s1]; simpl in *; [|done]. by apply Hk.
Qed.

Lemma keeps_handle_try {A} (m : Op A) (h : op_exn → Op A) :
  keeps_handle m → (∀ e, keeps_handle (h e)) → keeps_handle (op_try m h).
Proof.
  intros Hm Hh s storage Hs. unfold op_try. specialize (Hm s storage Hs).
  destruct (m s) as [[a|e] s1]; simpl in *; [done|]. by apply Hh.
Qed.

Lemma keeps_handle_lift {A} (m : M A) : keeps_handle (lift m).
Proof.
  intros s storage Hs. unfold lift. by destruct (m (disk s)) as [[a|e] w].
Qed.

Lemma keeps_handle_quiet {A} (m : Op A) : quiet m → keeps_handle m.
Proof. intros Hq s storage Hs. destruct (Hq s) as [_ Heq]. congruence. Qed.

Section Handle.
Context `{Runtime} `{Calendar}.

Lemma init_raises_os_error pl file_path w e w' :
  __init__ pl file_path w = (Raise e, w') → ∃ msg, e = OSError msg.
Proof.
  unfold __init__, bind, mkdir_parents, path_exists, write_text,
    partial_write, modify_files, raise, ret.
  repeat case_match; simpl; intros; simplify_eq; try by eexists.
  all: match goal with
       | Hb : _ = (Raise _, _) |- _ =>
           unfold bind in Hb; simpl in Hb; injection Hb as <- _
       end; by eexists.
Qed.

Lemma keeps_handle_get_storage env : keeps_handle (_get_storage env).
Proof. intros s storage Hs. unfold _get_storage. by rewrite Hs. Qed.

Lemma keeps_handle_remove_each env storage n tasks :
  keeps_handle (remove_each env storage n tasks).
Proof.
  revert n. induction tasks as [|t tasks IH]; intros n; simpl.
  - apply keeps_handle_ret.
  - apply keeps_handle_bind; [apply keeps_handle_lift | intros _; apply IH].
Qed.

Lemma keeps_handle_sorted tasks : keeps_handle (sorted tasks).
Proof. destruct tasks; [apply keeps_handle_ret | apply keeps_handle_raise]. Qed.

(** X27.  The module-level store is set once.  [_get_storage] returns the
    store that is set; when none is set it makes the store of
    [~/.task_manager/tasks.json] and sets it, or lets the [OSError] of the
    constructor through and leaves none set.  No operation replaces a
    store that is set, whether it returns or raises. *)
Theorem operations_keep_the_store env :
  (∀ s, match _get_storage env s with
        | (Returned storage, s') =>
            _storage s' = Some storage
            ∧ (_storage s = None →
               _file_path storage
               = home env ++ [".task_manager"; "tasks.json"])
        | (Failed e, s') =>
            _storage s = None ∧ _storage s' = None
            ∧ ∃ msg, e = Raised (OSError msg)
        end)
  ∧ (∀ title description priority due_date,
       keeps_handle (create_task env title description priority due_date))
  ∧ (∀ task_id, keeps_handle (get_task env task_id))
  ∧ (∀ status_filter priority_filter sort_by,
       keeps_handle (list_tasks env status_filter priority_filter sort_by))
  ∧ (∀ task_id status, keeps_handle (update_task_status env task_id status))
  ∧ (∀ task_id, keeps_handle (delete_task env task_id))
  ∧ keeps_handle (clear_completed_tasks env).
Proof.
  split; [|split; [|split; [|split; [|split; [|split]]]]].
  - intros s. unfold _get_storage.
    destruct (_storage s) as [storage|] eqn:Hs; [done|].
    destruct (__init__ _ _ (disk s)) as [[storage|e] w'] eqn:Hi; simpl.
    + split; [done|]. intros _. revert Hi.
      unfold __init__, bind, mkdir_parents, path_exists, write_text,
        partial_write, modify_files, raise, ret.
      repeat case_match; simpl; intros; by simplify_eq.
    + split; [done|]. split; [done|].
      destruct (init_raises_os_error _ _ _ _ _ Hi) as [msg ->]. by exists msg.
  - intros ti de pr du. unfold create_task.
    apply keeps_handle_bind.
    + apply keeps_handle_try.
      * apply keeps_handle_bind; [apply keeps_handle_lift|].
        intros task. apply keeps_handle_bind;
          [apply keeps_handle_quiet, quiet_validate|].
        intros _. apply keeps_handle_ret.
      * intros e. repeat case_match; apply keeps_handle_raise.
    + intros task. apply keeps_handle_bind; [apply keeps_handle_get_storage|].
      intros storage. apply keeps_handle_bind; [apply keeps_handle_lift|].
      intros _. apply keeps_handle_ret.
  - intros task_id. unfold get_task.
    apply keeps_handle_bind; [apply keeps_handle_get_storage|].
    intros storage. apply keeps_handle_lift.
  - intros sf pf sort_by. unfold list_tasks.
    apply keeps_handle_bind; [apply keeps_handle_get_storage|].
    intros storage. apply keeps_handle_bind; [apply keeps_handle_lift|].
    intros tasks. cbv zeta.
    repeat case_match; try apply keeps_handle_sorted; try apply keeps_handle_ret.
    all: apply keeps_handle_bind; [apply keeps_handle_lift|].
    all: intros keyed; apply keeps_handle_sorted.
  - intros task_id status. unfold update_task_status.
    apply keeps_handle_bind; [apply keeps_handle_get_storage|].
    intros storage. apply keeps_handle_bind; [apply keeps_handle_lift|].
    intros task. apply keeps_handle_bind.
    + case_match; [apply keeps_handle_lift | apply keeps_handle_ret].
    + intros task'. apply keeps_handle_bind; [apply keeps_handle_lift|].
      intros _. apply keeps_handle_ret.
  - intros task_id. unfold delete_task.
    apply keeps_handle_bind; [apply keeps_handle_get_storage|].
    intros storage. apply keeps_handle_lift.
  - unfold clear_completed_tasks.
    apply keeps_handle_bind; [apply keeps_handle_get_storage|].
    intros storage. apply keeps_handle_bind; [apply keeps_handle_lift|].
    intros all_tasks. cbv zeta.
    apply keeps_handle_bind; [apply keeps_handle_remove_each|].
    intros _. apply keeps_handle_ret.
Qed.

End Handle.

(** * More of the code at work, on the reference runtime *)

Section MoreExamples.
#[local] Existing Instance reference_runtime.

(** X3 at work: the file that [save] wrote for one task. *)
Lemma load_returns_iff_witness :
  ((∃ tasks w', load no_faults example_store (stored [task_a])
                = (Return tasks, w'))
   ↔ ∃ items, json_loads (RefJson.dumps (JList (map to_dict [task_a])))
              = inr (JList items)
              ∧ forallb loadable items = true)
  ∧ (∀ tasks w' items,
       load no_faults example_store (stored [task_a]) = (Return tasks, w') →
       json_loads (RefJson.dumps (JList (map to_dict [task_a])))
       = inr (JList items) →
       length tasks = length items).
Proof.
  apply (load_returns_iff no_faults example_store (stored [task_a])).
  - reflexivity.
  - vm_compute. reflexivity.
Defined.

(** X5 at work: no file is at the path. *)
Lemma unreadable_file_stops_every_operation_witness :
  let failed :=
    StorageError ("Failed to load tasks: " +:+ strerror_noent example_path) in
  load no_faults example_store empty_world = (Raise failed, empty_world)
  ∧ get_all no_faults example_store empty_world = (Raise failed, empty_world)
  ∧ get_by_id no_faults example_store (JStr "a") empty_world
    = (Raise failed, empty_world)
  ∧ add no_faults example_store task_a empty_world
    = (Raise failed, empty_world)
  ∧ remove no_faults example_store (JStr "a") empty_world
    = (Raise failed, empty_world)
  ∧ update no_faults example_store task_a empty_world
    = (Raise failed, empty_world).
Proof.
  apply (unreadable_file_stops_every_operation no_faults example_store
           empty_world task_a (JStr "a")).
  right. vm_compute. reflexivity.
Defined.

(** X6 at work: the first of two stored tasks is removed. *)
Lemma remove_deletes_every_match_witness :
  let kept := List.filter (fun t => py_ne (id t) (JStr "a")) [task_a; task_b] in
  remove no_faults example_store (JStr "a") (stored [task_a; task_b])
  = save no_faults example_store kept (stored [task_a; task_b])
  ∧ has_id (JStr "a") kept = false
  ∧ length kept < length [task_a; task_b]
  ∧ sublist kept [task_a; task_b]
  ∧ (∀ t, t ∈ [task_a; task_b] → py_eq (id t) (JStr "a") = false → t ∈ kept)
  ∧ saved_as example_store kept (stored [task_a; task_b])
      (remove no_faults example_store (JStr "a") (stored [task_a; task_b]))
  ∧ (no_faults OpOpen = None → no_faults OpDump = None →
     no_faults OpRename = None →
     ∃ w', remove no_faults example_store (JStr "a")
             (stored [task_a; task_b]) = (Return tt, w')).
Proof.
  apply (remove_deletes_every_match no_faults example_store (JStr "a")
           (stored [task_a; task_b]) [task_a; task_b]
           (stored [task_a; task_b])).
  - vm_compute. reflexivity.
  - reflexivity.
Defined.

(** X7 at work: a second task is added and looked up. *)
Lemma add_then_get_by_id_witness :
  ∃ w2, add no_faults example_store task_b (stored [task_a]) = (Return tt, w2)
    ∧ load no_faults example_store w2
      = (Return ([task_a] ++ [strip_title task_b]), w2)
    ∧ get_by_id no_faults example_store (id task_b) w2
      = (Return (strip_title task_b), w2).
Proof.
  apply (add_then_get_by_id no_faults no_faults example_store task_b
           (stored [task_a]) [task_a] (stored [task_a])).
  - vm_compute. reflexivity.
  - reflexivity.
  - reflexivity.
  - reflexivity.
  - reflexivity.
  - reflexivity.
  - reflexivity.
  - vm_compute. reflexivity.
Defined.

(** X8 at work: the first of two stored tasks is removed and looked up. *)
Lemma remove_then_get_by_id_witness :
  let kept := List.filter (fun t => py_ne (id t) (JStr "a")) [task_a; task_b] in
  ∃ w2, remove no_faults example_store (JStr "a") (stored [task_a; task_b])
        = (Return tt, w2)
    ∧ load no_faults example_store w2 = (Return kept, w2)
    ∧ get_by_id no_faults example_store (JStr "a") w2
      = (Raise (TaskNotFoundError
                  ("Task with ID " +:+ py_str (JStr "a") +:+ " not found")), w2).
Proof.
  apply (remove_then_get_by_id no_faults no_faults example_store (JStr "a")
           (stored [task_a; task_b]) [task_a; task_b]
           (stored [task_a; task_b])).
  - vm_compute. reflexivity.
  - reflexivity.
  - reflexivity.
  - reflexivity.
  - reflexivity.
  - reflexivity.
  - vm_compute. reflexivity.
Defined.

(** X9 at work: the second of two stored tasks is updated and looked up. *)
Lemma update_then_get_by_id_witness :
  ∃ w2, update no_faults example_store task_b_renamed (stored [task_a; task_b])
        = (Return tt, w2)
    ∧ load no_faults example_store w2
      = (Return (<[1 := strip_title task_b_renamed]> [task_a; task_b]), w2)
    ∧ get_by_id no_faults example_store (id task_b_renamed) w2
      = (Return (strip_title task_b_renamed), w2).
Proof.
  apply (update_then_get_by_id no_faults no_faults example_store
           task_b_renamed (stored [task_a; task_b]) [task_a; task_b]
           (stored [task_a; task_b]) 1).
  - vm_compute. reflexivity.
  - reflexivity.
  - reflexivity.
  - reflexivity.
  - reflexivity.
  - reflexivity.
  - reflexivity.
  - vm_compute. reflexivity.
Defined.

(** X11 at work: a record that holds a title and nothing else. *)
Lemma from_dict_defaults_witness :
  from_dict (JDict [("title", JStr " a ")]) empty_world
  = (Return {| title := JStr "a"; description := JNull;
               priority := PriorityOf MEDIUM; due_date := JNull;
               status := StatusOf ACTIVE;
               id := JStr (uuid4 0); created_at := JStr (now_isoformat 1);
               completed_at := JNull |},
     mkWorld ∅ ∅ 2).
Proof.
  exact (from_dict_defaults [("title", JStr " a ")] empty_world
           eq_refl eq_refl eq_refl eq_refl eq_refl).
Defined.

End MoreExamples.

(** * The operations at work, on the reference runtime *)

Section OperationExamples.
#[local] Existing Instance reference_runtime.
#[local] Existing Instance example_calendar.

(** X13 at work: a title of white space. *)
Lemma create_task_validates_first_witness :
  same_disk (disk (running (stored [task_a])))
    (disk (later 2 (running (stored [task_a]))))
  ∧ _storage (later 2 (running (stored [task_a])))
    = _storage (running (stored [task_a])).
Proof.
  apply (create_task_validates_first example_env (JStr "   ") JNull
           (PriorityRaw (JStr "medium")) JNull (running (stored [task_a]))
           "Task title cannot be empty").
  vm_compute. reflexivity.
Defined.

(** X14 at work: the priority [urgent]. *)
Lemma create_task_unknown_priority_witness :
  ∃ s', create_task example_env (JStr "Title") JNull
          (PriorityRaw (JStr "urgent")) JNull (running (stored [task_a]))
        = (Failed (ValidationError ("Invalid priority: " +:+ "urgent")), s')
    ∧ same_disk (disk (running (stored [task_a]))) (disk s')
    ∧ _storage s' = _storage (running (stored [task_a])).
Proof.
  apply (create_task_unknown_priority example_env (JStr "Title") JNull
           "urgent" JNull (running (stored [task_a]))).
  reflexivity.
Defined.

(** X15 at work: a title of white space, with the priority [High]. *)
Lemma create_task_title_checks_witness :
  let outcome :=
    fst (create_task example_env (JStr "   ") JNull
           (PriorityRaw (JStr "High")) JNull (running (stored [task_a]))) in
  (truthy (JStr "   ") = false →
   outcome = Failed (ValidationError "Task title cannot be empty"))
  ∧ (∀ t, JStr "   " = JStr t → PyStr.strip t = EmptyString →
     outcome = Failed (ValidationError "Task title cannot be empty"))
  ∧ (∀ t, JStr "   " = JStr t → 200 < String.length (PyStr.strip t) →
     outcome
     = Failed (ValidationError "Task title cannot exceed 200 characters")).
Proof.
  apply (create_task_title_checks example_env (JStr "   ") JNull
           (PriorityRaw (JStr "High")) JNull (running (stored [task_a]))).
  reflexivity.
Defined.

(** X16 at work: a due date before the day of the calendar. *)
Lemma create_task_due_date_checks_witness :
  fst (create_task example_env (JStr "Title") JNull
         (PriorityRaw (JStr "low")) (JStr "2026-6-14")
         (running (stored [task_a])))
  = Failed (ValidationError "Invalid due_date: cannot be in the past").
Proof.
  assert (priority_passes (PriorityRaw (JStr "low")) = true) as Hp
    by reflexivity.
  assert (title_passes "Title" = true) as Ht by reflexivity.
  assert (description_passes JNull = true) as Hd by reflexivity.
  exact (create_task_due_date_checks example_env "Title" JNull
           (PriorityRaw (JStr "low")) "2026-6-14" (running (stored [task_a]))
           Hp Ht Hd).
Defined.

(** X17 at work: a task is created beside the stored one, and looked up. *)
Lemma create_task_then_get_task_witness :
  let task :=
    new_task " Buy milk " (JStr "two litres") (PriorityRaw (JStr "LOW"))
      (JStr "2026-06-15") 0 in
  ∃ s', create_task example_env (JStr " Buy milk ") (JStr "two litres")
          (PriorityRaw (JStr "LOW")) (JStr "2026-06-15")
          (running (stored [task_a]))
        = (Returned task, s')
    ∧ holds example_store ([task_a] ++ [task]) (disk s')
    ∧ _storage s' = Some example_store
    ∧ get_task example_env (id task) s' = (Returned task, s').
Proof.
  apply (create_task_then_get_task example_env example_env example_store
           " Buy milk " (JStr "two litres") (PriorityRaw (JStr "LOW"))
           (JStr "2026-06-15") (running (stored [task_a])) [task_a]).
  - reflexivity.
  - split; [reflexivity|]. split; [vm_compute; reflexivity|].
    apply Forall_singleton. reflexivity.
  - repeat split.
  - reflexivity.
  - reflexivity.
  - reflexivity.
  - reflexivity.
  - reflexivity.
  - reflexivity.
  - vm_compute. reflexivity.
Defined.

(** X18 at work: no stored task has the ID [z]. *)
Lemma absent_id_stops_operations_witness :
  let not_found :=
    Raised (TaskNotFoundError
              ("Task with ID " +:+ py_str (JStr "z") +:+ " not found")) in
  get_task example_env (JStr "z") (running (stored [task_a]))
  = (Failed not_found, running (stored [task_a]))
  ∧ delete_task example_env (JStr "z") (running (stored [task_a]))
    = (Failed not_found, running (stored [task_a]))
  ∧ update_task_status example_env (JStr "z") (StatusOf COMPLETED)
      (running (stored [task_a]))
    = (Failed not_found, running (stored [task_a])).
Proof.
  apply (absent_id_stops_operations example_env example_store
           (running (stored [task_a])) [task_a] (JStr "z")
           (StatusOf COMPLETED)).
  - reflexivity.
  - split; [reflexivity|]. split; [vm_compute; reflexivity|].
    apply Forall_singleton. reflexivity.
  - reflexivity.
  - reflexivity.
Defined.

(** X19 at work: the second of two stored tasks is reopened. *)
Lemma update_task_status_then_get_task_witness :
  let task := with_status task_b (StatusOf ACTIVE) JNull in
  ∃ s', update_task_status example_env (JStr "b") (StatusOf ACTIVE)
          (running (stored [task_a; task_b]))
        = (Returned task, s')
    ∧ holds example_store (<[1 := task]> [task_a; task_b]) (disk s')
    ∧ _storage s' = Some example_store
    ∧ get_task example_env (JStr "b") s' = (Returned task, s').
Proof.
  apply (update_task_status_then_get_task example_env example_env
           example_store (running (stored [task_a; task_b]))
           [task_a; task_b] (JStr "b") (StatusOf ACTIVE) 1 task_b).
  - reflexivity.
  - split; [reflexivity|]. split; [vm_compute; reflexivity|].
    repeat constructor.
  - reflexivity.
  - repeat split.
  - reflexivity.
  - reflexivity.
  - reflexivity.
  - reflexivity.
  - vm_compute. reflexivity.
Defined.

(** X20 at work: the stored task is completed and reopened. *)
Lemma complete_then_reopen_witness :
  ∃ s1 s2,
    update_task_status example_env (JStr "a") (StatusOf COMPLETED)
      (running (stored [task_a]))
    = (Returned (with_status task_a (StatusOf COMPLETED)
                   (JStr (now_isoformat 0))), s1)
    ∧ update_task_status example_env (JStr "a") (StatusOf ACTIVE) s1
      = (Returned task_a, s2)
    ∧ holds example_store [task_a] (disk s2)
    ∧ _storage s2 = Some example_store.
Proof.
  apply (complete_then_reopen example_env example_env example_store
           (running (stored [task_a])) [task_a] (JStr "a") 0 task_a).
  - reflexivity.
  - split; [reflexivity|]. split; [vm_compute; reflexivity|].
    repeat constructor.
  - reflexivity.
  - repeat split.
  - reflexivity.
  - repeat split.
  - reflexivity.
  - reflexivity.
  - reflexivity.
  - reflexivity.
  - reflexivity.
  - vm_compute. reflexivity.
Defined.

(** X21 at work: two of three stored tasks are completed. *)
Lemma clear_completed_tasks_removes_witness :
  ∃ s', clear_completed_tasks example_env
          (running (stored [task_b; task_a; task_c]))
        = (Returned (length [task_b; task_c]), s')
    ∧ holds example_store (without [task_b; task_c] [task_b; task_a; task_c])
        (disk s')
    ∧ Forall (fun t => status_eq (status t) (StatusOf COMPLETED) = false)
        (without [task_b; task_c] [task_b; task_a; task_c])
    ∧ ([task_b; task_c] = [] → s' = running (stored [task_b; task_a; task_c])).
Proof.
  apply (clear_completed_tasks_removes example_env example_store
           (running (stored [task_b; task_a; task_c]))
           [task_b; task_a; task_c]).
  - reflexivity.
  - split; [reflexivity|]. split; [vm_compute; reflexivity|].
    repeat constructor.
  - intros n. repeat split.
  - repeat constructor.
  - apply NoDup_cons. split; [|apply NoDup_singleton].
    intros Hin%list_elem_of_singleton. discriminate.
  - intros [|[|[|k]]] Hk; vm_compute; reflexivity.
Defined.

(** X22 at work: two completed tasks have the ID [b]. *)
Lemma clear_completed_tasks_shared_id_witness :
  ∃ s', clear_completed_tasks example_env
          (running (stored [task_a; task_b; task_b_renamed]))
        = (Failed (Raised (TaskNotFoundError
                             ("Task with ID " +:+ py_str (id task_b_renamed)
                              +:+ " not found"))), s')
    ∧ holds example_store (without [task_b] [task_a; task_b; task_b_renamed])
        (disk s')
    ∧ length (without [task_b] [task_a; task_b; task_b_renamed])
      < length [task_a; task_b; task_b_renamed].
Proof.
  apply (clear_completed_tasks_shared_id example_env example_store
           (running (stored [task_a; task_b; task_b_renamed]))
           [task_a; task_b; task_b_renamed] [task_b] task_b_renamed []).
  - reflexivity.
  - split; [reflexivity|]. split; [vm_compute; reflexivity|].
    repeat constructor.
  - intros n. repeat split.
  - reflexivity.
  - repeat constructor.
  - apply NoDup_singleton.
  - apply list_elem_of_singleton. reflexivity.
  - intros [|[|k]] Hk; vm_compute; reflexivity.
Defined.

(** X24 at work: three stored tasks, no filter. *)
Lemma list_tasks_newest_first_witness :
  ∃ r, list_tasks example_env None None (JStr "created_at")
         (running (stored [task_a; task_b; task_c]))
       = (Returned r, running (stored [task_a; task_b; task_c]))
    ∧ r ≡ₚ chosen None None [task_a; task_b; task_c]
    ∧ StronglySorted
        (fun a b => py_lt (created_at a) (created_at b) = Some false) r
    ∧ ∀ c, List.filter (fun t => py_eq (created_at t) (JStr c)) r
           = List.filter (fun t => py_eq (created_at t) (JStr c))
               (chosen None None [task_a; task_b; task_c]).
Proof.
  apply (list_tasks_newest_first example_env example_store
           (running (stored [task_a; task_b; task_c]))
           [task_a; task_b; task_c] None None).
  - reflexivity.
  - split; [reflexivity|]. split; [vm_compute; reflexivity|].
    repeat constructor.
  - reflexivity.
  - repeat constructor.
Defined.

(** X25 at work: the completed tasks of three stored ones, one of them
    with a due date. *)
Lemma list_tasks_by_due_date_witness :
  ∃ r, list_tasks example_env (Some (StatusOf COMPLETED)) None
         (JStr "due_date") (running (stored [task_a; task_c; task_b]))
       = (Returned r, running (stored [task_a; task_c; task_b]))
    ∧ r ≡ₚ chosen (Some (StatusOf COMPLETED)) None [task_a; task_c; task_b]
    ∧ StronglySorted due_order r
    ∧ (∀ c, List.filter (fun t => py_eq (due_date t) (JStr c)) r
            = List.filter (fun t => py_eq (due_date t) (JStr c))
                (chosen (Some (StatusOf COMPLETED)) None
                   [task_a; task_c; task_b]))
    ∧ List.filter (fun t => is_none (due_date t)) r
      = List.filter (fun t => is_none (due_date t))
          (chosen (Some (StatusOf COMPLETED)) None [task_a; task_c; task_b]).
Proof.
  apply (list_tasks_by_due_date example_env example_store
           (running (stored [task_a; task_c; task_b]))
           [task_a; task_c; task_b] (Some (StatusOf COMPLETED)) None).
  - reflexivity.
  - split; [reflexivity|]. split; [vm_compute; reflexivity|].
    repeat constructor.
  - reflexivity.
  - repeat constructor.
Defined.

(** X26 at work: three stored tasks, each with a member as priority. *)
Lemma list_tasks_by_priority_witness :
  ∃ r, list_tasks example_env None None (JStr "priority")
         (running (stored [task_b; task_c; task_a]))
       = (Returned r, running (stored [task_b; task_c; task_a]))
    ∧ r ≡ₚ [task_b; task_c; task_a]
    ∧ StronglySorted
        (fun a b => (priority_rank a <= priority_rank b)%Z) r
    ∧ ∀ p, List.filter (fun t => priority_eq (priority t) (PriorityOf p)) r
           = List.filter (fun t => priority_eq (priority t) (PriorityOf p))
               [task_b; task_c; task_a].
Proof.
  apply (list_tasks_by_priority example_env example_store
           (running (stored [task_b; task_c; task_a]))
           [task_b; task_c; task_a] None None).
  - reflexivity.
  - split; [reflexivity|]. split; [vm_compute; reflexivity|].
    repeat constructor.
  - reflexivity.
  - repeat constructor.
Defined.

End OperationExamples.
